(** * cf_ai_newsletter: the newsletter pipeline of [src/index.ts]

    A shallow embedding of the Cloudflare Worker in [src/index.ts]
    (fetch news, summarise with Workers AI, compose a digest, send it
    through Resend, on a cron trigger) and the properties its
    specification states about it.

    JavaScript strings are sequences of UTF-16 code units; they are
    modelled as [list N].  Asynchronous functions are sequential
    ([await] at every call), so they are modelled in a state-and-exception
    monad whose state holds the console and network trace, a call counter
    and the D1 table. *)

From Stdlib Require Import List NArith ZArith Ascii String Bool Lia Arith.
From Stdlib Require Import DecimalString Permutation.
Import ListNotations.

Set Warnings "-register-all".

Local Open Scope N_scope.
Local Open Scope list_scope.

(* ================================================================== *)
(** * JavaScript strings *)
(* ================================================================== *)

Module JS.

(** A string value: UTF-16 code units, as [String.prototype.length],
    [substring] and [trim] see them. *)
Definition jsstring := list N.

Definition bytes_of_string (s : string) : list N :=
  map N_of_ascii (list_ascii_of_string s).

(** Continuation byte payload of a UTF-8 sequence. *)
Definition cont (b : N) : N := N.land b 63.

(** Code points of a UTF-8 encoded literal of this file. *)
Fixpoint utf8_decode (bs : list N) : list N :=
  match bs with
  | [] => []
  | b :: rest =>
      if b <? 128 then b :: utf8_decode rest
      else if b <? 224 then
        match rest with
        | b1 :: rest1 =>
            (N.shiftl (N.land b 31) 6 + cont b1) :: utf8_decode rest1
        | _ => [65533]
        end
      else if b <? 240 then
        match rest with
        | b1 :: b2 :: rest2 =>
            (N.shiftl (N.land b 15) 12 + N.shiftl (cont b1) 6 + cont b2)
              :: utf8_decode rest2
        | _ => [65533]
        end
      else
        match rest with
        | b1 :: b2 :: b3 :: rest3 =>
            (N.shiftl (N.land b 7) 18 + N.shiftl (cont b1) 12
             + N.shiftl (cont b2) 6 + cont b3) :: utf8_decode rest3
        | _ => [65533]
        end
  end.

(** UTF-16 encoding of one code point. *)
Definition utf16_units (cp : N) : list N :=
  if cp <? 65536 then [cp]
  else let c := cp - 65536 in
       [55296 + N.shiftr c 10; 56320 + N.land c 1023].

(** The string value denoted by a source literal. *)
Definition js (s : string) : jsstring :=
  flat_map utf16_units (utf8_decode (bytes_of_string s)).

Definition eqb (a b : jsstring) : bool :=
  if list_eq_dec N.eq_dec a b then true else false.

(** [s.length]. *)
Definition strlen (s : jsstring) : N := N.of_nat (List.length s).

(** [s.substring(0, n)] for [0 <= n]. *)
Definition substring0 (s : jsstring) (n : N) : jsstring :=
  firstn (N.to_nat n) s.

(** ToBoolean on a string: the empty string is the only falsy one. *)
Definition truthy (s : jsstring) : bool :=
  match s with [] => false | _ :: _ => true end.

(** [a || b] on strings. *)
Definition or_else (a b : jsstring) : jsstring :=
  if truthy a then a else b.

(** WhiteSpace and LineTerminator code units, the ones [trim] strips. *)
Definition is_white_space (c : N) : bool :=
  ((9 <=? c) && (c <=? 13)) || (c =? 32) || (c =? 160) || (c =? 5760)
  || ((8192 <=? c) && (c <=? 8202)) || (c =? 8232) || (c =? 8233)
  || (c =? 8239) || (c =? 8287) || (c =? 12288) || (c =? 65279).

Fixpoint trimStart (s : jsstring) : jsstring :=
  match s with
  | c :: rest => if is_white_space c then trimStart rest else s
  | [] => []
  end.

Definition trimEnd (s : jsstring) : jsstring := rev (trimStart (rev s)).

Definition trim (s : jsstring) : jsstring := trimEnd (trimStart s).

(** ** [String.prototype.toUpperCase]

    The string is read as code points (a high surrogate followed by a
    low one is one code point, any other code unit is itself), every
    code point is replaced by its uppercase mapping, and the result is
    written back as code units.  The mapping is the full,
    locale-independent one of the Unicode Character Database, here in
    version 14.0: the simple mappings of UnicodeData.txt, kept as runs,
    and the unconditional expansions of SpecialCasing.txt. *)

Definition is_high_surrogate (c : N) : bool := (55296 <=? c) && (c <=? 56319).

Definition is_low_surrogate (c : N) : bool := (56320 <=? c) && (c <=? 57343).

Fixpoint code_points (s : jsstring) : list N :=
  match s with
  | [] => []
  | c :: rest =>
      match rest with
      | d :: rest' =>
          if is_high_surrogate c && is_low_surrogate d
          then (65536 + (c - 55296) * 1024 + (d - 56320)) :: code_points rest'
          else c :: code_points rest
      | [] => [c]
      end
  end.

(** A run [(lo, hi, step, to)]: the code points [lo], [lo + step], ...
    up to [hi] have the uppercase forms [to], [to + step], ... *)
Definition uppercase_runs : list (N * N * N * N) :=
  [
   (97, 122, 1, 65); (181, 181, 1, 924); (224, 246, 1, 192);
   (248, 254, 1, 216); (255, 255, 1, 376); (257, 303, 2, 256);
   (305, 305, 1, 73); (307, 311, 2, 306); (314, 328, 2, 313);
   (331, 375, 2, 330); (378, 382, 2, 377); (383, 383, 1, 83);
   (384, 384, 1, 579); (387, 389, 2, 386); (392, 392, 1, 391);
   (396, 396, 1, 395); (402, 402, 1, 401); (405, 405, 1, 502);
   (409, 409, 1, 408); (410, 410, 1, 573); (414, 414, 1, 544);
   (417, 421, 2, 416); (424, 424, 1, 423); (429, 429, 1, 428);
   (432, 432, 1, 431); (436, 438, 2, 435); (441, 441, 1, 440);
   (445, 445, 1, 444); (447, 447, 1, 503); (453, 453, 1, 452);
   (454, 454, 1, 452); (456, 456, 1, 455); (457, 457, 1, 455);
   (459, 459, 1, 458); (460, 460, 1, 458); (462, 476, 2, 461);
   (477, 477, 1, 398); (479, 495, 2, 478); (498, 498, 1, 497);
   (499, 499, 1, 497); (501, 501, 1, 500); (505, 543, 2, 504);
   (547, 563, 2, 546); (572, 572, 1, 571); (575, 576, 1, 11390);
   (578, 578, 1, 577); (583, 591, 2, 582); (592, 592, 1, 11375);
   (593, 593, 1, 11373); (594, 594, 1, 11376); (595, 595, 1, 385);
   (596, 596, 1, 390); (598, 599, 1, 393); (601, 601, 1, 399);
   (603, 603, 1, 400); (604, 604, 1, 42923); (608, 608, 1, 403);
   (609, 609, 1, 42924); (611, 611, 1, 404); (613, 613, 1, 42893);
   (614, 614, 1, 42922); (616, 616, 1, 407); (617, 617, 1, 406);
   (618, 618, 1, 42926); (619, 619, 1, 11362); (620, 620, 1, 42925);
   (623, 623, 1, 412); (625, 625, 1, 11374); (626, 626, 1, 413);
   (629, 629, 1, 415); (637, 637, 1, 11364); (640, 640, 1, 422);
   (642, 642, 1, 42949); (643, 643, 1, 425); (647, 647, 1, 42929);
   (648, 648, 1, 430); (649, 649, 1, 580); (650, 651, 1, 433);
   (652, 652, 1, 581); (658, 658, 1, 439); (669, 669, 1, 42930);
   (670, 670, 1, 42928); (837, 837, 1, 921); (881, 883, 2, 880);
   (887, 887, 1, 886); (891, 893, 1, 1021); (940, 940, 1, 902);
   (941, 943, 1, 904); (945, 961, 1, 913); (962, 962, 1, 931);
   (963, 971, 1, 931); (972, 972, 1, 908); (973, 974, 1, 910);
   (976, 976, 1, 914); (977, 977, 1, 920); (981, 981, 1, 934);
   (982, 982, 1, 928); (983, 983, 1, 975); (985, 1007, 2, 984);
   (1008, 1008, 1, 922); (1009, 1009, 1, 929); (1010, 1010, 1, 1017);
   (1011, 1011, 1, 895); (1013, 1013, 1, 917); (1016, 1016, 1, 1015);
   (1019, 1019, 1, 1018); (1072, 1103, 1, 1040); (1104, 1119, 1, 1024);
   (1121, 1153, 2, 1120); (1163, 1215, 2, 1162); (1218, 1230, 2, 1217);
   (1231, 1231, 1, 1216); (1233, 1327, 2, 1232); (1377, 1414, 1, 1329);
   (4304, 4346, 1, 7312); (4349, 4351, 1, 7357); (5112, 5117, 1, 5104);
   (7296, 7296, 1, 1042); (7297, 7297, 1, 1044); (7298, 7298, 1, 1054);
   (7299, 7300, 1, 1057); (7301, 7301, 1, 1058); (7302, 7302, 1, 1066);
   (7303, 7303, 1, 1122); (7304, 7304, 1, 42570); (7545, 7545, 1, 42877);
   (7549, 7549, 1, 11363); (7566, 7566, 1, 42950); (7681, 7829, 2, 7680);
   (7835, 7835, 1, 7776); (7841, 7935, 2, 7840); (7936, 7943, 1, 7944);
   (7952, 7957, 1, 7960); (7968, 7975, 1, 7976); (7984, 7991, 1, 7992);
   (8000, 8005, 1, 8008); (8017, 8023, 2, 8025); (8032, 8039, 1, 8040);
   (8048, 8049, 1, 8122); (8050, 8053, 1, 8136); (8054, 8055, 1, 8154);
   (8056, 8057, 1, 8184); (8058, 8059, 1, 8170); (8060, 8061, 1, 8186);
   (8112, 8113, 1, 8120); (8126, 8126, 1, 921); (8144, 8145, 1, 8152);
   (8160, 8161, 1, 8168); (8165, 8165, 1, 8172); (8526, 8526, 1, 8498);
   (8560, 8575, 1, 8544); (8580, 8580, 1, 8579); (9424, 9449, 1, 9398);
   (11312, 11359, 1, 11264); (11361, 11361, 1, 11360);
   (11365, 11365, 1, 570); (11366, 11366, 1, 574); (11368, 11372, 2, 11367);
   (11379, 11379, 1, 11378); (11382, 11382, 1, 11381);
   (11393, 11491, 2, 11392); (11500, 11502, 2, 11499);
   (11507, 11507, 1, 11506); (11520, 11557, 1, 4256);
   (11559, 11559, 1, 4295); (11565, 11565, 1, 4301);
   (42561, 42605, 2, 42560); (42625, 42651, 2, 42624);
   (42787, 42799, 2, 42786); (42803, 42863, 2, 42802);
   (42874, 42876, 2, 42873); (42879, 42887, 2, 42878);
   (42892, 42892, 1, 42891); (42897, 42899, 2, 42896);
   (42900, 42900, 1, 42948); (42903, 42921, 2, 42902);
   (42933, 42947, 2, 42932); (42952, 42954, 2, 42951);
   (42961, 42961, 1, 42960); (42967, 42969, 2, 42966);
   (42998, 42998, 1, 42997); (43859, 43859, 1, 42931);
   (43888, 43967, 1, 5024); (65345, 65370, 1, 65313);
   (66600, 66639, 1, 66560); (66776, 66811, 1, 66736);
   (66967, 67003, 2, 66928); (66968, 66977, 1, 66929);
   (66980, 66993, 1, 66941); (66996, 67001, 1, 66957);
   (67004, 67004, 1, 66965); (68800, 68850, 1, 68736);
   (71872, 71903, 1, 71840); (93792, 93823, 1, 93760);
   (125218, 125251, 1, 125184)
  ].

(** The code points whose uppercase form is more than one code point. *)
Definition uppercase_expansions : list (N * list N) :=
  [
   (223, [83; 83]); (329, [700; 78]); (496, [74; 780]);
   (912, [921; 776; 769]); (944, [933; 776; 769]); (1415, [1333; 1362]);
   (7830, [72; 817]); (7831, [84; 776]); (7832, [87; 778]);
   (7833, [89; 778]); (7834, [65; 702]); (8016, [933; 787]);
   (8018, [933; 787; 768]); (8020, [933; 787; 769]); (8022, [933; 787; 834]);
   (8064, [7944; 921]); (8065, [7945; 921]); (8066, [7946; 921]);
   (8067, [7947; 921]); (8068, [7948; 921]); (8069, [7949; 921]);
   (8070, [7950; 921]); (8071, [7951; 921]); (8072, [7944; 921]);
   (8073, [7945; 921]); (8074, [7946; 921]); (8075, [7947; 921]);
   (8076, [7948; 921]); (8077, [7949; 921]); (8078, [7950; 921]);
   (8079, [7951; 921]); (8080, [7976; 921]); (8081, [7977; 921]);
   (8082, [7978; 921]); (8083, [7979; 921]); (8084, [7980; 921]);
   (8085, [7981; 921]); (8086, [7982; 921]); (8087, [7983; 921]);
   (8088, [7976; 921]); (8089, [7977; 921]); (8090, [7978; 921]);
   (8091, [7979; 921]); (8092, [7980; 921]); (8093, [7981; 921]);
   (8094, [7982; 921]); (8095, [7983; 921]); (8096, [8040; 921]);
   (8097, [8041; 921]); (8098, [8042; 921]); (8099, [8043; 921]);
   (8100, [8044; 921]); (8101, [8045; 921]); (8102, [8046; 921]);
   (8103, [8047; 921]); (8104, [8040; 921]); (8105, [8041; 921]);
   (8106, [8042; 921]); (8107, [8043; 921]); (8108, [8044; 921]);
   (8109, [8045; 921]); (8110, [8046; 921]); (8111, [8047; 921]);
   (8114, [8122; 921]); (8115, [913; 921]); (8116, [902; 921]);
   (8118, [913; 834]); (8119, [913; 834; 921]); (8124, [913; 921]);
   (8130, [8138; 921]); (8131, [919; 921]); (8132, [905; 921]);
   (8134, [919; 834]); (8135, [919; 834; 921]); (8140, [919; 921]);
   (8146, [921; 776; 768]); (8147, [921; 776; 769]); (8150, [921; 834]);
   (8151, [921; 776; 834]); (8162, [933; 776; 768]); (8163, [933; 776; 769]);
   (8164, [929; 787]); (8166, [933; 834]); (8167, [933; 776; 834]);
   (8178, [8186; 921]); (8179, [937; 921]); (8180, [911; 921]);
   (8182, [937; 834]); (8183, [937; 834; 921]); (8188, [937; 921]);
   (64256, [70; 70]); (64257, [70; 73]); (64258, [70; 76]);
   (64259, [70; 70; 73]); (64260, [70; 70; 76]); (64261, [83; 84]);
   (64262, [83; 84]); (64275, [1348; 1350]); (64276, [1348; 1333]);
   (64277, [1348; 1339]); (64278, [1358; 1350]); (64279, [1348; 1341])
  ].

Definition in_run (cp : N) (r : N * N * N * N) : bool :=
  let '(lo, hi, step, _) := r in
  (lo <=? cp) && (cp <=? hi) && ((cp - lo) mod step =? 0).

Definition upper_code_point (cp : N) : list N :=
  match find (fun e => fst e =? cp) uppercase_expansions with
  | Some (_, l) => l
  | None =>
      match find (in_run cp) uppercase_runs with
      | Some (lo, _, _, to) => [to + (cp - lo)]
      | None => [cp]
      end
  end.

Definition toUpperCase (s : jsstring) : jsstring :=
  flat_map (fun cp => flat_map utf16_units (upper_code_point cp)) (code_points s).

Fixpoint repeat_str (s : jsstring) (n : nat) : jsstring :=
  match n with
  | O => []
  | S k => s ++ repeat_str s k
  end.

(** Number-to-string conversion of a non-negative integer. *)
Definition of_N (n : N) : jsstring :=
  bytes_of_string (NilZero.string_of_uint (N.to_uint n)).

(** [s.split(sep)] for a one-unit separator: never the empty array. *)
Fixpoint split_on (sep : N) (s : jsstring) : list jsstring :=
  match s with
  | [] => [[]]
  | c :: rest =>
      if c =? sep then [] :: split_on sep rest
      else match split_on sep rest with
           | hd :: tl => (c :: hd) :: tl
           | [] => [[c]]
           end
  end.

(** [parts.join(sep)]. *)
Fixpoint join (sep : jsstring) (parts : list jsstring) : jsstring :=
  match parts with
  | [] => []
  | [p] => p
  | p :: rest => p ++ sep ++ join sep rest
  end.

End JS.

Import JS.
Arguments js s%_string : simpl never.


(** Code units the source writes as escapes or that end a literal. *)
Definition COMMA : N := 44.
Definition NL : jsstring := [10].
Definition DQ : jsstring := [34].

(* ================================================================== *)
(** * Values, exceptions and completions *)
(* ================================================================== *)

(** A thrown JavaScript error: constructor name and message. *)
Inductive exn : Type :=
| JsError (name : string) (message : jsstring).

Definition TypeError (msg : string) : exn := JsError "TypeError" (js msg).

(** Values typed [any] by the source: what [ai.run] and the parsed body
    of the Resend answer may be. *)
Inductive jsvalue : Type :=
| JUndefined
| JNull
| JBool (b : bool)
| JNum (n : Z)
| JStr (s : jsstring)
| JArr (items : list jsvalue)
| JObj (fields : list (jsstring * jsvalue)).

(** ToBoolean. *)
Definition value_truthy (v : jsvalue) : bool :=
  match v with
  | JUndefined | JNull => false
  | JBool b => b
  | JNum n => negb (n =? 0)%Z
  | JStr s => truthy s
  | JArr _ | JObj _ => true
  end.

Fixpoint assoc {V : Type} (k : jsstring) (l : list (jsstring * V)) : option V :=
  match l with
  | [] => None
  | (k', v) :: rest => if JS.eqb k k' then Some v else assoc k rest
  end.

(** [v.name] on a value that is neither [null] nor [undefined]; the
    properties of primitives and arrays are never the one looked up. *)
Definition get_prop (v : jsvalue) (name : jsstring) : jsvalue :=
  match v with
  | JObj fields =>
      match assoc name fields with
      | Some x => x
      | None => JUndefined
      end
  | _ => JUndefined
  end.

(** Outcome of evaluating an expression or awaiting a promise. *)
Inductive completion (A : Type) : Type :=
| Normal (a : A)
| Throw (e : exn).
Arguments Normal {A} a.
Arguments Throw {A} e.

(** [v.trim()]: only strings have the method. *)
Definition call_trim (v : jsvalue) : completion jsstring :=
  match v with
  | JStr s => Normal (trim s)
  | _ => Throw (TypeError "response.response.trim is not a function")
  end.

(* ================================================================== *)
(** * Data model *)
(* ================================================================== *)

(** [interface NewsArticle], with the two fields the pipeline adds or
    carries along: [category], set by the object spread in
    [fetchNewsForCategories] and read back as [(article as any).category],
    and [content], which the API sends and the spread copies. *)
Record NewsArticle : Type := {
  title : jsstring;
  description : jsstring;
  url : jsstring;
  publishedAt : jsstring;
  source_name : jsstring;
  content : jsstring;
  category : option jsstring
}.

(** The parsed body of a NewsAPI answer, as far as the code inspects it:
    [data.status] and [data.articles] (absent or a list). *)
Record NewsData : Type := {
  data_status : jsstring;
  data_articles : option (list NewsArticle)
}.

(** A [Response] whose parsed body has type [B]. *)
Record Response (B : Type) : Type := {
  resp_ok : bool;
  resp_status : N;
  resp_text : completion jsstring;
  resp_json : completion B
}.
Arguments resp_ok {B} _.
Arguments resp_status {B} _.
Arguments resp_text {B} _.
Arguments resp_json {B} _.

(** The options object handed to [ai.run]. *)
Record AiInput : Type := {
  messages : list (jsstring * jsstring);
  max_tokens : N;
  temperature_tenths : N
}.

(** The object serialised into the body of the Resend request. *)
Record EmailPayload : Type := {
  from : jsstring;
  to : list jsstring;
  subject : jsstring;
  html : jsstring;
  text : jsstring
}.

(** One element of the [summaries] array. *)
Record SummarizedItem : Type := {
  article : NewsArticle;
  summary : jsstring;
  item_category : jsstring
}.

(** A column value of the [users] table: the [TEXT] affinity of
    [categories] leaves text as text and stores a blob as a blob. *)
Inductive sqlvalue : Type :=
| SqlText (s : jsstring)
| SqlBlob (bytes : list N).

(** A row of [users] (schema.sql). *)
Record UserRow : Type := {
  id : N;
  email : jsstring;
  categories : sqlvalue;
  created_at : jsstring;
  active : bool
}.

(** The table: its rows in rowid order, and the id the next inserted
    row takes (one more than the AUTOINCREMENT counter). *)
Record Table : Type := {
  rows : list UserRow;
  next_id : N
}.

(** What [new Response(body, init)] holds. *)
Record HttpResponse : Type := {
  body : jsstring;
  status : N;
  content_type : option jsstring
}.

(** A [FormData] entry value. *)
Inductive FormDataEntryValue : Type :=
| FormString (s : jsstring)
| FormFile (filename : jsstring).

Definition FormData := list (jsstring * FormDataEntryValue).

Record Request : Type := {
  formData : completion FormData
}.

(* ================================================================== *)
(** * Observable events and the machine state *)
(* ================================================================== *)

Inductive level : Type := LOG | ERROR.

(** An argument of [console.log] or [console.error]. *)
Inductive logarg : Type :=
| AStr (s : jsstring)
| ANum (n : N)
| AErr (e : exn)
| AVal (v : jsvalue)
| ANews (d : NewsData).

Inductive event : Type :=
| Console (lvl : level) (args : list logarg)
| NewsRequest (request_url : jsstring)
| ResendRequest (authorization : jsstring) (payload : EmailPayload)
| AiRun (model : jsstring) (input : AiInput)
| D1Statement (sql : jsstring) (params : list jsstring).

Record State : Type := {
  tick : nat;
  trace : list event;
  table : Table
}.

(** The globals of the worker runtime.  Every answer may depend on the
    moment of the call, the [tick] of the state. *)
Record Runtime : Type := {
  Date_toDateString : nat -> jsstring;
  Date_toISOString : nat -> jsstring;
  CURRENT_TIMESTAMP : nat -> jsstring;
  fetch_newsapi : nat -> jsstring -> completion (Response NewsData);
  fetch_resend : nat -> jsstring -> EmailPayload -> completion (Response jsvalue)
}.

(** The D1 binding: its data is the [table] of the state; a statement
    fails when the binding reports a fault at that moment. *)
Record D1Database : Type := {
  d1_fault : nat -> option exn
}.

(** The Workers AI binding. *)
Record Ai : Type := {
  ai_run : nat -> jsstring -> AiInput -> completion jsvalue
}.

(** [interface Env]; [sendEmailWithResend] takes it as [any] and tests
    the key, so the key may be absent. *)
Record Env : Type := {
  DB : D1Database;
  AI : Ai;
  NEWS_API_KEY : jsstring;
  RESEND_API_KEY : option jsstring
}.

(* ================================================================== *)
(** * The monad of async functions *)
(* ================================================================== *)

Definition M (A : Type) : Type := State -> completion A * State.

Definition ret {A : Type} (a : A) : M A := fun s => (Normal a, s).

Definition throw {A : Type} (e : exn) : M A := fun s => (Throw e, s).

Definition bind {A B : Type} (m : M A) (k : A -> M B) : M B :=
  fun s =>
    match m s with
    | (Normal a, s') => k a s'
    | (Throw e, s') => (Throw e, s')
    end.

(** [try { m } catch (e) { h e }]: what [m] did before throwing stays. *)
Definition try_catch {A : Type} (m : M A) (h : exn -> M A) : M A :=
  fun s =>
    match m s with
    | (Normal a, s') => (Normal a, s')
    | (Throw e, s') => h e s'
    end.

Declare Scope js_scope.
Delimit Scope js_scope with js.
Notation "x <- m ;; k" := (bind m (fun x => k))
  (at level 61, m at next level, right associativity) : js_scope.
Notation "m ;; k" := (bind m (fun _ => k))
  (at level 61, right associativity) : js_scope.
Local Open Scope js_scope.

Definition lift {A : Type} (c : completion A) : M A :=
  match c with
  | Normal a => ret a
  | Throw e => throw e
  end.

(** Record an event. *)
Definition emit (e : event) : M unit :=
  fun s => (Normal tt,
            {| tick := tick s; trace := trace s ++ [e]; table := table s |}).

(** Consult the outside world: the answer is the one of this moment,
    and time moves on. *)
Definition ask {A : Type} (oracle : nat -> A) : M A :=
  fun s => (Normal (oracle (tick s)),
            {| tick := S (tick s); trace := trace s; table := table s |}).

Definition console_log (args : list logarg) : M unit := emit (Console LOG args).
Definition console_error (args : list logarg) : M unit := emit (Console ERROR args).

(** [for (const x of xs) body], threading the variables the body
    updates as an accumulator. *)
Fixpoint for_of {A B : Type} (xs : list A) (acc : B) (body : B -> A -> M B) : M B :=
  match xs with
  | [] => ret acc
  | x :: rest => acc' <- body acc x ;; for_of rest acc' body
  end.

(** [for (const x of xs) await body(x)]. *)
Fixpoint for_each {A : Type} (xs : list A) (body : A -> M unit) : M unit :=
  match xs with
  | [] => ret tt
  | x :: rest => body x ;; for_each rest body
  end.

(* ================================================================== *)
(** * Plain objects used as maps *)
(* ================================================================== *)

(** [byCategory] is an ordinary object: its own properties in creation
    order, on top of the properties every object inherits from
    [Object.prototype]. *)
Definition ownprops (V : Type) : Type := list (jsstring * V).

Definition Object_prototype_names : list jsstring :=
  [js "constructor"; js "__defineGetter__"; js "__defineSetter__";
   js "hasOwnProperty"; js "__lookupGetter__"; js "__lookupSetter__";
   js "isPrototypeOf"; js "propertyIsEnumerable"; js "toString";
   js "valueOf"; js "__proto__"; js "toLocaleString"].

Definition inherited (k : jsstring) : bool :=
  existsb (JS.eqb k) Object_prototype_names.

(** Result of the property read [o[k]]. *)
Inductive property (V : Type) : Type :=
| OwnValue (v : V)
| InheritedValue
| Undefined.
Arguments OwnValue {V} v.
Arguments InheritedValue {V}.
Arguments Undefined {V}.

Definition obj_get {V : Type} (o : ownprops V) (k : jsstring) : property V :=
  match assoc k o with
  | Some v => OwnValue v
  | None => if inherited k then InheritedValue else Undefined
  end.

(** Replace the value of the own property [k]. *)
Fixpoint obj_update {V : Type} (o : ownprops V) (k : jsstring) (v : V) : ownprops V :=
  match o with
  | [] => []
  | (k', v') :: rest =>
      if JS.eqb k k' then (k', v) :: rest else (k', v') :: obj_update rest k v
  end.

Definition digit_value (c : N) : option N :=
  if (48 <=? c) && (c <=? 57) then Some (c - 48) else None.

Fixpoint parse_digits (s : jsstring) (acc : N) : option N :=
  match s with
  | [] => Some acc
  | c :: rest =>
      match digit_value c with
      | Some d => parse_digits rest (10 * acc + d)
      | None => None
      end
  end.

(** An array index: the canonical decimal form of an integer below
    2^32 - 1.  Such keys are enumerated first, in numeric order. *)
Definition array_index (k : jsstring) : option N :=
  match k with
  | [] => None
  | _ :: _ =>
      match parse_digits k 0 with
      | Some n => if JS.eqb (of_N n) k && (n <? 4294967295) then Some n else None
      | None => None
      end
  end.

Fixpoint insert_index (n : N) (k : jsstring) (l : list (N * jsstring)) : list (N * jsstring) :=
  match l with
  | [] => [(n, k)]
  | (m, k') :: rest =>
      if n <? m then (n, k) :: l else (m, k') :: insert_index n k rest
  end.

Fixpoint index_keys (ks : list jsstring) : list (N * jsstring) :=
  match ks with
  | [] => []
  | k :: rest =>
      match array_index k with
      | Some n => insert_index n k (index_keys rest)
      | None => index_keys rest
      end
  end.

Definition is_name (k : jsstring) : bool :=
  match array_index k with Some _ => false | None => true end.

(** [Object.keys(o)]: array indices ascending, then the other keys in
    creation order. *)
Definition Object_keys {V : Type} (o : ownprops V) : list jsstring :=
  map snd (index_keys (map fst o)) ++ filter is_name (map fst o).

(** [o[k]] for an own key [k]. *)
Definition own_value {V : Type} (o : ownprops (list V)) (k : jsstring) : list V :=
  match assoc k o with
  | Some v => v
  | None => []
  end.

(* ================================================================== *)
(** * The worker *)
(* ================================================================== *)

(** The decorations that open the source's messages, unit for unit as
    the source file holds them. *)
Definition G_ROBOT : jsstring := js "ü§ñ".
Definition G_NEWS : jsstring := js "üì∞".
Definition G_RULE : jsstring := js "‚îÄ".
Definition G_HEART : jsstring := js "‚ù§Ô∏è".
Definition G_MAIL : jsstring := js "üìß".
Definition G_CROSS : jsstring := js "‚ùå".
Definition G_CHECK : jsstring := js "‚úÖ".
Definition G_CLOCK : jsstring := js "üïí".

Section Worker.

Variable rt : Runtime.

(** ** fetchNewsForCategories *)

(** [{ ...article, category: category }]. *)
Definition tag_category (c : jsstring) (a : NewsArticle) : NewsArticle :=
  {| title := title a; description := description a; url := url a;
     publishedAt := publishedAt a; source_name := source_name a;
     content := content a; category := Some c |}.

Definition news_url (c apiKey : jsstring) : jsstring :=
  js "https://newsapi.org/v2/top-headlines?category=" ++ c
  ++ js "&language=en&pageSize=5&apiKey=" ++ apiKey.

(** The body of the loop over [categories]; [allArticles] is the array
    pushed to. *)
Definition fetch_category (apiKey : jsstring)
    (allArticles : list NewsArticle) (c : jsstring) : M (list NewsArticle) :=
  try_catch
    (console_log [AStr (js "Fetching news for category: " ++ c)] ;;
     emit (NewsRequest (news_url c apiKey)) ;;
     answer <- ask (fun t => fetch_newsapi rt t (news_url c apiKey)) ;;
     response <- lift answer ;;
     if negb (resp_ok response) then
       errorText <- lift (resp_text response) ;;
       console_error [AStr (js "NewsAPI error for " ++ c ++ js ":");
                      ANum (resp_status response); AStr errorText] ;;
       ret allArticles
     else
       data <- lift (resp_json response) ;;
       match JS.eqb (data_status data) (js "ok"), data_articles data with
       | true, Some articles =>
           console_log [AStr (js "Found " ++ of_N (N.of_nat (List.length articles))
                              ++ js " articles for " ++ c)] ;;
           ret (allArticles ++ map (tag_category c) articles)
       | _, _ =>
           console_error [AStr (js "NewsAPI returned error for " ++ c ++ js ":");
                          ANews data] ;;
           ret allArticles
       end)
    (fun error =>
       console_error [AStr (js "Error fetching news for " ++ c ++ js ":");
                      AErr error] ;;
       ret allArticles).

Definition fetchNewsForCategories (cats : list jsstring) (apiKey : jsstring)
    : M (list NewsArticle) :=
  allArticles <- for_of cats [] (fetch_category apiKey) ;;
  console_log [AStr (js "Total articles fetched: "
                     ++ of_N (N.of_nat (List.length allArticles)))] ;;
  ret (firstn 10 allArticles).

(** ** createFallbackSummary *)

Definition createFallbackSummary (a : NewsArticle) : jsstring :=
  let d := or_else (description a) (title a) in
  if 200 <? strlen d then substring0 d 197 ++ js "..." else d.

(** ** summarizeArticleWithLlama *)

Definition LLAMA : jsstring := js "@cf/meta/llama-2-7b-chat-int8".

Definition summary_prompt (a : NewsArticle) : jsstring :=
  js "Please provide a concise summary of this news article in 2-3 sentences:"
  ++ NL ++ NL ++ js "Title: " ++ title a ++ NL
  ++ js "Description: " ++ description a ++ NL ++ NL ++ js "Summary:".

Definition summary_input (a : NewsArticle) : AiInput :=
  {| messages := [(js "user", summary_prompt a)];
     max_tokens := 150;
     temperature_tenths := 7 |}.

Definition summarizeArticleWithLlama (a : NewsArticle) (ai : Ai) : M jsstring :=
  try_catch
    (console_log [AStr (js "Summarizing: " ++ substring0 (title a) 50 ++ js "...")] ;;
     emit (AiRun LLAMA (summary_input a)) ;;
     answer <- ask (fun t => ai_run ai t LLAMA (summary_input a)) ;;
     response <- lift answer ;;
     if value_truthy response && value_truthy (get_prop response (js "response")) then
       summary <- lift (call_trim (get_prop response (js "response"))) ;;
       console_log [AStr (js "AI Summary generated (" ++ of_N (strlen summary)
                          ++ js " chars)")] ;;
       ret summary
     else
       console_log [AStr (js "AI response was empty, using fallback")] ;;
       ret (createFallbackSummary a))
    (fun error =>
       console_error [AStr (js "Error with AI summarization:"); AErr error] ;;
       ret (createFallbackSummary a)).

(** ** formatNewsletter *)

(** One step of [summaries.forEach]: create the array on first sight of
    the category, then push.  A category that names an inherited
    property is never created, and pushing to what is found throws. *)
Definition group_step (byCategory : ownprops (list SummarizedItem))
    (item : SummarizedItem) : completion (ownprops (list SummarizedItem)) :=
  let k := item_category item in
  let byCategory1 :=
    match obj_get byCategory k with
    | Undefined => byCategory ++ [(k, [])]
    | _ => byCategory
    end in
  match obj_get byCategory1 k with
  | OwnValue arr => Normal (obj_update byCategory1 k (arr ++ [item]))
  | _ => Throw (TypeError "byCategory[item.category].push is not a function")
  end.

Fixpoint group_from (byCategory : ownprops (list SummarizedItem))
    (summaries : list SummarizedItem)
    : completion (ownprops (list SummarizedItem)) :=
  match summaries with
  | [] => Normal byCategory
  | item :: rest =>
      match group_step byCategory item with
      | Normal byCategory' => group_from byCategory' rest
      | Throw e => Throw e
      end
  end.

Definition group_by_category (summaries : list SummarizedItem)
    : completion (ownprops (list SummarizedItem)) :=
  group_from [] summaries.

Definition render_item (index : nat) (item : SummarizedItem) : jsstring :=
  of_N (N.of_nat index + 1) ++ js ". **" ++ title (article item) ++ js "**" ++ NL
  ++ js "   " ++ summary item ++ NL
  ++ js "   Source: " ++ source_name (article item) ++ NL
  ++ js "   Read more: " ++ url (article item) ++ NL ++ NL.

Fixpoint render_items (index : nat) (items : list SummarizedItem) : jsstring :=
  match items with
  | [] => []
  | item :: rest => render_item index item ++ render_items (S index) rest
  end.

Definition render_category (c : jsstring) (items : list SummarizedItem) : jsstring :=
  G_NEWS ++ js " " ++ toUpperCase c ++ NL
  ++ repeat_str G_RULE 40 ++ NL ++ NL
  ++ render_items 0 items.

Definition newsletter_header (date : jsstring) : jsstring :=
  G_ROBOT ++ js " Your AI Newsletter - " ++ date ++ NL ++ NL
  ++ js "Hello! Here's your personalized news digest:" ++ NL ++ NL.

Definition newsletter_footer : jsstring :=
  NL ++ js "‚îÄ‚îÄ‚îÄ‚îÄ‚îÄ‚îÄ‚îÄ‚îÄ‚îÄ‚îÄ‚îÄ‚îÄ‚îÄ‚îÄ‚îÄ‚îÄ‚îÄ‚îÄ‚îÄ‚îÄ‚îÄ‚îÄ‚îÄ‚îÄ‚îÄ‚îÄ‚îÄ‚îÄ‚îÄ‚îÄ‚îÄ" ++ NL
  ++ js "Generated with " ++ G_HEART ++ js " by AI Newsletter" ++ NL
  ++ js "Powered by Cloudflare Workers & Resend" ++ NL.

Definition render_categories (byCategory : ownprops (list SummarizedItem)) : jsstring :=
  flat_map (fun c => render_category c (own_value byCategory c))
           (Object_keys byCategory).

Definition formatNewsletter (to_email : jsstring) (summaries : list SummarizedItem)
    : M jsstring :=
  date <- ask (Date_toDateString rt) ;;
  byCategory <- lift (group_by_category summaries) ;;
  ret (newsletter_header date ++ render_categories byCategory ++ newsletter_footer).

(** ** sendEmailWithResend *)

(** [content.replace(/\n/g, '<br>')]. *)
Definition replace_newlines (s : jsstring) : jsstring :=
  flat_map (fun c => if c =? 10 then js "<br>" else [c]) s.

Definition is_line_terminator (c : N) : bool :=
  (c =? 10) || (c =? 13) || (c =? 8232) || (c =? 8233).

(** The lazy group [(.*?)] followed by the closing pair of stars: the
    shortest prefix without a line terminator that two stars follow. *)
Fixpoint find_close (s : jsstring) : option (jsstring * jsstring) :=
  match s with
  | [] => None
  | c :: tl =>
      match (if c =? 42
             then match tl with
                  | c2 :: rest => if c2 =? 42 then Some rest else None
                  | [] => None
                  end
             else None) with
      | Some rest => Some ([], rest)
      | None =>
          if is_line_terminator c then None
          else match find_close tl with
               | Some (inner, rest) => Some (c :: inner, rest)
               | None => None
               end
      end
  end.

Fixpoint bold (fuel : nat) (s : jsstring) : jsstring :=
  match fuel, s with
  | O, _ => s
  | _, [] => []
  | S f, c :: tl =>
      match (if c =? 42
             then match tl with
                  | c2 :: rest => if c2 =? 42 then find_close rest else None
                  | [] => None
                  end
             else None) with
      | Some (inner, rest) => js "<strong>" ++ inner ++ js "</strong>" ++ bold f rest
      | None => c :: bold f tl
      end
  end.

(** [s.replace(/\*\*(.*?)\*\*/g, '<strong>$1</strong>')]. *)
Definition replace_bold (s : jsstring) : jsstring := bold (List.length s) s.

(** The [html] member of the payload: the page around the digest, whose
    line breaks and bold markers are turned into tags. *)
Definition email_html (subj body_text : jsstring) : jsstring :=
  js "<!DOCTYPE html>
<html>
<head>
    <meta charset="
  ++ DQ
  ++ js "UTF-8"
  ++ DQ
  ++ js ">
    <meta name="
  ++ DQ
  ++ js "viewport"
  ++ DQ
  ++ js " content="
  ++ DQ
  ++ js "width=device-width, initial-scale=1.0"
  ++ DQ
  ++ js ">
    <title>"
  ++ subj
  ++ js "</title>
</head>
<body style="
  ++ DQ
  ++ js "font-family: Arial, sans-serif; line-height: 1.6; color: #333; max-width: 600px; margin: 0 auto; padding: 20px;"
  ++ DQ
  ++ js ">
    <div style="
  ++ DQ
  ++ js "background: #f8f9fa; padding: 20px; border-radius: 8px; margin-bottom: 20px;"
  ++ DQ
  ++ js ">
        <h1 style="
  ++ DQ
  ++ js "color: #2c3e50; margin: 0;"
  ++ DQ
  ++ js ">ü§ñ AI Newsletter</h1>
        <p style="
  ++ DQ
  ++ js "color: #7f8c8d; margin: 5px 0 0 0;"
  ++ DQ
  ++ js ">Your daily AI-curated news digest</p>
    </div>
    
    <div style="
  ++ DQ
  ++ js "white-space: pre-line; background: white; padding: 20px; border-radius: 8px; border-left: 4px solid #3498db;"
  ++ DQ
  ++ js ">
        "
  ++ replace_bold (replace_newlines body_text)
  ++ js "
    </div>
    
    <div style="
  ++ DQ
  ++ js "margin-top: 30px; padding-top: 20px; border-top: 1px solid #eee; text-align: center; color: #7f8c8d; font-size: 12px;"
  ++ DQ
  ++ js ">
        <p>You received this because you subscribed to AI Newsletter</p>
        <p>Powered by Cloudflare Workers & Resend</p>
    </div>
</body>
</html>".

Definition DEFAULT_FROM_EMAIL : jsstring := js "newsletter@resend.dev".
Definition DEFAULT_FROM_NAME : jsstring := js "AI Newsletter".

(** [!env.RESEND_API_KEY] is false exactly for a non-empty key. *)
Definition usable_key (k : option jsstring) : option jsstring :=
  match k with
  | Some key => if truthy key then Some key else None
  | None => None
  end.

Definition sendEmailWithResend (to_email subj body_text : jsstring) (env : Env)
    (fromEmail fromName : jsstring) : M bool :=
  try_catch
    (console_log [AStr (G_MAIL ++ js " Sending email via Resend to: " ++ to_email)] ;;
     console_log [AStr (G_MAIL ++ js " Subject: " ++ subj)] ;;
     console_log [AStr (G_MAIL ++ js " From: " ++ fromName ++ js " <" ++ fromEmail ++ js ">")] ;;
     match usable_key (RESEND_API_KEY env) with
     | None =>
         console_log [AStr (G_CROSS ++ js " RESEND_API_KEY not found in environment")] ;;
         ret false
     | Some key =>
         let emailPayload :=
           {| from := fromName ++ js " <" ++ fromEmail ++ js ">";
              to := [to_email];
              subject := subj;
              html := email_html subj body_text;
              text := body_text |} in
         emit (ResendRequest (js "Bearer " ++ key) emailPayload) ;;
         answer <- ask (fun t => fetch_resend rt t (js "Bearer " ++ key) emailPayload) ;;
         resendResponse <- lift answer ;;
         if negb (resp_ok resendResponse) then
           errorText <- lift (resp_text resendResponse) ;;
           console_error [AStr (js "Resend API error:");
                          ANum (resp_status resendResponse); AStr errorText] ;;
           ret false
         else
           responseData <- lift (resp_json resendResponse) ;;
           console_log [AStr (js "Resend response:"); AVal responseData] ;;
           console_log [AStr (G_CHECK ++ js " Email sent successfully to " ++ to_email
                              ++ js " via Resend!")] ;;
           ret true
     end)
    (fun error =>
       console_error [AStr (js "Error sending email via Resend:"); AErr error] ;;
       ret false).

(** ** processUserNewsletter *)

(** [categories.split(',').map(c => c.trim())]: only a string has
    [split]. *)
Definition category_list (v : sqlvalue) : completion (list jsstring) :=
  match v with
  | SqlText s => Normal (map trim (split_on COMMA s))
  | SqlBlob _ => Throw (TypeError "categories.split is not a function")
  end.

(** [(article as any).category || 'general']. *)
Definition category_or_general (a : NewsArticle) : jsstring :=
  match category a with
  | Some c => or_else c (js "general")
  | None => js "general"
  end.

(** The body of the loop over [articles]; [summaries] is the array
    pushed to. *)
Definition summarize_into (ai : Ai) (summaries : list SummarizedItem)
    (a : NewsArticle) : M (list SummarizedItem) :=
  s <- summarizeArticleWithLlama a ai ;;
  ret (summaries ++ [{| article := a; summary := s;
                        item_category := category_or_general a |}]).

Definition processUserNewsletter (user : UserRow) (env : Env) : M unit :=
  try_catch
    (categoryList <- lift (category_list (categories user)) ;;
     console_log [AStr (js "Processing newsletter for " ++ email user
                        ++ js " with categories: " ++ join (js ", ") categoryList)] ;;
     articles <- fetchNewsForCategories categoryList (NEWS_API_KEY env) ;;
     match articles with
     | [] => console_log [AStr (js "No articles found for " ++ email user)]
     | _ :: _ =>
         summaries <- for_of articles [] (summarize_into (AI env)) ;;
         newsletter <- formatNewsletter (email user) summaries ;;
         date <- ask (Date_toDateString rt) ;;
         emailSent <- sendEmailWithResend (email user)
                        (G_ROBOT ++ js " Your AI Newsletter - " ++ date)
                        newsletter env DEFAULT_FROM_EMAIL DEFAULT_FROM_NAME ;;
         if emailSent
         then console_log [AStr (G_CHECK ++ js " Newsletter sent successfully to "
                                 ++ email user)]
         else console_log [AStr (G_CROSS ++ js " Failed to send newsletter to "
                                 ++ email user)]
     end)
    (fun error =>
       console_error [AStr (js "Error processing newsletter for user:"); AErr error]).

(** ** The D1 statements of the worker *)

Definition SELECT_ACTIVE : jsstring :=
  js "SELECT * FROM users WHERE active = 1".

Definition UPSERT : jsstring :=
  js "INSERT INTO users (email, categories) VALUES (?, ?) ON CONFLICT(email) DO UPDATE SET categories = ?, active = 1".

(** Send a statement to the database: it is recorded, and fails when
    the binding is at fault. *)
Definition d1_exec (db : D1Database) (sql : jsstring) (params : list jsstring) : M unit :=
  emit (D1Statement sql params) ;;
  fault <- ask (d1_fault db) ;;
  match fault with
  | Some e => throw e
  | None => ret tt
  end.

Definition read_table : M Table := fun s => (Normal (table s), s).

Definition write_table (t : Table) : M unit :=
  fun s => (Normal tt, {| tick := tick s; trace := trace s; table := t |}).

(** [WHERE active = 1]. *)
Definition select_active (t : Table) : list UserRow := filter active (rows t).

(** [ON CONFLICT(email) DO UPDATE SET categories = ?, active = 1]. *)
Fixpoint update_row (e c : jsstring) (rs : list UserRow) : option (list UserRow) :=
  match rs with
  | [] => None
  | r :: rest =>
      if JS.eqb (email r) e
      then Some ({| id := id r; email := email r; categories := SqlText c;
                    created_at := created_at r; active := true |} :: rest)
      else match update_row e c rest with
           | Some rest' => Some (r :: rest')
           | None => None
           end
  end.

(** The upsert of [handleSubscribe].  [id] is [INTEGER PRIMARY KEY
    AUTOINCREMENT]: the counter behind it advances with every insert
    that is attempted, also when the conflict on [email] turns the
    insert into an update of the existing row. *)
Definition upsert (e c now : jsstring) (t : Table) : Table :=
  match update_row e c (rows t) with
  | Some rs => {| rows := rs; next_id := next_id t + 1 |}
  | None =>
      {| rows := rows t ++ [{| id := next_id t; email := e; categories := SqlText c;
                               created_at := now; active := true |}];
         next_id := next_id t + 1 |}
  end.

(** [env.DB.prepare(SELECT_ACTIVE).all()], destructured to [results]. *)
Definition d1_all_active (db : D1Database) : M (list UserRow) :=
  d1_exec db SELECT_ACTIVE [] ;;
  t <- read_table ;;
  ret (select_active t).

(** [env.DB.prepare(UPSERT).bind(e, c, c).run()]. *)
Definition d1_run_upsert (db : D1Database) (e c : jsstring) : M unit :=
  d1_exec db UPSERT [e; c; c] ;;
  now <- ask (CURRENT_TIMESTAMP rt) ;;
  t <- read_table ;;
  write_table (upsert e c now t).

(** ** handleSubscribe *)

(** [formData.get(name)]. *)
Fixpoint form_get (name : jsstring) (fd : FormData) : option FormDataEntryValue :=
  match fd with
  | [] => None
  | (k, v) :: rest => if JS.eqb k name then Some v else form_get name rest
  end.

(** [formData.getAll(name)]. *)
Definition form_getAll (name : jsstring) (fd : FormData) : list FormDataEntryValue :=
  map snd (filter (fun kv => JS.eqb (fst kv) name) fd).

(** ToBoolean of [formData.get(name)]: [null] and the empty string are
    falsy, a file is an object. *)
Definition entry_truthy (v : option FormDataEntryValue) : bool :=
  match v with
  | None => false
  | Some (FormString s) => truthy s
  | Some (FormFile _) => true
  end.

(** ToString of an entry value. *)
Definition entry_string (v : FormDataEntryValue) : jsstring :=
  match v with
  | FormString s => s
  | FormFile _ => js "[object File]"
  end.

(** The page that confirms a subscription. *)
Definition subscription_page (who : jsstring) (cats : list jsstring) : jsstring :=
  js "
				<!DOCTYPE html>
				<html>
				<head>
					<title>Subscription Successful</title>
					<style>
						body { font-family: Arial, sans-serif; max-width: 600px; margin: 50px auto; padding: 20px; text-align: center; }
						.success { background: #d4edda; border: 1px solid #c3e6cb; color: #155724; padding: 15px; border-radius: 5px; margin: 20px 0; }
					</style>
				</head>
				<body>
					<h1>üéâ Subscription Successful!</h1>
					<div class="
  ++ DQ
  ++ js "success"
  ++ DQ
  ++ js ">
						<p>Thank you for subscribing to our AI Newsletter!</p>
						<p><strong>Email:</strong> "
  ++ who
  ++ js "</p>
						<p><strong>Categories:</strong> "
  ++ join (js ", ") cats
  ++ js "</p>
						<p>You'll receive your first newsletter at the next scheduled time.</p>
					</div>
					<a href="
  ++ DQ
  ++ js "/"
  ++ DQ
  ++ js " style="
  ++ DQ
  ++ js "color: #007bff; text-decoration: none;"
  ++ DQ
  ++ js ">‚Üê Subscribe Another Email</a>
				</body>
				</html>
			".

(** [new Response(b, { status: code })] for a string [b]: with no
    header given, the string body sets the content type. *)
Definition text_response (b : jsstring) (code : N) : HttpResponse :=
  {| body := b; status := code;
     content_type := Some (js "text/plain;charset=UTF-8") |}.

Definition handleSubscribe (request : Request) (env : Env) : M HttpResponse :=
  try_catch
    (fd <- lift (formData request) ;;
     let email_entry := form_get (js "email") fd in
     let selectedCategories := form_getAll (js "categories") fd in
     if negb (entry_truthy email_entry)
        || (List.length selectedCategories =? 0)%nat then
       ret (text_response (js "Email and at least one category are required") 400)
     else
       let categoriesString := join (js ",") (map entry_string selectedCategories) in
       try_catch
         (match email_entry with
          | Some (FormString e) => d1_run_upsert (DB env) e categoriesString
          | _ => throw (JsError "Error"
                   (js "D1_TYPE_ERROR: Type 'object' not supported for value '[object File]'"))
          end ;;
          let who := match email_entry with
                     | Some v => entry_string v
                     | None => js "null"
                     end in
          console_log [AStr (js "Subscription processed for " ++ who
                             ++ js " with categories: " ++ categoriesString)] ;;
          ret {| body := subscription_page who (map entry_string selectedCategories);
                 status := 200;
                 content_type := Some (js "text/html") |})
         (fun dbError =>
            console_error [AStr (js "Database error:"); AErr dbError] ;;
            ret (text_response (js "Database error occurred") 500)))
    (fun error =>
       console_error [AStr (js "Subscription error:"); AErr error] ;;
       ret (text_response (js "Subscription failed") 500)).

(** ** scheduled *)

Definition scheduled (env : Env) : M unit :=
  iso <- ask (Date_toISOString rt) ;;
  console_log [AStr (G_CLOCK ++ js " Cron job triggered at:"); AStr iso] ;;
  try_catch
    (results <- d1_all_active (DB env) ;;
     match results with
     | [] => console_log [AStr (js "No active subscribers found")]
     | _ :: _ =>
         console_log [AStr (js "Processing newsletters for "
                            ++ of_N (N.of_nat (List.length results))
                            ++ js " subscribers")] ;;
         for_each results (fun user => processUserNewsletter user env) ;;
         console_log [AStr (G_CHECK ++ js " Cron job completed successfully")]
     end)
    (fun error =>
       console_error [AStr (G_CROSS ++ js " Cron job failed:"); AErr error]).

End Worker.

(* ================================================================== *)
(** * Vocabulary of the properties *)
(* ================================================================== *)

(** The state an async function leaves behind. *)
Definition exec {A : Type} (m : M A) (s : State) : State := snd (m s).

(** The function completes normally from every state. *)
Definition total {A : Type} (m : M A) : Prop :=
  forall s, exists a s', m s = (Normal a, s').

(** The text the model path yields: the [response] property of the
    answer when it is a non-empty string. *)
Definition model_text (answer : completion jsvalue) : option jsstring :=
  match answer with
  | Normal v =>
      match get_prop v (js "response") with
      | JStr s => if truthy s then Some s else None
      | _ => None
      end
  | Throw _ => None
  end.

(** [s.startsWith(p)]. *)
Fixpoint starts_with (p s : jsstring) : bool :=
  match p, s with
  | [], _ => true
  | c :: p', d :: s' => (c =? d) && starts_with p' s'
  | _ :: _, [] => false
  end.

(** What the source returns for a topic at a given moment: the
    [articles] of a successful answer whose status is [ok], nothing
    otherwise. *)
Definition returned (rt : Runtime) (apiKey : jsstring) (t : nat) (c : jsstring)
    : list NewsArticle :=
  match fetch_newsapi rt t (news_url c apiKey) with
  | Normal r =>
      if resp_ok r then
        match resp_json r with
        | Normal d =>
            if JS.eqb (data_status d) (js "ok") then
              match data_articles d with
              | Some l => l
              | None => []
              end
            else []
        | Throw _ => []
        end
      else []
  | Throw _ => []
  end.

(** All of it, topic by topic, one request per moment. *)
Fixpoint collected (rt : Runtime) (apiKey : jsstring) (t : nat) (cats : list jsstring)
    : list NewsArticle :=
  match cats with
  | [] => []
  | c :: rest =>
      map (tag_category c) (returned rt apiKey t c) ++ collected rt apiKey (S t) rest
  end.

(** The payload [sendEmailWithResend] builds for an address. *)
Definition email_payload (to_email subj body_text fromEmail fromName : jsstring)
    : EmailPayload :=
  {| from := fromName ++ js " <" ++ fromEmail ++ js ">";
     to := [to_email];
     subject := subj;
     html := email_html subj body_text;
     text := body_text |}.

(** The three lines logged before anything else. *)
Definition send_banner (to_email subj fromEmail fromName : jsstring) : list event :=
  [Console LOG [AStr (G_MAIL ++ js " Sending email via Resend to: " ++ to_email)];
   Console LOG [AStr (G_MAIL ++ js " Subject: " ++ subj)];
   Console LOG [AStr (G_MAIL ++ js " From: " ++ fromName ++ js " <" ++ fromEmail
                      ++ js ">")]].

(** A request to the delivery backend. *)
Definition is_resend_request (e : event) : bool :=
  match e with
  | ResendRequest _ _ => true
  | _ => false
  end.

(** Note a topic unless it was seen before. *)
Definition see (seen : list jsstring) (c : jsstring) : list jsstring :=
  if existsb (JS.eqb c) seen then seen else seen ++ [c].

(** The topics of a sequence, each once, in the order of first sight. *)
Definition first_seen (cs : list jsstring) : list jsstring := fold_left see cs [].

(** The items of one topic, in arrival order. *)
Definition items_of (c : jsstring) (items : list SummarizedItem) : list SummarizedItem :=
  filter (fun i => JS.eqb (item_category i) c) items.

(** The grouping the specification describes. *)
Definition sections (items : list SummarizedItem) : ownprops (list SummarizedItem) :=
  map (fun c => (c, items_of c items)) (first_seen (map item_category items)).

(** A topic that is neither an array index nor the name of a property
    inherited from [Object.prototype]. *)
Definition plain_topic (c : jsstring) : Prop :=
  array_index c = None /\ inherited c = false.

(** Every subscriber of the list processed in turn, each from the state
    the one before left. *)
Definition process_all (rt : Runtime) (env : Env) (us : list UserRow) (s : State)
    : State :=
  fold_left (fun s' u => exec (processUserNewsletter rt u env) s') us s.

(** The first line of a run. *)
Definition trigger_line (rt : Runtime) (st : State) : event :=
  Console LOG [AStr (G_CLOCK ++ js " Cron job triggered at:");
               AStr (Date_toISOString rt (tick st))].

(** The state once the trigger is logged and the query sent. *)
Definition queried (rt : Runtime) (st : State) : State :=
  {| tick := S (S (tick st));
     trace := trace st ++ [trigger_line rt st; D1Statement SELECT_ACTIVE []];
     table := table st |}.

(** The state after one more line on the console. *)
Definition say (line : jsstring) (s : State) : State :=
  exec (console_log [AStr line]) s.

(** The line that opens the loop over [n] subscribers. *)
Definition announce (n : nat) : jsstring :=
  js "Processing newsletters for " ++ of_N (N.of_nat n) ++ js " subscribers".

(** The recipients of the requests made to the delivery backend. *)
Definition deliveries (tr : list event) : list (list jsstring) :=
  flat_map (fun e => match e with
                     | ResendRequest _ p => [to p]
                     | _ => []
                     end) tr.

(** The same moment and trace over another table. *)
Definition with_table (t : Table) (s : State) : State :=
  {| tick := tick s; trace := trace s; table := t |}.

(** An async function that neither reads nor writes the table. *)
Definition table_blind {A : Type} (m : M A) : Prop :=
  forall (s : State) (t : Table),
    m (with_table t s) = (fst (m s), with_table t (snd (m s))).

(** An async function all of whose events satisfy [P]. *)
Definition emits {A : Type} (P : event -> Prop) (m : M A) : Prop :=
  forall s : State,
    exists evs, trace (snd (m s)) = trace s ++ evs /\ Forall P evs.

(** A request to the delivery backend is addressed to [x] alone; other
    events are unconstrained. *)
Definition addressed_to (x : jsstring) (e : event) : Prop :=
  match e with
  | ResendRequest _ p => to p = [x]
  | _ => True
  end.

(** Not a request to the delivery backend. *)
Definition no_delivery (e : event) : Prop := is_resend_request e = false.

(** A request to the delivery backend is addressed to one of [us]. *)
Definition addressed_within (us : list UserRow) (e : event) : Prop :=
  match e with
  | ResendRequest _ p => exists u, In u us /\ to p = [email u]
  | _ => True
  end.

(* ================================================================== *)
(** * Sample data *)
(* ================================================================== *)

(** A fresh worker: nothing logged, an empty table. *)
Definition initial_state : State :=
  {| tick := 0; trace := []; table := {| rows := []; next_id := 1 |} |}.

(** A model that answers with blanks only. *)
Definition blank_ai : Ai :=
  {| ai_run := fun _ _ _ => Normal (JObj [(js "response", JStr (js "   "))]) |}.

(** A model whose call throws. *)
Definition failing_ai : Ai :=
  {| ai_run := fun _ _ _ => Throw (JsError "Error" (js "model unavailable")) |}.

(** An article as NewsAPI sends it for a withdrawn story. *)
Definition removed_article : NewsArticle :=
  {| title := js "Quake hits the coast";
     description := js "[Removed]";
     url := js "https://removed.com";
     publishedAt := js "2025-09-28T10:00:00Z";
     source_name := js "Reuters";
     content := js "[Removed]";
     category := None |}.

(** A withdrawn article whose description is empty and whose body is
    the sentinel. *)
Definition withdrawn : NewsArticle :=
  {| title := js "[Removed]";
     description := [];
     url := js "https://removed.com";
     publishedAt := js "2025-09-28T10:00:00Z";
     source_name := js "[Removed]";
     content := js "[Removed]";
     category := None |}.

(** A successful NewsAPI answer carrying [l]. *)
Definition ok_news (l : list NewsArticle) : completion (Response NewsData) :=
  Normal {| resp_ok := true; resp_status := 200; resp_text := Normal [];
            resp_json := Normal {| data_status := js "ok";
                                   data_articles := Some l |} |}.

(** The delivery backend accepts the message. *)
Definition accepted : completion (Response jsvalue) :=
  Normal {| resp_ok := true; resp_status := 200; resp_text := Normal [];
            resp_json := Normal (JObj [(js "id", JStr (js "49a3999c"))]) |}.

(** A source that answers every topic with the withdrawn article. *)
Definition withdrawn_runtime : Runtime :=
  {| Date_toDateString := fun _ => js "Sun Sep 28 2025";
     Date_toISOString := fun _ => js "2025-09-28T13:00:00.000Z";
     CURRENT_TIMESTAMP := fun _ => js "2025-09-28 13:00:00";
     fetch_newsapi := fun _ _ => ok_news [withdrawn];
     fetch_resend := fun _ _ _ => accepted |}.

(** An article with title [t] and description [d]. *)
Definition sample_article (t d : jsstring) : NewsArticle :=
  {| title := t;
     description := d;
     url := js "https://example.com/story";
     publishedAt := js "2025-09-28T10:00:00Z";
     source_name := js "Tech News Daily";
     content := d;
     category := None |}.

(** A summarized item of topic [c]. *)
Definition item_in (c : jsstring) (t s : jsstring) : SummarizedItem :=
  {| article := sample_article t s; summary := s; item_category := c |}.

(** Two technology items and one filed under a number. *)
Definition tech_item_1 : SummarizedItem :=
  item_in (js "technology") (js "AI Technology Breakthrough in 2025")
          (js "Researchers announce a new transformer architecture.").

Definition tech_item_2 : SummarizedItem :=
  item_in (js "technology") (js "Chips get smaller")
          (js "A foundry starts two nanometre production.").

Definition numbered_item : SummarizedItem :=
  item_in (js "1") (js "Front page") (js "The story of the day.").

(** A runtime in which the day changes between the first call and the
    second. *)
Definition midnight_runtime : Runtime :=
  {| Date_toDateString :=
       fun t => match t with
                | O => js "Sat Sep 27 2025"
                | S _ => js "Sun Sep 28 2025"
                end;
     Date_toISOString := fun _ => js "2025-09-27T23:59:59.999Z";
     CURRENT_TIMESTAMP := fun _ => js "2025-09-27 23:59:59";
     fetch_newsapi := fun _ _ => ok_news [];
     fetch_resend := fun _ _ _ => accepted |}.

(** A row of the table. *)
Definition subscriber (n : N) (e : jsstring) (c : sqlvalue) (a : bool) : UserRow :=
  {| id := n; email := e; categories := c;
     created_at := js "2025-09-27 12:00:00"; active := a |}.

(** Three active subscribers and an inactive one.  The topics of the
    first are stored as a blob; the delivery backend rejects the
    second. *)
Definition ann : UserRow := subscriber 1 (js "ann@example.com") (SqlBlob [0]) true.
Definition bob : UserRow :=
  subscriber 2 (js "bob@example.com") (SqlText (js "technology")) true.
Definition dan : UserRow :=
  subscriber 3 (js "dan@example.com") (SqlText (js "sports")) false.
Definition eve : UserRow :=
  subscriber 4 (js "eve@example.com") (SqlText (js "science, health")) true.

Definition store : State :=
  {| tick := 0; trace := [];
     table := {| rows := [ann; bob; dan; eve]; next_id := 5 |} |}.

(** The delivery backend refuses the message. *)
Definition rejected : completion (Response jsvalue) :=
  Normal {| resp_ok := false; resp_status := 403;
            resp_text := Normal (js "You can only send testing emails to your own email address");
            resp_json := Throw (JsError "SyntaxError" (js "Unexpected token")) |}.

(** One article per topic; deliveries to the second subscriber are
    refused. *)
Definition picky_runtime : Runtime :=
  {| Date_toDateString := fun _ => js "Sun Sep 28 2025";
     Date_toISOString := fun _ => js "2025-09-28T13:00:00.000Z";
     CURRENT_TIMESTAMP := fun _ => js "2025-09-28 13:00:00";
     fetch_newsapi := fun _ _ =>
       ok_news [sample_article (js "Chips get smaller")
                               (js "A foundry starts two nanometre production.")];
     fetch_resend := fun _ _ p =>
       if JS.eqb (hd [] (to p)) (js "bob@example.com") then rejected else accepted |}.

(** A database that answers, and one that does not. *)
Definition healthy_db : D1Database := {| d1_fault := fun _ => None |}.

Definition broken_db : D1Database :=
  {| d1_fault := fun _ => Some (JsError "Error" (js "D1_ERROR: no such table: users")) |}.

(** The bindings of the worker over a database; the model is down. *)
Definition worker_env (db : D1Database) : Env :=
  {| DB := db; AI := failing_ai;
     NEWS_API_KEY := js "news-key"; RESEND_API_KEY := Some (js "re_key") |}.

(** The scenario of the specification: one subscriber of technology,
    a source with two technology articles, a model that answers. *)
Definition first_story : NewsArticle :=
  sample_article (js "AI Technology Breakthrough in 2025")
                 (js "Researchers announce a new transformer architecture.").

Definition second_story : NewsArticle :=
  sample_article (js "Chips get smaller")
                 (js "A foundry starts two nanometre production.").

Definition two_story_runtime : Runtime :=
  {| Date_toDateString := fun _ => js "Sun Sep 28 2025";
     Date_toISOString := fun _ => js "2025-09-28T13:00:00.000Z";
     CURRENT_TIMESTAMP := fun _ => js "2025-09-28 13:00:00";
     fetch_newsapi := fun _ _ => ok_news [first_story; second_story];
     fetch_resend := fun _ _ _ => accepted |}.

Definition answering_ai : Ai :=
  {| ai_run := fun _ _ _ =>
       Normal (JObj [(js "response", JStr (js " A short summary. "))]) |}.

Definition scenario_env : Env :=
  {| DB := healthy_db; AI := answering_ai;
     NEWS_API_KEY := js "news-key"; RESEND_API_KEY := Some (js "re_key") |}.

Definition reader : UserRow :=
  subscriber 1 (js "a@x.com") (SqlText (js "technology")) true.

(** The calls made to the model, and the texts handed to the delivery
    backend. *)
Definition model_calls (tr : list event) : nat :=
  List.length (filter (fun e => match e with AiRun _ _ => true | _ => false end) tr).

Definition delivered_texts (tr : list event) : list jsstring :=
  flat_map (fun e => match e with
                     | ResendRequest _ p => [text p]
                     | _ => []
                     end) tr.

(** A form with an address and no topic ticked. *)
Definition form_without_topics : Request :=
  {| formData := Normal [(js "email", FormString (js "fay@example.com"))] |}.

(** A form with a topic and an empty address. *)
Definition form_without_email : Request :=
  {| formData := Normal [(js "email", FormString []);
                         (js "categories", FormString (js "technology"))] |}.

(** A request whose body is not a form (a JSON body, say):
    [request.formData()] rejects. *)
Definition unreadable : exn :=
  TypeError "Unrecognized Content-Type header value. FormData can only parse the following MIME types: multipart/form-data, application/x-www-form-urlencoded.".

Definition request_without_form : Request := {| formData := Throw unreadable |}.

(** A complete form. *)
Definition complete_form : Request :=
  {| formData := Normal [(js "email", FormString (js "fay@example.com"));
                         (js "categories", FormString (js "technology"));
                         (js "categories", FormString (js "science"))] |}.

(* ================================================================== *)
(** * The HTTP side of the worker *)
(* ================================================================== *)

(** [HTML_CONTENT], the subscription page. *)
Definition HTML_CONTENT : jsstring :=
  js "<!DOCTYPE html>
<html lang=" ++ DQ
  ++ js "en" ++ DQ
  ++ js ">
<head>
    <meta charset=" ++ DQ
  ++ js "UTF-8" ++ DQ
  ++ js ">
    <meta name=" ++ DQ
  ++ js "viewport" ++ DQ
  ++ js " content=" ++ DQ
  ++ js "width=device-width, initial-scale=1.0" ++ DQ
  ++ js ">
    <title>AI Newsletter Subscription</title>
    <style>
        * { margin: 0; padding: 0; box-sizing: border-box; }
        body { 
            font-family: 'Segoe UI', Tahoma, Geneva, Verdana, sans-serif;
            background: linear-gradient(135deg, #667eea 0%, #764ba2 100%);
            min-height: 100vh;
            display: flex;
            align-items: center;
            justify-content: center;
            padding: 20px;
        }
        .container {
            background: white;
            padding: 40px;
            border-radius: 15px;
            box-shadow: 0 15px 35px rgba(0, 0, 0, 0.1);
            max-width: 500px;
            width: 100%;
        }
        .header {
            text-align: center;
            margin-bottom: 30px;
        }
        .header h1 {
            color: #333;
            font-size: 28px;
            margin-bottom: 10px;
        }
        .header p {
            color: #666;
            font-size: 16px;
        }
        .form-group {
            margin-bottom: 25px;
        }
        label {
            display: block;
            margin-bottom: 8px;
            color: #333;
            font-weight: 600;
        }
        input[type=" ++ DQ
  ++ js "email" ++ DQ
  ++ js "] {
            width: 100%;
            padding: 12px;
            border: 2px solid #e1e5e9;
            border-radius: 8px;
            font-size: 16px;
            transition: border-color 0.3s;
        }
        input[type=" ++ DQ
  ++ js "email" ++ DQ
  ++ js "]:focus {
            outline: none;
            border-color: #667eea;
        }
        .categories {
            display: grid;
            grid-template-columns: repeat(auto-fit, minmax(200px, 1fr));
            gap: 10px;
        }
        .category-item {
            display: flex;
            align-items: center;
            padding: 10px;
            border: 2px solid #e1e5e9;
            border-radius: 8px;
            cursor: pointer;
            transition: all 0.3s;
        }
        .category-item:hover {
            border-color: #667eea;
            background-color: #f8f9ff;
        }
        .category-item input[type=" ++ DQ
  ++ js "checkbox" ++ DQ
  ++ js "] {
            margin-right: 10px;
            width: 18px;
            height: 18px;
            accent-color: #667eea;
        }
        .category-item input[type=" ++ DQ
  ++ js "checkbox" ++ DQ
  ++ js "]:checked + .category-label {
            color: #667eea;
            font-weight: 600;
        }
        .category-item:has(input:checked) {
            border-color: #667eea;
            background-color: #f8f9ff;
        }
        .submit-btn {
            width: 100%;
            padding: 15px;
            background: linear-gradient(135deg, #667eea 0%, #764ba2 100%);
            color: white;
            border: none;
            border-radius: 8px;
            font-size: 16px;
            font-weight: 600;
            cursor: pointer;
            transition: transform 0.2s;
        }
        .submit-btn:hover {
            transform: translateY(-2px);
        }
        .submit-btn:active {
            transform: translateY(0);
        }
        .footer {
            text-align: center;
            margin-top: 30px;
            color: #666;
            font-size: 14px;
        }
    </style>
</head>
<body>
    <div class=" ++ DQ
  ++ js "container" ++ DQ
  ++ js ">
        <div class=" ++ DQ
  ++ js "header" ++ DQ
  ++ js ">
            <h1>ü§ñ AI Newsletter</h1>
            <p>Get AI-curated news delivered to your inbox</p>
        </div>

        <form action=" ++ DQ
  ++ js "/api/subscribe" ++ DQ
  ++ js " method=" ++ DQ
  ++ js "POST" ++ DQ
  ++ js ">
            <div class=" ++ DQ
  ++ js "form-group" ++ DQ
  ++ js ">
                <label for=" ++ DQ
  ++ js "email" ++ DQ
  ++ js ">Email Address</label>
                <input type=" ++ DQ
  ++ js "email" ++ DQ
  ++ js " id=" ++ DQ
  ++ js "email" ++ DQ
  ++ js " name=" ++ DQ
  ++ js "email" ++ DQ
  ++ js " required placeholder=" ++ DQ
  ++ js "your.email@example.com" ++ DQ
  ++ js ">
            </div>

            <div class=" ++ DQ
  ++ js "form-group" ++ DQ
  ++ js ">
                <label>Select News Categories</label>
                <div class=" ++ DQ
  ++ js "categories" ++ DQ
  ++ js ">
                    <div class=" ++ DQ
  ++ js "category-item" ++ DQ
  ++ js ">
                        <input type=" ++ DQ
  ++ js "checkbox" ++ DQ
  ++ js " id=" ++ DQ
  ++ js "technology" ++ DQ
  ++ js " name=" ++ DQ
  ++ js "categories" ++ DQ
  ++ js " value=" ++ DQ
  ++ js "technology" ++ DQ
  ++ js ">
                        <label for=" ++ DQ
  ++ js "technology" ++ DQ
  ++ js " class=" ++ DQ
  ++ js "category-label" ++ DQ
  ++ js ">üì± Technology</label>
                    </div>
                    <div class=" ++ DQ
  ++ js "category-item" ++ DQ
  ++ js ">
                        <input type=" ++ DQ
  ++ js "checkbox" ++ DQ
  ++ js " id=" ++ DQ
  ++ js "business" ++ DQ
  ++ js " name=" ++ DQ
  ++ js "categories" ++ DQ
  ++ js " value=" ++ DQ
  ++ js "business" ++ DQ
  ++ js ">
                        <label for=" ++ DQ
  ++ js "business" ++ DQ
  ++ js " class=" ++ DQ
  ++ js "category-label" ++ DQ
  ++ js ">üíº Business</label>
                    </div>
                    <div class=" ++ DQ
  ++ js "category-item" ++ DQ
  ++ js ">
                        <input type=" ++ DQ
  ++ js "checkbox" ++ DQ
  ++ js " id=" ++ DQ
  ++ js "science" ++ DQ
  ++ js " name=" ++ DQ
  ++ js "categories" ++ DQ
  ++ js " value=" ++ DQ
  ++ js "science" ++ DQ
  ++ js ">
                        <label for=" ++ DQ
  ++ js "science" ++ DQ
  ++ js " class=" ++ DQ
  ++ js "category-label" ++ DQ
  ++ js ">üß™ Science</label>
                    </div>
                    <div class=" ++ DQ
  ++ js "category-item" ++ DQ
  ++ js ">
                        <input type=" ++ DQ
  ++ js "checkbox" ++ DQ
  ++ js " id=" ++ DQ
  ++ js "health" ++ DQ
  ++ js " name=" ++ DQ
  ++ js "categories" ++ DQ
  ++ js " value=" ++ DQ
  ++ js "health" ++ DQ
  ++ js ">
                        <label for=" ++ DQ
  ++ js "health" ++ DQ
  ++ js " class=" ++ DQ
  ++ js "category-label" ++ DQ
  ++ js ">üè• Health</label>
                    </div>
                    <div class=" ++ DQ
  ++ js "category-item" ++ DQ
  ++ js ">
                        <input type=" ++ DQ
  ++ js "checkbox" ++ DQ
  ++ js " id=" ++ DQ
  ++ js "sports" ++ DQ
  ++ js " name=" ++ DQ
  ++ js "categories" ++ DQ
  ++ js " value=" ++ DQ
  ++ js "sports" ++ DQ
  ++ js ">
                        <label for=" ++ DQ
  ++ js "sports" ++ DQ
  ++ js " class=" ++ DQ
  ++ js "category-label" ++ DQ
  ++ js ">‚öΩ Sports</label>
                    </div>
                    <div class=" ++ DQ
  ++ js "category-item" ++ DQ
  ++ js ">
                        <input type=" ++ DQ
  ++ js "checkbox" ++ DQ
  ++ js " id=" ++ DQ
  ++ js "entertainment" ++ DQ
  ++ js " name=" ++ DQ
  ++ js "categories" ++ DQ
  ++ js " value=" ++ DQ
  ++ js "entertainment" ++ DQ
  ++ js ">
                        <label for=" ++ DQ
  ++ js "entertainment" ++ DQ
  ++ js " class=" ++ DQ
  ++ js "category-label" ++ DQ
  ++ js ">üé¨ Entertainment</label>
                    </div>
                    <div class=" ++ DQ
  ++ js "category-item" ++ DQ
  ++ js ">
                        <input type=" ++ DQ
  ++ js "checkbox" ++ DQ
  ++ js " id=" ++ DQ
  ++ js "general" ++ DQ
  ++ js " name=" ++ DQ
  ++ js "categories" ++ DQ
  ++ js " value=" ++ DQ
  ++ js "general" ++ DQ
  ++ js ">
                        <label for=" ++ DQ
  ++ js "general" ++ DQ
  ++ js " class=" ++ DQ
  ++ js "category-label" ++ DQ
  ++ js ">üì∞ General News</label>
                    </div>
                </div>
            </div>

            <button type=" ++ DQ
  ++ js "submit" ++ DQ
  ++ js " class=" ++ DQ
  ++ js "submit-btn" ++ DQ
  ++ js ">Subscribe to Newsletter</button>
        </form>

        <div class=" ++ DQ
  ++ js "footer" ++ DQ
  ++ js ">
            <p>Powered by Cloudflare Workers & AI</p>
        </div>
    </div>
</body>
</html>".

(** The request as the router reads it: its method, the path of its
    URL, and the body [handleSubscribe] parses. *)
Record Incoming : Type := {
  method : jsstring;
  pathname : jsstring;
  payload : Request
}.

(** [s.startsWith(p)] and [a === b] on strings, as the router uses
    them. *)
Definition is_api_route (path : jsstring) : bool := starts_with (js "/api/") path.

Definition is_subscribe_call (request : Incoming) : bool :=
  JS.eqb (pathname request) (js "/api/subscribe") && JS.eqb (method request) (js "POST").

(** The [fetch] handler of the default export. *)
Definition fetch (rt : Runtime) (request : Incoming) (env : Env) : M HttpResponse :=
  console_log [AStr (js "[FETCH] " ++ method request ++ js " " ++ pathname request)] ;;
  if is_api_route (pathname request) then
    console_log [AStr (js "[FETCH] Handling API route")] ;;
    if is_subscribe_call request then
      console_log [AStr (js "[FETCH] Processing subscription")] ;;
      handleSubscribe rt (payload request) env
    else
      ret (text_response (js "API Route Not Found") 404)
  else if JS.eqb (pathname request) (js "/") then
    console_log [AStr (js "[FETCH] Serving HTML content")] ;;
    ret {| body := HTML_CONTENT; status := 200;
           content_type := Some (js "text/html") |}
  else
    console_log [AStr (js "[FETCH] Returning 404")] ;;
    ret (text_response (js "Not Found") 404).

(* ================================================================== *)
(** * Further vocabulary *)
(* ================================================================== *)

(** The URLs requested from the news source. *)
Definition news_requests (tr : list event) : list jsstring :=
  flat_map (fun e => match e with
                     | NewsRequest u => [u]
                     | _ => []
                     end) tr.

(** Only console lines and requests to the news source. *)
Definition news_or_console (e : event) : Prop :=
  match e with
  | Console _ _ | NewsRequest _ => True
  | _ => False
  end.

(** A source that answers every topic with five articles. *)
Definition five_stories : list NewsArticle :=
  [sample_article (js "One") (js "First."); sample_article (js "Two") (js "Second.");
   sample_article (js "Three") (js "Third."); sample_article (js "Four") (js "Fourth.");
   sample_article (js "Five") (js "Fifth.")].

Definition full_page_runtime : Runtime :=
  {| Date_toDateString := fun _ => js "Sun Sep 28 2025";
     Date_toISOString := fun _ => js "2025-09-28T13:00:00.000Z";
     CURRENT_TIMESTAMP := fun _ => js "2025-09-28 13:00:00";
     fetch_newsapi := fun _ _ => ok_news five_stories;
     fetch_resend := fun _ _ _ => accepted |}.

(** Text without a star, and text on one line. *)
Definition star_free (s : jsstring) : bool := forallb (fun c => negb (c =? 42)) s.

Definition single_line (s : jsstring) : bool :=
  forallb (fun c => negb (is_line_terminator c)) s.

(** What the pattern finds at the head of a text. *)
Definition opening (c : N) (tl : jsstring) : option (jsstring * jsstring) :=
  if c =? 42
  then match tl with
       | c2 :: rest => if c2 =? 42 then find_close rest else None
       | [] => None
       end
  else None.

(** The HTML expected for one numbered item of the digest, and for the
    items of a section. *)
Definition html_item (index : nat) (item : SummarizedItem) : jsstring :=
  of_N (N.of_nat index + 1) ++ js ". <strong>" ++ title (article item)
  ++ js "</strong><br>   " ++ replace_newlines (summary item)
  ++ js "<br>   Source: " ++ replace_newlines (source_name (article item))
  ++ js "<br>   Read more: " ++ replace_newlines (url (article item))
  ++ js "<br><br>".

Fixpoint html_items (index : nat) (items : list SummarizedItem) : jsstring :=
  match items with
  | [] => []
  | item :: rest => html_item index item ++ html_items (S index) rest
  end.

(** An item whose fields carry no star and whose title is on one line. *)
Definition tidy_item (item : SummarizedItem) : bool :=
  star_free (title (article item)) && single_line (title (article item))
  && star_free (summary item) && star_free (source_name (article item))
  && star_free (url (article item)).

(** The heading [formatNewsletter] writes over the items of a topic. *)
Definition category_heading (c : jsstring) : jsstring :=
  G_NEWS ++ js " " ++ toUpperCase c ++ NL ++ repeat_str G_RULE 40 ++ NL ++ NL.

(** The HTML expected for a whole digest whose sections are [keys]:
    header, headings and footer with their line breaks as [br], and
    the items of every section as [html_items]. *)
Definition html_digest (date : jsstring) (keys : list jsstring)
    (items : list SummarizedItem) : jsstring :=
  replace_newlines (newsletter_header date)
  ++ flat_map (fun c => replace_newlines (category_heading c)
                        ++ html_items 0 (items_of c items)) keys
  ++ replace_newlines newsletter_footer.

(** An item filed under a topic that ends in two stars. *)
Definition starred_item : SummarizedItem :=
  item_in (js "ai**") (js "Chips get smaller")
          (js "A foundry starts two nanometre production.").

(** Counting the events of one kind. *)
Definition count (p : event -> bool) (evs : list event) : nat :=
  List.length (filter p evs).

Definition is_model_call (e : event) : bool :=
  match e with AiRun _ _ => true | _ => false end.

Definition is_news_request (e : event) : bool :=
  match e with NewsRequest _ => true | _ => false end.

Definition is_statement (e : event) : bool :=
  match e with D1Statement _ _ => true | _ => false end.

(** An async function that adds at most [n] events of kind [p]. *)
Definition at_most {A : Type} (p : event -> bool) (n : nat) (m : M A) : Prop :=
  forall s : State,
    exists evs, trace (snd (m s)) = trace s ++ evs /\ (count p evs <= n)%nat.

(** The state after the error of a failed run is logged. *)
Definition run_failed (rt : Runtime) (st : State) (e : exn) : State :=
  exec (console_error [AStr (G_CROSS ++ js " Cron job failed:"); AErr e])
       (queried rt st).

(** A source with nothing to report. *)
Definition silent_runtime : Runtime :=
  {| Date_toDateString := fun _ => js "Sun Sep 28 2025";
     Date_toISOString := fun _ => js "2025-09-28T13:00:00.000Z";
     CURRENT_TIMESTAMP := fun _ => js "2025-09-28 13:00:00";
     fetch_newsapi := fun _ _ => ok_news [];
     fetch_resend := fun _ _ _ => accepted |}.

(** A form that passes the check of [handleSubscribe]: a non-empty
    email string [e] and the entries [cats], at least one. *)
Definition valid_form (fd : FormData) (e : jsstring) (cats : list FormDataEntryValue)
    : Prop :=
  form_get (js "email") fd = Some (FormString e)
  /\ truthy e = true
  /\ form_getAll (js "categories") fd = cats
  /\ cats <> [].

(** The column value stored for the entries. *)
Definition stored_categories (cats : list FormDataEntryValue) : jsstring :=
  join (js ",") (map entry_string cats).

(** The row a subscription turns [r] into. *)
Definition resubscribed (r : UserRow) (c : jsstring) : UserRow :=
  {| id := id r; email := email r; categories := SqlText c;
     created_at := created_at r; active := true |}.

(** Text without a comma. *)
Definition comma_free (s : jsstring) : bool := forallb (fun c => negb (c =? COMMA)) s.

(** A form from the inactive subscriber of the sample store. *)
Definition returning_form : Request :=
  {| formData := Normal [(js "email", FormString (js "dan@example.com"));
                         (js "categories", FormString (js "health"))] |}.

(** A line on the console, and nothing that leaves the worker. *)
Definition console_line (e : event) : Prop :=
  match e with
  | Console _ _ => True
  | _ => False
  end.

(** The response that serves the subscription page. *)
Definition page_response : HttpResponse :=
  {| body := HTML_CONTENT; status := 200; content_type := Some (js "text/html") |}.

(** A [GET] of the path the form posts to. *)
Definition get_subscribe : Incoming :=
  {| method := js "GET"; pathname := js "/api/subscribe"; payload := complete_form |}.

(** The requests a subscriber's row calls for: one per stored topic;
    none when the column is not text, as splitting it throws. *)
Definition wanted_urls (apiKey : jsstring) (user : UserRow) : list jsstring :=
  match category_list (categories user) with
  | Normal topics => map (fun c => news_url c apiKey) topics
  | Throw _ => []
  end.

(** From every state, the requests the function makes to the news
    source are [urls], in this order. *)
Definition asks {A : Type} (urls : list jsstring) (m : M A) : Prop :=
  forall s : State,
    exists evs, trace (snd (m s)) = trace s ++ evs /\ news_requests evs = urls.

(* ================================================================== *)
(** * Worked examples of the string and object primitives *)
(* ================================================================== *)

Example literal_units : js "‚îÄ" = [8218; 238; 196].
Proof. reflexivity. Qed.

Example trim_example : trim (js "  a b " ++ NL) = js "a b".
Proof. reflexivity. Qed.

Example split_example :
  split_on COMMA (js "technology, science,,health")
    = [js "technology"; js " science"; []; js "health"].
Proof. reflexivity. Qed.

Example split_empty_string : split_on COMMA [] = [[]].
Proof. reflexivity. Qed.

Example category_list_example :
  category_list (SqlText (js "technology, science"))
    = Normal [js "technology"; js "science"].
Proof. reflexivity. Qed.

Example array_index_examples :
  array_index (js "10") = Some 10
  /\ array_index (js "0") = Some 0
  /\ array_index (js "01") = None
  /\ array_index (js "4294967294") = Some 4294967294
  /\ array_index (js "4294967295") = None
  /\ array_index (js "technology") = None.
Proof. repeat split; reflexivity. Qed.

Example Object_keys_example :
  Object_keys [(js "sports", 0); (js "10", 1); (js "health", 2); (js "2", 3)]
    = [js "2"; js "10"; js "sports"; js "health"].
Proof. reflexivity. Qed.

Example replace_bold_example :
  replace_bold (js "1. **Chips get smaller** and ***") 
    = js "1. <strong>Chips get smaller</strong> and ***".
Proof. reflexivity. Qed.

Example toUpperCase_example : toUpperCase (js "technology") = js "TECHNOLOGY".
Proof. vm_compute. reflexivity. Qed.

(** Beyond ASCII: an accented letter, the sharp s, which becomes two
    letters, and a letter outside the basic plane (DESERET SMALL LETTER
    LONG I, a surrogate pair). *)
Example toUpperCase_beyond_ascii :
  toUpperCase [99; 97; 102; 233] = js "CAF" ++ [201]
  /\ toUpperCase [115; 116; 114; 97; 223; 101] = js "STRASSE"
  /\ toUpperCase [55297; 56360] = [55297; 56320]
  /\ toUpperCase [56360; 55297] = [56360; 55297].
Proof. vm_compute. repeat split. Qed.

Example fallback_is_capped :
  strlen (createFallbackSummary
            {| title := js "t"; description := repeat_str (js "abc") 67;
               url := []; publishedAt := []; source_name := []; content := [];
               category := None |}) = 200.
Proof. reflexivity. Qed.

(* ================================================================== *)
(** * Reasoning about async functions *)
(* ================================================================== *)

Lemma total_ret {A : Type} (a : A) : total (ret a).
Proof. intros s. exists a, s. reflexivity. Qed.

Lemma total_emit (e : event) : total (emit e).
Proof. intros s. eexists; eexists. reflexivity. Qed.

Lemma total_ask {A : Type} (oracle : nat -> A) : total (ask oracle).
Proof. intros s. eexists; eexists. reflexivity. Qed.

Lemma total_bind {A B : Type} (m : M A) (k : A -> M B) :
  total m -> (forall a, total (k a)) -> total (bind m k).
Proof.
  intros Hm Hk s. destruct (Hm s) as (a & s' & E).
  destruct (Hk a s') as (b & s'' & E'). exists b, s''.
  unfold bind. rewrite E. exact E'.
Qed.

(** A [try] whose handler cannot throw does not throw. *)
Lemma total_try_catch {A : Type} (m : M A) (h : exn -> M A) :
  (forall e, total (h e)) -> total (try_catch m h).
Proof.
  intros Hh s. unfold try_catch.
  destruct (m s) as [[a | e] s'].
  - exists a, s'. reflexivity.
  - apply Hh.
Qed.

Lemma total_for_of {A B : Type} (xs : list A) (body : B -> A -> M B) :
  (forall acc x, total (body acc x)) -> forall acc, total (for_of xs acc body).
Proof.
  intros Hb. induction xs as [| x rest IH]; intros acc; simpl.
  - apply total_ret.
  - apply total_bind; [apply Hb | intros acc'; apply IH].
Qed.

Create HintDb total.

#[local] Hint Resolve total_ret total_emit total_ask total_bind total_try_catch
  total_for_of : total.

(** Run the monad's plumbing, leaving strings and payloads folded. *)
Ltac mrun :=
  cbv beta iota zeta delta
    [try_catch bind ret throw lift emit ask console_log console_error exec];
  cbn [tick trace table fst snd negb andb orb].

Lemma eqb_refl (a : jsstring) : JS.eqb a a = true.
Proof. unfold JS.eqb. destruct (list_eq_dec N.eq_dec a a); congruence. Qed.

Lemma eqb_eq (a b : jsstring) : JS.eqb a b = true <-> a = b.
Proof.
  unfold JS.eqb. destruct (list_eq_dec N.eq_dec a b); split; congruence.
Qed.

Lemma eqb_neq (a b : jsstring) : JS.eqb a b = false <-> a <> b.
Proof.
  unfold JS.eqb. destruct (list_eq_dec N.eq_dec a b); split; congruence.
Qed.

(* ================================================================== *)
(** * The summarizer *)
(* ================================================================== *)

Lemma get_prop_truthy (v : jsvalue) (name : jsstring) :
  value_truthy (get_prop v name) = true -> value_truthy v = true.
Proof. destruct v; simpl; try discriminate; reflexivity. Qed.

Lemma summarize_total (a : NewsArticle) (ai : Ai) :
  total (summarizeArticleWithLlama a ai).
Proof. unfold summarizeArticleWithLlama, console_error. auto with total. Qed.

(** When the model yields text, the summary is that text, trimmed. *)
Lemma summarize_model_path (a : NewsArticle) (ai : Ai) (st : State)
    (s : jsstring) :
  model_text (ai_run ai (tick st) LLAMA (summary_input a)) = Some s ->
  fst (summarizeArticleWithLlama a ai st) = Normal (trim s).
Proof.
  unfold model_text, summarizeArticleWithLlama, try_catch, bind, console_log,
    console_error, emit, ask, lift. simpl.
  destruct (ai_run ai (tick st) LLAMA (summary_input a)) as [v | e];
    [| discriminate].
  simpl. destruct (get_prop v (js "response")) as [ | | | | r | | ] eqn:G;
    try discriminate.
  destruct (truthy r) eqn:T; [| discriminate].
  intros H; injection H as <-.
  assert (V : value_truthy v = true).
  { apply (get_prop_truthy v (js "response")). rewrite G. exact T. }
  rewrite V. simpl. rewrite T. reflexivity.
Qed.

(** When it does not, the summary is the fallback. *)
Lemma summarize_fallback_path (a : NewsArticle) (ai : Ai) (st : State) :
  model_text (ai_run ai (tick st) LLAMA (summary_input a)) = None ->
  fst (summarizeArticleWithLlama a ai st) = Normal (createFallbackSummary a).
Proof.
  unfold model_text, summarizeArticleWithLlama, try_catch, bind, console_log,
    console_error, emit, ask, lift. simpl.
  destruct (ai_run ai (tick st) LLAMA (summary_input a)) as [v | e];
    [| reflexivity].
  simpl. destruct (value_truthy v); simpl; [| reflexivity].
  destruct (get_prop v (js "response")) as [ | | b | n | r | l | l ];
    simpl; try reflexivity.
  - destruct b; reflexivity.
  - destruct (negb (n =? 0)%Z); reflexivity.
  - destruct (truthy r); [discriminate | reflexivity].
Qed.

Lemma strlen_le (d : jsstring) (n : nat) :
  (N.of_nat n <? strlen d) = negb (List.length d <=? n)%nat.
Proof.
  unfold strlen.
  destruct (N.ltb_spec (N.of_nat n) (N.of_nat (List.length d)));
    destruct (Nat.leb_spec (List.length d) n); simpl; try reflexivity; lia.
Qed.

(** The fallback never yields the empty string for an article with a
    title. *)
Lemma createFallbackSummary_nonempty (a : NewsArticle) :
  title a <> [] -> createFallbackSummary a <> [].
Proof.
  intros Ht. unfold createFallbackSummary, or_else.
  set (d := if truthy (description a) then description a else title a).
  assert (Hd : d <> []).
  { subst d. destruct (description a) as [| c r]; simpl; [exact Ht | discriminate]. }
  change 200 with (N.of_nat 200). rewrite strlen_le.
  destruct (Nat.leb_spec (List.length d) 200); simpl; [exact Hd |].
  unfold substring0. destruct d as [| c r]; [congruence | discriminate].
Qed.

(** C1 (the code departs from the claim): the emptiness test on the
    model's text comes before [trim], so for every article a model that
    answers with white space only makes [summarizeArticleWithLlama]
    return the empty string, without falling back. *)
Theorem summarize_blank_answer_returns_empty :
  forall (a : NewsArticle) (st : State),
    fst (summarizeArticleWithLlama a blank_ai st) = Normal [].
Proof.
  intros a st.
  rewrite (summarize_model_path a blank_ai st (js "   ")); reflexivity.
Qed.

(** So does an article without any text when the model call throws. *)
Lemma summarize_textless_article_returns_empty (st : State) :
  fst (summarizeArticleWithLlama
         {| title := []; description := []; url := js "https://example.com/story";
            publishedAt := []; source_name := js "Reuters"; content := [];
            category := None |} failing_ai st) = Normal [].
Proof. reflexivity. Qed.

(** What does hold: no exception leaves the summarizer, and the summary
    is non-empty whenever the article has a title and the model's text,
    if any, is not blank. *)
Lemma summarize_nonempty_unless_blank (a : NewsArticle) (ai : Ai) (st : State) :
  title a <> [] ->
  (forall s, model_text (ai_run ai (tick st) LLAMA (summary_input a)) = Some s ->
             trim s <> []) ->
  exists s, fst (summarizeArticleWithLlama a ai st) = Normal s /\ s <> [].
Proof.
  intros Ht Hs.
  destruct (model_text (ai_run ai (tick st) LLAMA (summary_input a))) as [s |] eqn:E.
  - exists (trim s). split; [apply summarize_model_path; exact E | apply Hs; reflexivity].
  - exists (createFallbackSummary a).
    split; [apply summarize_fallback_path; exact E |].
    apply createFallbackSummary_nonempty; exact Ht.
Qed.

(** C2, as the claim states it, fails: for a withdrawn article and a
    throwing model the summary is the sentinel description itself, and
    it does not start with the source name. *)
Lemma fallback_returns_sentinel_without_source :
  fst (summarizeArticleWithLlama removed_article failing_ai initial_state)
    = Normal (js "[Removed]")
  /\ description removed_article = js "[Removed]"
  /\ starts_with (source_name removed_article) (js "[Removed]") = false.
Proof. repeat split; reflexivity. Qed.

(** C2 (amended): when the model path fails, that is the call throws or
    its answer has no non-empty string [response], the summary is the
    description if it is non-empty and the title otherwise, cut to its
    first 197 code units followed by three dots when it is longer than
    200; no sentinel is tested, no body is read, no source is prefixed. *)
Theorem summarize_falls_back_to_description_or_title :
  forall (a : NewsArticle) (ai : Ai) (st : State),
    model_text (ai_run ai (tick st) LLAMA (summary_input a)) = None ->
    fst (summarizeArticleWithLlama a ai st) =
      Normal (let d := match description a with
                       | [] => title a
                       | _ :: _ => description a
                       end in
              if (List.length d <=? 200)%nat then d
              else firstn 197 d ++ js "...").
Proof.
  intros a ai st H. rewrite (summarize_fallback_path a ai st H).
  unfold createFallbackSummary, or_else, substring0. f_equal.
  change 200 with (N.of_nat 200). rewrite strlen_le.
  destruct (description a) as [| c r]; simpl truthy; cbv iota;
    match goal with
    | |- context [(List.length ?d <=? 200)%nat] =>
        destruct (List.length d <=? 200)%nat; reflexivity
    end.
Qed.

Lemma summarize_falls_back_witness :
  model_text (ai_run failing_ai (tick initial_state) LLAMA
                (summary_input removed_article)) = None
  /\ fst (summarizeArticleWithLlama removed_article failing_ai initial_state)
     = Normal (js "[Removed]").
Proof.
  split.
  - reflexivity.
  - exact (summarize_falls_back_to_description_or_title
             removed_article failing_ai initial_state eq_refl).
Defined.

(* ================================================================== *)
(** * The article source *)
(* ================================================================== *)

Lemma fetch_category_spec (rt : Runtime) (apiKey : jsstring)
    (acc : list NewsArticle) (c : jsstring) (st : State) :
  exists st',
    fetch_category rt apiKey acc c st
      = (Normal (acc ++ map (tag_category c) (returned rt apiKey (tick st) c)), st')
    /\ tick st' = S (tick st).
Proof.
  unfold fetch_category, returned, try_catch, bind, console_log, console_error,
    emit, ask, lift. simpl.
  destruct (fetch_newsapi rt (tick st) (news_url c apiKey)) as [r | e]; simpl.
  2: { rewrite app_nil_r. eexists; split; reflexivity. }
  destruct (resp_ok r); simpl.
  2: { rewrite app_nil_r. destruct (resp_text r); simpl; eexists; split; reflexivity. }
  destruct (resp_json r) as [d | e]; simpl.
  2: { rewrite app_nil_r. eexists; split; reflexivity. }
  destruct (JS.eqb (data_status d) (js "ok")); simpl.
  2: { rewrite app_nil_r. eexists; split; reflexivity. }
  destruct (data_articles d) as [l |]; simpl.
  2: { rewrite app_nil_r. eexists; split; reflexivity. }
  eexists; split; reflexivity.
Qed.

Lemma fetch_loop_spec (rt : Runtime) (apiKey : jsstring) (cats : list jsstring) :
  forall (acc : list NewsArticle) (st : State),
  exists st',
    for_of cats acc (fetch_category rt apiKey) st
      = (Normal (acc ++ collected rt apiKey (tick st) cats), st').
Proof.
  induction cats as [| c rest IH]; intros acc st; simpl.
  - rewrite app_nil_r. eexists; reflexivity.
  - destruct (fetch_category_spec rt apiKey acc c st) as (s1 & E & T).
    unfold bind at 1. rewrite E.
    destruct (IH (acc ++ map (tag_category c) (returned rt apiKey (tick st) c)) s1)
      as (s2 & E2).
    rewrite E2, T, <- app_assoc. eexists; reflexivity.
Qed.

(** C4, as the claim states it, fails: an article with an empty
    description and the sentinel as body is returned, tagged, by
    [fetchNewsForCategories]. *)
Lemma fetch_returns_withdrawn_article :
  fst (fetchNewsForCategories withdrawn_runtime [js "technology"] (js "key")
         initial_state)
    = Normal [tag_category (js "technology") withdrawn]
  /\ description (tag_category (js "technology") withdrawn) = []
  /\ content (tag_category (js "technology") withdrawn) = js "[Removed]".
Proof. repeat split; reflexivity. Qed.

Lemma fetchNews_result (rt : Runtime) (cats : list jsstring) (apiKey : jsstring)
    (st : State) :
  fst (fetchNewsForCategories rt cats apiKey st)
    = Normal (firstn 10 (collected rt apiKey (tick st) cats)).
Proof.
  unfold fetchNewsForCategories.
  destruct (fetch_loop_spec rt apiKey cats [] st) as (s1 & E).
  unfold bind at 1. rewrite E. reflexivity.
Qed.

(** C4 (amended): [fetchNewsForCategories] applies no content filter.
    It returns the first ten of the articles the source returned, topic
    by topic in the order of the topics, each tagged with its topic;
    a topic whose request fails contributes nothing.  An article with
    empty or sentinel text is passed on like any other. *)
Theorem fetch_returns_first_ten_unfiltered :
  forall (rt : Runtime) (cats : list jsstring) (apiKey : jsstring) (st : State),
    fst (fetchNewsForCategories rt cats apiKey st)
      = Normal (firstn 10 (collected rt apiKey (tick st) cats)).
Proof. exact fetchNews_result. Qed.

(** In particular no article of a successful topic is dropped while the
    cap of ten is not reached. *)
Lemma fetch_keeps_every_article (rt : Runtime) (apiKey c : jsstring)
    (st : State) (a : NewsArticle) :
  (List.length (returned rt apiKey (tick st) c) <= 10)%nat ->
  In a (returned rt apiKey (tick st) c) ->
  exists l, fst (fetchNewsForCategories rt [c] apiKey st) = Normal l
            /\ In (tag_category c a) l.
Proof.
  intros Hlen Hin. rewrite fetchNews_result.
  cbn [collected]. rewrite app_nil_r. eexists; split; [reflexivity |].
  rewrite firstn_all2 by (rewrite length_map; exact Hlen).
  apply in_map. exact Hin.
Qed.

Lemma fetch_total (rt : Runtime) (cats : list jsstring) (apiKey : jsstring) :
  total (fetchNewsForCategories rt cats apiKey).
Proof.
  unfold fetchNewsForCategories, console_log.
  apply total_bind; [| auto with total].
  apply total_for_of. intros acc c. unfold fetch_category, console_error.
  auto with total.
Qed.

(* ================================================================== *)
(** * The delivery adapter *)
(* ================================================================== *)

Lemma sendEmail_total (rt : Runtime) (to_email subj body_text : jsstring) (env : Env)
    (fromEmail fromName : jsstring) :
  total (sendEmailWithResend rt to_email subj body_text env fromEmail fromName).
Proof. unfold sendEmailWithResend, console_error. auto with total. Qed.

Ltac send_case :=
  do 3 eexists; split; [reflexivity |]; mrun;
  repeat rewrite <- app_assoc; split; [reflexivity |];
  split; [reflexivity |]; eexists; split; [reflexivity |];
  repeat split; reflexivity.

(** C7: [sendEmailWithResend] never throws and always yields a boolean.
    Without a usable key it returns [false] having only logged: no
    request is made.  With a key it makes one request; a thrown fetch,
    an unreadable body or an unparsable answer give [false]; a
    non-success answer gives [false] after logging status and body; and
    [true] is returned exactly for a success answer that parses. *)
Theorem sendEmail_reports_failure_as_false :
  forall (rt : Runtime) (to_email subj body_text : jsstring) (env : Env)
         (fromEmail fromName : jsstring) (st : State),
  exists (sent : bool) (evs : list event) (st' : State),
    sendEmailWithResend rt to_email subj body_text env fromEmail fromName st
      = (Normal sent, st')
    /\ trace st' = trace st ++ send_banner to_email subj fromEmail fromName ++ evs
    /\ table st' = table st
    /\ match usable_key (RESEND_API_KEY env) with
       | None =>
           sent = false
           /\ tick st' = tick st
           /\ evs = [Console LOG [AStr (G_CROSS
                        ++ js " RESEND_API_KEY not found in environment")]]
       | Some key =>
           let payload := email_payload to_email subj body_text fromEmail fromName in
           exists after,
             evs = ResendRequest (js "Bearer " ++ key) payload :: after
             /\ existsb is_resend_request after = false
             /\ match fetch_resend rt (tick st) (js "Bearer " ++ key) payload with
                | Throw e =>
                    sent = false
                    /\ after = [Console ERROR [AStr (js "Error sending email via Resend:");
                                               AErr e]]
                | Normal r =>
                    if resp_ok r then
                      match resp_json r with
                      | Normal _ => sent = true
                      | Throw _ => sent = false
                      end
                    else
                      sent = false
                      /\ match resp_text r with
                         | Normal errorText =>
                             after = [Console ERROR [AStr (js "Resend API error:");
                                                     ANum (resp_status r);
                                                     AStr errorText]]
                         | Throw e =>
                             after = [Console ERROR
                                        [AStr (js "Error sending email via Resend:");
                                         AErr e]]
                         end
                end
       end.
Proof.
  intros rt to_email subj body_text env fromEmail fromName st.
  unfold sendEmailWithResend, send_banner. mrun.
  destruct (usable_key (RESEND_API_KEY env)) as [key |]; mrun.
  2: { do 3 eexists. split; [reflexivity |]. mrun.
       repeat rewrite <- app_assoc. repeat split; reflexivity. }
  fold (email_payload to_email subj body_text fromEmail fromName).
  destruct (fetch_resend rt (tick st) (js "Bearer " ++ key)
              (email_payload to_email subj body_text fromEmail fromName))
    as [r | e]; mrun.
  2: { send_case. }
  destruct (resp_ok r); mrun.
  - destruct (resp_json r) as [v | e]; mrun; send_case.
  - destruct (resp_text r) as [t | e]; mrun; send_case.
Qed.

(* ================================================================== *)
(** * The digest composer *)
(* ================================================================== *)

Section AssocLists.

Context {V : Type}.

Lemma existsb_eqb_In (c : jsstring) (l : list jsstring) :
  existsb (JS.eqb c) l = true <-> In c l.
Proof.
  rewrite existsb_exists. split.
  - intros (x & Hx & E). apply eqb_eq in E. subst x. exact Hx.
  - intros H. exists c. split; [exact H | apply eqb_refl].
Qed.

Lemma assoc_map_in (f : jsstring -> V) (l : list jsstring) (k : jsstring) :
  In k l -> assoc k (map (fun c => (c, f c)) l) = Some (f k).
Proof.
  induction l as [| a l IH]; simpl; [contradiction |].
  intros H. destruct (JS.eqb k a) eqn:E.
  - apply eqb_eq in E. subst a. reflexivity.
  - apply eqb_neq in E. destruct H as [H | H]; [congruence | exact (IH H)].
Qed.

Lemma assoc_map_notin (f : jsstring -> V) (l : list jsstring) (k : jsstring) :
  ~ In k l -> assoc k (map (fun c => (c, f c)) l) = None.
Proof.
  induction l as [| a l IH]; simpl; [reflexivity |].
  intros H. destruct (JS.eqb k a) eqn:E.
  - apply eqb_eq in E. subst a. exfalso. apply H. left. reflexivity.
  - apply IH. intros K. apply H. right. exact K.
Qed.

Lemma assoc_app_new (o : ownprops V) (k : jsstring) (v : V) :
  assoc k o = None -> assoc k (o ++ [(k, v)]) = Some v.
Proof.
  induction o as [| [a w] o IH]; simpl.
  - rewrite eqb_refl. reflexivity.
  - destruct (JS.eqb k a); [discriminate | exact IH].
Qed.

Lemma obj_update_app_new (o : ownprops V) (k : jsstring) (v w : V) :
  assoc k o = None -> obj_update (o ++ [(k, v)]) k w = o ++ [(k, w)].
Proof.
  induction o as [| [a x] o IH]; simpl.
  - rewrite eqb_refl. reflexivity.
  - destruct (JS.eqb k a); [discriminate |]. intros H. rewrite (IH H). reflexivity.
Qed.

Lemma obj_update_map (f : jsstring -> V) (l : list jsstring) (k : jsstring) (v : V) :
  NoDup l ->
  obj_update (map (fun c => (c, f c)) l) k v
    = map (fun c => (c, if JS.eqb k c then v else f c)) l.
Proof.
  induction l as [| a l IH]; simpl; [reflexivity |].
  intros ND. inversion ND as [| ? ? Hnotin ND']; subst.
  destruct (JS.eqb k a) eqn:E.
  - apply eqb_eq in E. subst a. f_equal.
    apply map_ext_in. intros c Hc.
    destruct (JS.eqb k c) eqn:E'; [| reflexivity].
    apply eqb_eq in E'. subst c. contradiction.
  - rewrite (IH ND'). reflexivity.
Qed.

End AssocLists.

Lemma first_seen_snoc (l : list jsstring) (c : jsstring) :
  first_seen (l ++ [c]) = see (first_seen l) c.
Proof. unfold first_seen. rewrite fold_left_app. reflexivity. Qed.

Lemma first_seen_In (l : list jsstring) (c : jsstring) :
  In c (first_seen l) <-> In c l.
Proof.
  induction l as [| x l IH] using rev_ind; [reflexivity |].
  rewrite first_seen_snoc, in_app_iff. unfold see.
  destruct (existsb (JS.eqb x) (first_seen l)) eqn:E.
  - apply existsb_eqb_In in E. split.
    + intros H. left. apply IH. exact H.
    + intros [H | [H | []]]; [apply IH; exact H | subst x; exact E].
  - rewrite in_app_iff, IH. reflexivity.
Qed.

Lemma first_seen_NoDup (l : list jsstring) : NoDup (first_seen l).
Proof.
  induction l as [| x l IH] using rev_ind; [constructor |].
  rewrite first_seen_snoc. unfold see.
  destruct (existsb (JS.eqb x) (first_seen l)) eqn:E; [exact IH |].
  assert (Hx : ~ In x (first_seen l)).
  { intros H. apply existsb_eqb_In in H. congruence. }
  clear E. induction (first_seen l) as [| a r IHr]; simpl.
  - constructor; [intros [] | constructor].
  - inversion IH as [| ? ? Ha ND]; subst. constructor.
    + rewrite in_app_iff. intros [H | [H | []]]; [contradiction |].
      subst. apply Hx. left. reflexivity.
    + apply IHr; [exact ND |]. intros H. apply Hx. right. exact H.
Qed.

Lemma items_of_snoc (c : jsstring) (done : list SummarizedItem) (item : SummarizedItem) :
  items_of c (done ++ [item])
    = items_of c done ++ (if JS.eqb (item_category item) c then [item] else []).
Proof. unfold items_of. rewrite filter_app. reflexivity. Qed.

Lemma items_of_unseen (c : jsstring) (done : list SummarizedItem) :
  ~ In c (map item_category done) -> items_of c done = [].
Proof.
  induction done as [| i done IH]; simpl; [reflexivity |].
  intros H. destruct (JS.eqb (item_category i) c) eqn:E.
  - apply eqb_eq in E. exfalso. apply H. left. exact E.
  - apply IH. intros K. apply H. right. exact K.
Qed.

(** One [forEach] step extends the grouping by the item. *)
Lemma group_step_sections (done : list SummarizedItem) (item : SummarizedItem) :
  inherited (item_category item) = false ->
  group_step (sections done) item = Normal (sections (done ++ [item])).
Proof.
  intros Hinh. unfold group_step, sections, obj_get.
  rewrite map_app. cbn [map]. rewrite first_seen_snoc. unfold see.
  set (k := item_category item) in *.
  set (cats := map item_category done).
  destruct (existsb (JS.eqb k) (first_seen cats)) eqn:E.
  - apply existsb_eqb_In in E.
    rewrite (assoc_map_in (fun c => items_of c done) _ k E).
    rewrite (assoc_map_in (fun c => items_of c done) _ k E).
    rewrite obj_update_map by apply first_seen_NoDup.
    f_equal. apply map_ext. intros c. rewrite items_of_snoc. fold k.
    destruct (JS.eqb k c) eqn:Ekc.
    + apply eqb_eq in Ekc. subst c. reflexivity.
    + rewrite app_nil_r. reflexivity.
  - assert (Hk : ~ In k (first_seen cats)).
    { intros H. apply existsb_eqb_In in H. congruence. }
    assert (A : assoc k (map (fun c => (c, items_of c done)) (first_seen cats)) = None)
      by (apply assoc_map_notin; exact Hk).
    rewrite A, Hinh. rewrite (assoc_app_new _ k [] A).
    rewrite (obj_update_app_new _ k [] ([] ++ [item]) A).
    rewrite map_app. cbn [map app]. f_equal. f_equal.
    + apply map_ext_in. intros c Hc. rewrite items_of_snoc. fold k.
      destruct (JS.eqb k c) eqn:Ekc.
      * apply eqb_eq in Ekc. subst c. contradiction.
      * rewrite app_nil_r. reflexivity.
    + rewrite items_of_snoc. fold k. rewrite eqb_refl.
      rewrite items_of_unseen; [reflexivity |].
      intros H. apply Hk. apply first_seen_In. exact H.
Qed.

Lemma group_from_sections (items : list SummarizedItem) :
  forall done : list SummarizedItem,
    Forall (fun i => inherited (item_category i) = false) items ->
    group_from (sections done) items = Normal (sections (done ++ items)).
Proof.
  induction items as [| item rest IH]; intros done H; simpl.
  - rewrite app_nil_r. reflexivity.
  - inversion H as [| ? ? Hi Hrest]; subst.
    rewrite (group_step_sections done item Hi).
    rewrite (IH (done ++ [item]) Hrest), <- app_assoc. reflexivity.
Qed.

(** Grouping yields the specified sections, unless a topic names an
    inherited property. *)
Lemma group_by_category_sections (items : list SummarizedItem) :
  Forall (fun i => inherited (item_category i) = false) items ->
  group_by_category items = Normal (sections items).
Proof. intros H. exact (group_from_sections items [] H). Qed.

Lemma index_keys_names (l : list jsstring) :
  Forall (fun c => array_index c = None) l -> index_keys l = [].
Proof.
  induction 1 as [| c l Hc _ IH]; simpl; [reflexivity |].
  rewrite Hc. exact IH.
Qed.

Lemma filter_names (l : list jsstring) :
  Forall (fun c => array_index c = None) l -> filter is_name l = l.
Proof.
  induction 1 as [| c l Hc _ IH]; simpl; [reflexivity |].
  unfold is_name at 1. rewrite Hc, IH. reflexivity.
Qed.

(** Without array indices among the topics, [Object.keys] enumerates
    the sections in first-seen order. *)
Lemma Object_keys_sections (items : list SummarizedItem) :
  Forall (fun i => array_index (item_category i) = None) items ->
  Object_keys (sections items) = first_seen (map item_category items).
Proof.
  intros H. unfold Object_keys, sections. rewrite map_map. cbn [fst].
  rewrite map_id.
  assert (F : Forall (fun c => array_index c = None)
                (first_seen (map item_category items))).
  { rewrite Forall_forall in *. intros c Hc. apply (proj1 (first_seen_In _ _)) in Hc.
    apply in_map_iff in Hc. destruct Hc as (i & <- & Hi). exact (H i Hi). }
  rewrite (index_keys_names _ F), (filter_names _ F). reflexivity.
Qed.

Lemma render_categories_sections (items : list SummarizedItem) :
  Forall (fun i => array_index (item_category i) = None) items ->
  render_categories (sections items)
    = flat_map (fun c => render_category c (items_of c items))
               (first_seen (map item_category items)).
Proof.
  intros H. unfold render_categories. rewrite (Object_keys_sections items H).
  rewrite !flat_map_concat_map. f_equal. apply map_ext_in. intros c Hc.
  unfold own_value, sections.
  rewrite (assoc_map_in (fun c => items_of c items) _ c Hc). reflexivity.
Qed.

(** The text composed for plain topics. *)
Lemma format_plain_topics (rt : Runtime) (to_email : jsstring)
    (items : list SummarizedItem) (st : State) :
  Forall (fun i => plain_topic (item_category i)) items ->
  fst (formatNewsletter rt to_email items st)
    = Normal (newsletter_header (Date_toDateString rt (tick st))
              ++ flat_map (fun c => render_category c (items_of c items))
                          (first_seen (map item_category items))
              ++ newsletter_footer).
Proof.
  intros H. unfold formatNewsletter. mrun.
  rewrite group_by_category_sections.
  2: { eapply Forall_impl; [| exact H]. intros i [_ Hi]. exact Hi. }
  mrun. rewrite render_categories_sections; [reflexivity |].
  eapply Forall_impl; [| exact H]. intros i [Hi _]. exact Hi.
Qed.

(** C9, as the claim states it, fails: a topic that is an array index
    is enumerated before the topics seen earlier, so its section comes
    first. *)
Lemma array_index_topic_is_rendered_first :
  first_seen (map item_category [tech_item_1; numbered_item])
    = [js "technology"; js "1"]
  /\ fst (formatNewsletter withdrawn_runtime (js "a@x.com")
            [tech_item_1; numbered_item] initial_state)
     = Normal (newsletter_header (js "Sun Sep 28 2025")
               ++ render_category (js "1") [numbered_item]
               ++ render_category (js "technology") [tech_item_1]
               ++ newsletter_footer)
  /\ fst (formatNewsletter withdrawn_runtime (js "a@x.com")
            [tech_item_1; numbered_item] initial_state)
     <> Normal (newsletter_header (js "Sun Sep 28 2025")
                ++ render_category (js "technology") [tech_item_1]
                ++ render_category (js "1") [numbered_item]
                ++ newsletter_footer).
Proof.
  split; [reflexivity |]. split; [vm_compute; reflexivity |].
  vm_compute. intros H. discriminate H.
Qed.

(** A topic that names an inherited property makes composition throw. *)
Lemma inherited_topic_throws (rt : Runtime) (to_email t s : jsstring) (st : State) :
  fst (formatNewsletter rt to_email [item_in (js "constructor") t s] st)
    = Throw (TypeError "byCategory[item.category].push is not a function").
Proof. reflexivity. Qed.

(** C9 (amended): for items whose topics are plain names (no array
    index, no name inherited from [Object.prototype]) the digest has one
    section per topic, in the order in which the topics are first seen,
    and each section lists exactly the items of its topic in arrival
    order. *)
Theorem newsletter_sections_follow_first_seen_order :
  forall (rt : Runtime) (to_email : jsstring) (items : list SummarizedItem)
         (st : State),
    Forall (fun i => plain_topic (item_category i)) items ->
    fst (formatNewsletter rt to_email items st)
      = Normal (newsletter_header (Date_toDateString rt (tick st))
                ++ flat_map (fun c => render_category c (items_of c items))
                            (first_seen (map item_category items))
                ++ newsletter_footer).
Proof. exact format_plain_topics. Qed.

Lemma plain_technology : plain_topic (js "technology").
Proof. split; reflexivity. Qed.

(** Two technology articles: one section, headed TECHNOLOGY, with the
    two items in fetch order. *)
Lemma newsletter_sections_witness :
  Forall (fun i => plain_topic (item_category i)) [tech_item_1; tech_item_2]
  /\ fst (formatNewsletter withdrawn_runtime (js "a@x.com")
            [tech_item_1; tech_item_2] initial_state)
     = Normal (newsletter_header (js "Sun Sep 28 2025")
               ++ (G_NEWS ++ js " TECHNOLOGY" ++ NL
                   ++ repeat_str G_RULE 40 ++ NL ++ NL
                   ++ render_item 0 tech_item_1
                   ++ render_item 1 tech_item_2)
               ++ newsletter_footer).
Proof.
  assert (H : Forall (fun i => plain_topic (item_category i))
                [tech_item_1; tech_item_2])
    by (repeat constructor; reflexivity).
  split; [exact H |].
  rewrite (newsletter_sections_follow_first_seen_order
             withdrawn_runtime (js "a@x.com") [tech_item_1; tech_item_2]
             initial_state H).
  vm_compute. reflexivity.
Defined.

(** The same for any two articles of one plain topic. *)
Lemma one_topic_two_items (rt : Runtime) (to_email c : jsstring)
    (a1 a2 : NewsArticle) (s1 s2 : jsstring) (st : State) :
  plain_topic c ->
  fst (formatNewsletter rt to_email
         [{| article := a1; summary := s1; item_category := c |};
          {| article := a2; summary := s2; item_category := c |}] st)
    = Normal (newsletter_header (Date_toDateString rt (tick st))
              ++ (G_NEWS ++ js " " ++ toUpperCase c ++ NL
                  ++ repeat_str G_RULE 40 ++ NL ++ NL
                  ++ render_item 0 {| article := a1; summary := s1; item_category := c |}
                  ++ render_item 1 {| article := a2; summary := s2; item_category := c |})
              ++ newsletter_footer).
Proof.
  intros Hc. rewrite format_plain_topics
    by (constructor; [exact Hc | constructor; [exact Hc | constructor]]).
  cbn [map item_category]. unfold first_seen. cbn [fold_left].
  unfold see at 2. cbn [existsb app]. unfold see. cbn [existsb].
  rewrite eqb_refl. cbn [orb flat_map]. rewrite app_nil_r.
  unfold items_of. cbn [filter item_category]. rewrite eqb_refl.
  unfold render_category. cbn [render_items]. rewrite app_nil_r.
  repeat rewrite <- app_assoc. reflexivity.
Qed.

Lemma Normal_inj {A : Type} (x y : A) : Normal x = Normal y -> x = y.
Proof. intros H. injection H as H. exact H. Qed.

(** The composed text determines the date it was composed with. *)
Lemma newsletter_header_inj (d1 d2 rest : jsstring) :
  newsletter_header d1 ++ rest = newsletter_header d2 ++ rest -> d1 = d2.
Proof.
  unfold newsletter_header. repeat rewrite <- app_assoc.
  intros H. apply app_inv_head in H. apply app_inv_head in H.
  apply app_inv_tail in H. exact H.
Qed.

(** Calls that read different dates compose different texts. *)
Lemma different_dates_give_different_text (rt1 rt2 : Runtime) (to1 to2 : jsstring)
    (items : list SummarizedItem) (st1 st2 : State) (composed : jsstring) :
  Date_toDateString rt1 (tick st1) <> Date_toDateString rt2 (tick st2) ->
  fst (formatNewsletter rt1 to1 items st1) = Normal composed ->
  fst (formatNewsletter rt2 to2 items st2) <> Normal composed.
Proof.
  unfold formatNewsletter. mrun.
  destruct (group_by_category items) as [o | e]; mrun; [| discriminate].
  intros Hd H1 H2. apply Hd. rewrite <- H2 in H1. apply Normal_inj in H1.
  apply newsletter_header_inj in H1. exact H1.
Qed.

(** C5, as the claim states it, fails: two calls with the same
    recipient and the same items, one before midnight and one after,
    compose different texts. *)
Lemma same_inputs_different_days_differ :
  let first := formatNewsletter midnight_runtime (js "a@x.com")
                 [tech_item_1; tech_item_2] initial_state in
  let second := formatNewsletter midnight_runtime (js "a@x.com")
                  [tech_item_1; tech_item_2] (snd first) in
  fst first <> fst second.
Proof.
  cbv zeta. intros H.
  rewrite !format_plain_topics in H by (repeat constructor; reflexivity).
  apply Normal_inj, newsletter_header_inj in H.
  vm_compute in H. discriminate H.
Qed.

(** C5 (amended): [formatNewsletter] reads the date from the clock and
    nothing else from outside: it logs nothing, makes no request and
    leaves the table alone, and two calls with the same ordered items
    that read the same date string give the same result, the same text
    or the same exception, whoever the recipient is. *)
Theorem formatNewsletter_depends_on_date_and_items_only :
  forall (rt1 rt2 : Runtime) (to1 to2 : jsstring) (items : list SummarizedItem)
         (st1 st2 : State),
    Date_toDateString rt1 (tick st1) = Date_toDateString rt2 (tick st2) ->
    fst (formatNewsletter rt1 to1 items st1) = fst (formatNewsletter rt2 to2 items st2)
    /\ trace (exec (formatNewsletter rt1 to1 items) st1) = trace st1
    /\ table (exec (formatNewsletter rt1 to1 items) st1) = table st1.
Proof.
  intros rt1 rt2 to1 to2 items st1 st2 H.
  unfold formatNewsletter. mrun. rewrite H.
  destruct (group_by_category items) as [o | e]; mrun; repeat split; reflexivity.
Qed.

Lemma formatNewsletter_same_date_witness :
  Date_toDateString midnight_runtime (tick {| tick := 1; trace := []; table := table initial_state |})
    = Date_toDateString withdrawn_runtime (tick initial_state)
  /\ fst (formatNewsletter midnight_runtime (js "a@x.com") [tech_item_1; tech_item_2]
            {| tick := 1; trace := []; table := table initial_state |})
     = fst (formatNewsletter withdrawn_runtime (js "b@y.org") [tech_item_1; tech_item_2]
              initial_state).
Proof.
  split; [reflexivity |].
  exact (proj1 (formatNewsletter_depends_on_date_and_items_only
                  midnight_runtime withdrawn_runtime (js "a@x.com") (js "b@y.org")
                  [tech_item_1; tech_item_2]
                  {| tick := 1; trace := []; table := table initial_state |}
                  initial_state eq_refl)).
Defined.

(* ================================================================== *)
(** * The HTML rendering of the digest *)
(* ================================================================== *)

Lemma find_close_shorter (s : jsstring) :
  forall inner rest : jsstring,
    find_close s = Some (inner, rest) -> (List.length rest < List.length s)%nat.
Proof.
  induction s as [| c tl IH]; intros inner rest; cbn [find_close];
    [discriminate |].
  assert (Step : (if is_line_terminator c then None
                  else match find_close tl with
                       | Some (i, r) => Some (c :: i, r)
                       | None => None
                       end) = Some (inner, rest) ->
                 (List.length rest < List.length (c :: tl))%nat).
  { destruct (is_line_terminator c); [discriminate |].
    destruct (find_close tl) as [[i r] |] eqn:E; [| discriminate].
    intros H. injection H as _ <-. specialize (IH i r eq_refl). cbn. lia. }
  destruct (c =? 42); [| exact Step].
  destruct tl as [| c2 rest0]; [exact Step |].
  destruct (c2 =? 42); [| exact Step].
  intros H. injection H as _ <-. cbn. lia.
Qed.

(** The replacement of the bold markers terminates within the length of
    the text: more fuel changes nothing. *)
Lemma bold_fuel (n : nat) :
  forall (m : nat) (s : jsstring),
    (List.length s <= n)%nat -> (List.length s <= m)%nat -> bold n s = bold m s.
Proof.
  induction n as [| n IH]; intros m s Hn Hm.
  - destruct s; [| cbn in Hn; lia]. destruct m; reflexivity.
  - destruct m as [| m].
    + destruct s; [reflexivity | cbn in Hm; lia].
    + destruct s as [| c tl]; [reflexivity |]. cbn [bold].
      cbn [List.length] in Hn, Hm.
      destruct (c =? 42).
      * destruct tl as [| c2 rest0]; [apply f_equal; apply IH; cbn; lia |].
        destruct (c2 =? 42).
        -- destruct (find_close rest0) as [[inner rest] |] eqn:E.
           ++ apply find_close_shorter in E. cbn [List.length] in Hn, Hm.
              do 3 apply f_equal. apply IH; lia.
           ++ apply f_equal. apply IH; lia.
        -- apply f_equal. apply IH; lia.
      * apply f_equal. apply IH; lia.
Qed.

Lemma replace_bold_fuel (s : jsstring) (n : nat) :
  (List.length s <= n)%nat -> bold n s = replace_bold s.
Proof. intros H. unfold replace_bold. apply bold_fuel; [exact H | lia]. Qed.

(* ================================================================== *)
(** * The orchestrator *)
(* ================================================================== *)

Lemma processUser_total (rt : Runtime) (user : UserRow) (env : Env) :
  total (processUserNewsletter rt user env).
Proof. unfold processUserNewsletter, console_error. auto with total. Qed.

(** The loop of [scheduled] never stops early. *)
Lemma for_each_process_all (rt : Runtime) (env : Env) (us : list UserRow) :
  forall s : State,
    for_each us (fun user => processUserNewsletter rt user env) s
      = (Normal tt, process_all rt env us s).
Proof.
  induction us as [| u rest IH]; intros s; [reflexivity |].
  cbn [for_each process_all fold_left]. unfold bind at 1, exec at 2.
  destruct (processUser_total rt u env s) as ([] & s' & E).
  rewrite E. cbn [snd]. apply IH.
Qed.

Lemma process_all_cons (rt : Runtime) (env : Env) (u : UserRow) (rest : list UserRow)
    (s : State) :
  process_all rt env (u :: rest) s
    = process_all rt env rest (exec (processUserNewsletter rt u env) s).
Proof. reflexivity. Qed.


(** What a run does when the store answers: nothing for an empty
    answer, the whole loop otherwise. *)
Lemma scheduled_when_store_answers (rt : Runtime) (env : Env) (st : State) :
  d1_fault (DB env) (S (tick st)) = None ->
  scheduled rt env st
    = (Normal tt,
       match select_active (table st) with
       | [] => say (js "No active subscribers found") (queried rt st)
       | (_ :: _) as us =>
           say (G_CHECK ++ js " Cron job completed successfully")
             (process_all rt env us
                (say (announce (List.length us)) (queried rt st)))
       end).
Proof.
  intros Hdb. unfold scheduled, d1_all_active, d1_exec, read_table. mrun.
  rewrite Hdb. mrun. rewrite <- app_assoc. cbn [app].
  fold (trigger_line rt st). fold (queried rt st).
  destruct (select_active (table st)) as [| u rest] eqn:Eus.
  - unfold say. mrun. reflexivity.
  - rewrite for_each_process_all. unfold say, announce. mrun. reflexivity.
Qed.


(** C6: when the query for the active subscribers fails, the run stops
    there.  The whole trace of the run is the trigger line, the query
    and the logged error: no subscriber is processed, no request is
    made, and the handler itself completes normally. *)
Theorem scheduled_aborts_when_store_fails :
  forall (rt : Runtime) (env : Env) (st : State) (e : exn),
    d1_fault (DB env) (S (tick st)) = Some e ->
    scheduled rt env st
      = (Normal tt,
         {| tick := S (S (tick st));
            trace := trace st
                     ++ [trigger_line rt st;
                         D1Statement SELECT_ACTIVE [];
                         Console ERROR [AStr (G_CROSS ++ js " Cron job failed:");
                                        AErr e]];
            table := table st |}).
Proof.
  intros rt env st e Hdb.
  unfold scheduled, d1_all_active, d1_exec, read_table. mrun.
  rewrite Hdb. mrun. repeat rewrite <- app_assoc. reflexivity.
Qed.


Lemma scheduled_aborts_witness :
  d1_fault (DB (worker_env broken_db)) (S (tick store))
    = Some (JsError "Error" (js "D1_ERROR: no such table: users"))
  /\ scheduled picky_runtime (worker_env broken_db) store
     = (Normal tt,
        {| tick := 2;
           trace := [trigger_line picky_runtime store;
                     D1Statement SELECT_ACTIVE [];
                     Console ERROR
                       [AStr (G_CROSS ++ js " Cron job failed:");
                        AErr (JsError "Error" (js "D1_ERROR: no such table: users"))]];
           table := table store |}).
Proof.
  split; [reflexivity |].
  exact (scheduled_aborts_when_store_fails picky_runtime (worker_env broken_db)
           store _ eq_refl).
Defined.


(** In that run the first subscriber's processing throws and the
    second's delivery is rejected; the third is still served. *)
Lemma run_with_failures_reaches_the_last_subscriber :
  let tr := trace (exec (scheduled picky_runtime (worker_env healthy_db)) store) in
  In (Console ERROR [AStr (js "Error processing newsletter for user:");
                     AErr (TypeError "categories.split is not a function")]) tr
  /\ In (Console LOG [AStr (G_CROSS ++ js " Failed to send newsletter to "
                            ++ js "bob@example.com")]) tr
  /\ deliveries tr = [[js "bob@example.com"]; [js "eve@example.com"]].
Proof.
  vm_compute. split; [| split; [| reflexivity]].
  - do 3 right. left. reflexivity.
  - auto 40 using in_eq, in_cons.
Qed.

(** The scenario of the specification: two technology articles, the
    summarizer called twice, one delivery, whose text has the one
    section TECHNOLOGY with the two items in fetch order. *)
Lemma technology_scenario :
  let tr := trace (exec (processUserNewsletter two_story_runtime reader scenario_env)
                     initial_state) in
  model_calls tr = 2%nat
  /\ deliveries tr = [[js "a@x.com"]]
  /\ delivered_texts tr
     = [newsletter_header (js "Sun Sep 28 2025")
        ++ (G_NEWS ++ js " TECHNOLOGY" ++ NL
            ++ repeat_str G_RULE 40 ++ NL ++ NL
            ++ render_item 0 {| article := tag_category (js "technology") first_story;
                                summary := js "A short summary.";
                                item_category := js "technology" |}
            ++ render_item 1 {| article := tag_category (js "technology") second_story;
                                summary := js "A short summary.";
                                item_category := js "technology" |})
        ++ newsletter_footer].
Proof. vm_compute. repeat split. Qed.

(** ** Subscribers that are not active *)

Lemma blind_ret {A : Type} (a : A) : table_blind (ret a).
Proof. intros s t. reflexivity. Qed.

Lemma blind_throw {A : Type} (e : exn) : table_blind (@throw A e).
Proof. intros s t. reflexivity. Qed.

Lemma blind_lift {A : Type} (c : completion A) : table_blind (lift c).
Proof. destruct c; [apply blind_ret | apply blind_throw]. Qed.

Lemma blind_emit (e : event) : table_blind (emit e).
Proof. intros s t. reflexivity. Qed.

Lemma blind_ask {A : Type} (oracle : nat -> A) : table_blind (ask oracle).
Proof. intros s t. reflexivity. Qed.

Lemma blind_bind {A B : Type} (m : M A) (k : A -> M B) :
  table_blind m -> (forall a, table_blind (k a)) -> table_blind (bind m k).
Proof.
  intros Hm Hk s t. unfold bind. rewrite (Hm s t).
  destruct (m s) as [[a | e] s']; cbn [fst snd]; [apply Hk | reflexivity].
Qed.

Lemma blind_try_catch {A : Type} (m : M A) (h : exn -> M A) :
  table_blind m -> (forall e, table_blind (h e)) -> table_blind (try_catch m h).
Proof.
  intros Hm Hh s t. unfold try_catch. rewrite (Hm s t).
  destruct (m s) as [[a | e] s']; cbn [fst snd]; [reflexivity | apply Hh].
Qed.

Lemma blind_for_of {A B : Type} (xs : list A) (body : B -> A -> M B) :
  (forall acc x, table_blind (body acc x)) ->
  forall acc, table_blind (for_of xs acc body).
Proof.
  intros Hb. induction xs as [| x rest IH]; intros acc; cbn [for_of].
  - apply blind_ret.
  - apply blind_bind; [apply Hb | intros acc'; apply IH].
Qed.

Lemma blind_for_each {A : Type} (xs : list A) (body : A -> M unit) :
  (forall x, table_blind (body x)) -> table_blind (for_each xs body).
Proof.
  intros Hb. induction xs as [| x rest IH]; cbn [for_each].
  - apply blind_ret.
  - apply blind_bind; [apply Hb | intros _; exact IH].
Qed.

(** Decompose a function body along its control flow. *)
Ltac blind :=
  repeat first
    [ apply blind_ret | apply blind_throw | apply blind_lift
    | apply blind_emit | apply blind_ask
    | apply blind_bind; [| intros ?]
    | apply blind_try_catch; [| intros ?]
    | apply blind_for_of; intros ? ?
    | apply blind_for_each; intros ?
    | match goal with
      | |- table_blind (if ?b then _ else _) => destruct b
      | |- table_blind (match ?x with _ => _ end) => destruct x
      end ].

Lemma blind_fetchNews (rt : Runtime) (cats : list jsstring) (apiKey : jsstring) :
  table_blind (fetchNewsForCategories rt cats apiKey).
Proof.
  unfold fetchNewsForCategories, fetch_category, console_log, console_error. blind.
Qed.

Lemma blind_summarize (a : NewsArticle) (ai : Ai) :
  table_blind (summarizeArticleWithLlama a ai).
Proof. unfold summarizeArticleWithLlama, console_log, console_error. blind. Qed.

Lemma blind_format (rt : Runtime) (to_email : jsstring) (items : list SummarizedItem) :
  table_blind (formatNewsletter rt to_email items).
Proof. unfold formatNewsletter. blind. Qed.

Lemma blind_send (rt : Runtime) (to_email subj body_text : jsstring) (env : Env)
    (fromEmail fromName : jsstring) :
  table_blind (sendEmailWithResend rt to_email subj body_text env fromEmail fromName).
Proof. unfold sendEmailWithResend, console_log, console_error. blind. Qed.

Lemma blind_processUser (rt : Runtime) (user : UserRow) (env : Env) :
  table_blind (processUserNewsletter rt user env).
Proof.
  unfold processUserNewsletter, summarize_into, console_log, console_error.
  apply blind_try_catch; [| intros e; apply blind_emit].
  apply blind_bind; [apply blind_lift | intros categoryList].
  apply blind_bind; [apply blind_emit | intros _].
  apply blind_bind; [apply blind_fetchNews | intros articles].
  destruct articles as [| a rest]; [apply blind_emit |].
  apply blind_bind.
  { apply blind_for_of. intros acc x.
    apply blind_bind; [apply blind_summarize | intros s; apply blind_ret]. }
  intros summaries.
  apply blind_bind; [apply blind_format | intros newsletter].
  apply blind_bind; [apply blind_ask | intros date].
  apply blind_bind; [apply blind_send | intros sent].
  destruct sent; apply blind_emit.
Qed.

Lemma blind_process_all (rt : Runtime) (env : Env) (us : list UserRow) :
  forall (s : State) (t : Table),
    process_all rt env us (with_table t s) = with_table t (process_all rt env us s).
Proof.
  induction us as [| u rest IH]; intros s t; [reflexivity |].
  rewrite !process_all_cons. unfold exec.
  rewrite (blind_processUser rt u env s t). cbn [snd]. apply IH.
Qed.

(** Two states that differ in the table only. *)
Lemma with_table_eq (s s' : State) :
  tick s' = tick s -> trace s' = trace s -> s' = with_table (table s') s.
Proof. destruct s, s'. cbn. intros -> ->. reflexivity. Qed.

Section Emits.

Variable P : event -> Prop.

Lemma emits_ret {A : Type} (a : A) : emits P (ret a).
Proof. intros s. exists []. rewrite app_nil_r. split; [reflexivity | constructor]. Qed.

Lemma emits_throw {A : Type} (e : exn) : emits P (@throw A e).
Proof. intros s. exists []. rewrite app_nil_r. split; [reflexivity | constructor]. Qed.

Lemma emits_lift {A : Type} (c : completion A) : emits P (lift c).
Proof. destruct c; [apply emits_ret | apply emits_throw]. Qed.

Lemma emits_ask {A : Type} (oracle : nat -> A) : emits P (ask oracle).
Proof. intros s. exists []. rewrite app_nil_r. split; [reflexivity | constructor]. Qed.

Lemma emits_emit (e : event) : P e -> emits P (emit e).
Proof. intros H s. exists [e]. split; [reflexivity | constructor; [exact H | constructor]]. Qed.

Lemma emits_bind {A B : Type} (m : M A) (k : A -> M B) :
  emits P m -> (forall a, emits P (k a)) -> emits P (bind m k).
Proof.
  intros Hm Hk s. unfold bind. destruct (Hm s) as (evs & E & F).
  destruct (m s) as [[a | e] s']; cbn [snd] in *.
  - destruct (Hk a s') as (evs' & E' & F'). exists (evs ++ evs').
    rewrite E', E, app_assoc. split; [reflexivity | apply Forall_app; split; assumption].
  - exists evs. split; assumption.
Qed.

Lemma emits_try_catch {A : Type} (m : M A) (h : exn -> M A) :
  emits P m -> (forall e, emits P (h e)) -> emits P (try_catch m h).
Proof.
  intros Hm Hh s. unfold try_catch. destruct (Hm s) as (evs & E & F).
  destruct (m s) as [[a | e] s']; cbn [snd] in *.
  - exists evs. split; assumption.
  - destruct (Hh e s') as (evs' & E' & F'). exists (evs ++ evs').
    rewrite E', E, app_assoc. split; [reflexivity | apply Forall_app; split; assumption].
Qed.

Lemma emits_for_of {A B : Type} (xs : list A) (body : B -> A -> M B) :
  (forall acc x, emits P (body acc x)) -> forall acc, emits P (for_of xs acc body).
Proof.
  intros Hb. induction xs as [| x rest IH]; intros acc; cbn [for_of].
  - apply emits_ret.
  - apply emits_bind; [apply Hb | intros acc'; apply IH].
Qed.

End Emits.

Lemma emits_weaken {A : Type} (P Q : event -> Prop) (m : M A) :
  (forall e, P e -> Q e) -> emits P m -> emits Q m.
Proof.
  intros H Hm s. destruct (Hm s) as (evs & E & F). exists evs.
  split; [exact E | eapply Forall_impl; [exact H | exact F]].
Qed.

Ltac quiet :=
  repeat first
    [ apply emits_ret | apply emits_throw | apply emits_lift | apply emits_ask
    | apply emits_emit; reflexivity
    | apply emits_bind; [| intros ?]
    | apply emits_try_catch; [| intros ?]
    | apply emits_for_of; intros ? ?
    | match goal with
      | |- emits _ (if ?b then _ else _) => destruct b
      | |- emits _ (match ?x with _ => _ end) => destruct x
      end ].

Lemma quiet_fetchNews (rt : Runtime) (cats : list jsstring) (apiKey : jsstring) :
  emits no_delivery (fetchNewsForCategories rt cats apiKey).
Proof.
  unfold fetchNewsForCategories, fetch_category, console_log, console_error. quiet.
Qed.

Lemma quiet_summarize (a : NewsArticle) (ai : Ai) :
  emits no_delivery (summarizeArticleWithLlama a ai).
Proof. unfold summarizeArticleWithLlama, console_log, console_error. quiet. Qed.

Lemma quiet_format (rt : Runtime) (to_email : jsstring) (items : list SummarizedItem) :
  emits no_delivery (formatNewsletter rt to_email items).
Proof. unfold formatNewsletter. quiet. Qed.

Lemma no_delivery_addressed (x : jsstring) (e : event) :
  no_delivery e -> addressed_to x e.
Proof. destruct e; cbn; intros H; [exact I | exact I | discriminate | exact I | exact I]. Qed.

(** [sendEmailWithResend] writes to the address it is given. *)
Lemma send_addressed (rt : Runtime) (to_email subj body_text : jsstring) (env : Env)
    (fromEmail fromName : jsstring) :
  emits (addressed_to to_email)
    (sendEmailWithResend rt to_email subj body_text env fromEmail fromName).
Proof. unfold sendEmailWithResend, console_log, console_error. quiet. Qed.

(** The steps of [processUserNewsletter] after its first line. *)
Ltac digest_steps :=
  apply emits_bind;
    [eapply emits_weaken; [apply no_delivery_addressed | apply quiet_fetchNews] |];
  intros [| ? ?]; [apply emits_emit; exact I |];
  apply emits_bind;
    [apply emits_for_of; intros ? ?;
     apply emits_bind; [| intros ?; apply emits_ret];
     eapply emits_weaken; [apply no_delivery_addressed | apply quiet_summarize] |];
  intros ?;
  apply emits_bind;
    [eapply emits_weaken; [apply no_delivery_addressed | apply quiet_format] |];
  intros ?;
  apply emits_bind; [apply emits_ask | intros ?];
  apply emits_bind; [apply send_addressed | intros [|]];
  apply emits_emit; exact I.

(** Whatever [processUserNewsletter] sends goes to its subscriber. *)
Lemma processUser_addressed (rt : Runtime) (user : UserRow) (env : Env) :
  emits (addressed_to (email user)) (processUserNewsletter rt user env).
Proof.
  unfold processUserNewsletter, summarize_into, console_log, console_error.
  apply emits_try_catch; [| intros e; apply emits_emit; exact I].
  apply emits_bind; [apply emits_lift | intros categoryList].
  apply emits_bind; [apply emits_emit; exact I | intros _].
  digest_steps.
Qed.

Lemma bind_ret {A B : Type} (a : A) (k : A -> M B) : bind (ret a) k = k a.
Proof. reflexivity. Qed.

Lemma bind_throw {A B : Type} (e : exn) (k : A -> M B) : bind (throw e) k = throw e.
Proof. reflexivity. Qed.

(** A guarded block that starts with a line leaves that line. *)
Lemma line_is_left {A : Type} (P : event -> Prop) (e : event) (k : M A)
    (h : exn -> M A) (s : State) :
  emits P k -> (forall x, emits P (h x)) ->
  exists evs,
    trace (snd (try_catch (bind (emit e) (fun _ => k)) h s)) = trace s ++ e :: evs.
Proof.
  intros Hk Hh. unfold try_catch, bind, emit.
  destruct (Hk {| tick := tick s; trace := trace s ++ [e]; table := table s |})
    as (evs & E & _).
  destruct (k {| tick := tick s; trace := trace s ++ [e]; table := table s |})
    as [[x | err] s']; cbn [snd trace] in *.
  - exists evs. rewrite E, <- app_assoc. reflexivity.
  - destruct (Hh err s') as (evs' & E' & _). exists (evs ++ evs').
    rewrite E', E. repeat rewrite <- app_assoc. reflexivity.
Qed.

(** Every call of [processUserNewsletter] leaves a line on the console:
    the line that names the subscriber, or the error of the handler.
    An attempt is always visible in the trace. *)
Lemma processUser_leaves_a_line (rt : Runtime) (user : UserRow) (env : Env) (s : State) :
  exists e evs,
    trace (exec (processUserNewsletter rt user env) s) = trace s ++ e :: evs.
Proof.
  unfold processUserNewsletter, summarize_into, console_log, console_error, exec.
  destruct (categories user) as [cs | bs]; cbn [category_list lift].
  - rewrite bind_ret. eexists.
    eapply (line_is_left (addressed_to (email user))).
    + digest_steps.
    + intros x. apply emits_emit. exact I.
  - rewrite bind_throw. do 2 eexists. reflexivity.
Qed.

Lemma addressed_to_within (us : list UserRow) (u : UserRow) (e : event) :
  In u us -> addressed_to (email u) e -> addressed_within us e.
Proof.
  intros Hu. destruct e; cbn; intros H; try exact I. exists u. split; assumption.
Qed.

Lemma process_all_addressed (rt : Runtime) (env : Env) (all us : list UserRow) :
  (forall u, In u us -> In u all) ->
  forall s : State,
    exists evs, trace (process_all rt env us s) = trace s ++ evs
                /\ Forall (addressed_within all) evs.
Proof.
  induction us as [| u rest IH]; intros Hin s.
  - exists []. rewrite app_nil_r. split; [reflexivity | constructor].
  - rewrite process_all_cons.
    destruct (processUser_addressed rt u env s) as (evs & E & F).
    destruct (IH (fun x Hx => Hin x (or_intror Hx))
                 (exec (processUserNewsletter rt u env) s)) as (evs' & E' & F').
    exists (evs ++ evs'). unfold exec in *. rewrite E', E, app_assoc.
    split; [reflexivity |]. apply Forall_app. split; [| exact F'].
    eapply Forall_impl; [| exact F]. intros e.
    apply addressed_to_within. apply Hin. left. reflexivity.
Qed.

(** C8: a run loads the rows with [active = 1] and processes those and
    no others: every request to the delivery backend is addressed to a
    row that is active, and the rows that are not active are invisible
    to the run, two stores with the same active rows giving the same
    run, request for request and line for line.  The run leaves the
    table as it is. *)
Theorem inactive_subscribers_are_never_processed :
  forall (rt : Runtime) (env : Env) (st : State),
    d1_fault (DB env) (S (tick st)) = None ->
    scheduled rt env st
      = (Normal tt,
         match filter active (rows (table st)) with
         | [] => say (js "No active subscribers found") (queried rt st)
         | (_ :: _) as us =>
             say (G_CHECK ++ js " Cron job completed successfully")
               (process_all rt env us
                  (say (announce (List.length us)) (queried rt st)))
         end)
    /\ table (exec (scheduled rt env) st) = table st
    /\ (exists evs,
          trace (exec (scheduled rt env) st) = trace st ++ evs
          /\ forall auth p,
               In (ResendRequest auth p) evs ->
               exists u, In u (rows (table st)) /\ active u = true
                         /\ to p = [email u])
    /\ forall st' : State,
         tick st' = tick st ->
         trace st' = trace st ->
         filter active (rows (table st')) = filter active (rows (table st)) ->
         trace (exec (scheduled rt env) st') = trace (exec (scheduled rt env) st)
         /\ tick (exec (scheduled rt env) st') = tick (exec (scheduled rt env) st).
Proof.
  intros rt env st Hdb.
  pose proof (scheduled_when_store_answers rt env st Hdb) as E.
  unfold select_active in E. split; [exact E |].
  assert (Q : forall s t, queried rt (with_table t s) = with_table t (queried rt s))
    by reflexivity.
  assert (B : forall us s t l,
             say l (process_all rt env us (with_table t s))
             = with_table t (say l (process_all rt env us s))).
  { intros us s t l. rewrite blind_process_all. reflexivity. }
  split; [| split].
  - unfold exec. rewrite E. cbn [snd].
    destruct (filter active (rows (table st))) as [| u rest]; [reflexivity |].
    rewrite (with_table_eq (queried rt st) (queried rt st) eq_refl eq_refl) at 1.
    change (say ?l (with_table ?t ?s)) with (with_table t (say l s)).
    rewrite B. reflexivity.
  - unfold exec. rewrite E. cbn [snd].
    destruct (filter active (rows (table st))) as [| u rest] eqn:Eus.
    + eexists. split.
      * unfold say, queried. mrun. rewrite <- app_assoc. reflexivity.
      * intros auth p [H | [H | [H | []]]]; discriminate H.
    + destruct (process_all_addressed rt env (u :: rest) (u :: rest)
                  (fun x Hx => Hx)
                  (say (announce (List.length (u :: rest))) (queried rt st)))
        as (evs & Eevs & F).
      eexists. split.
      * unfold say at 1. mrun. rewrite Eevs. unfold say, queried. mrun.
        repeat rewrite <- app_assoc. reflexivity.
      * intros auth p Hin. cbn [app] in Hin.
        destruct Hin as [H | [H | [H | Hin]]]; try discriminate H.
        apply in_app_or in Hin. destruct Hin as [Hin | [H | []]]; [| discriminate H].
        rewrite Forall_forall in F. specialize (F _ Hin). unfold addressed_within in F.
        destruct F as (x & Hx & Hto). exists x.
        rewrite <- Eus in Hx. apply filter_In in Hx. destruct Hx as [Hx Ha].
        repeat split; assumption.
  - intros st' Ht Htr Hact.
    assert (Hdb' : d1_fault (DB env) (S (tick st')) = None) by (rewrite Ht; exact Hdb).
    pose proof (scheduled_when_store_answers rt env st' Hdb') as E'.
    unfold select_active in E'. unfold exec. rewrite E, E'. cbn [snd].
    rewrite Hact. rewrite (with_table_eq st st' Ht Htr), Q.
    destruct (filter active (rows (table st))) as [| u rest].
    + split; reflexivity.
    + change (say ?l (with_table ?t ?s)) with (with_table t (say l s)).
      rewrite B. split; reflexivity.
Qed.

Lemma inactive_subscribers_witness :
  d1_fault (DB (worker_env healthy_db)) (S (tick store)) = None
  /\ active dan = false
  /\ In dan (rows (table store))
  /\ table (exec (scheduled picky_runtime (worker_env healthy_db)) store) = table store
  /\ exists evs,
       trace (exec (scheduled picky_runtime (worker_env healthy_db)) store)
         = trace store ++ evs
       /\ forall auth p,
            In (ResendRequest auth p) evs ->
            exists u, In u (rows (table store)) /\ active u = true
                      /\ to p = [email u].
Proof.
  split; [reflexivity |]. split; [reflexivity |].
  split; [do 2 right; left; reflexivity |].
  pose proof (inactive_subscribers_are_never_processed
                picky_runtime (worker_env healthy_db) store eq_refl) as H.
  split; [exact (proj1 (proj2 H)) | exact (proj1 (proj2 (proj2 H)))].
Defined.

(* ================================================================== *)
(** * Subscription intake *)
(* ================================================================== *)

(** C10, as the claim states it, fails: a request whose body is not
    form data has neither an email nor a category, and it is answered
    with status 500 by the outer handler, not with 400.  The error is
    logged; the database is not reached there either. *)
Lemma request_without_form_is_answered_500 :
  formData request_without_form = Throw unreadable
  /\ handleSubscribe picky_runtime request_without_form (worker_env healthy_db) store
     = (Normal {| body := js "Subscription failed";
                  status := 500;
                  content_type := Some (js "text/plain;charset=UTF-8") |},
        {| tick := tick store;
           trace := trace store
                    ++ [Console ERROR [AStr (js "Subscription error:"); AErr unreadable]];
           table := table store |}).
Proof. split; reflexivity. Qed.

(** C10: a request whose body parses as a form, and whose form has no
    email, or an empty one, or no [categories] entry, is answered with
    status 400 and the plain text of the check, and nothing else
    happens: no statement reaches the database, nothing is logged, and
    the state, the table with it, is the one before the request. *)
Theorem handleSubscribe_rejects_before_touching_the_store :
  forall (rt : Runtime) (request : Request) (env : Env) (st : State) (fd : FormData),
    formData request = Normal fd ->
    entry_truthy (form_get (js "email") fd) = false
    \/ form_getAll (js "categories") fd = [] ->
    handleSubscribe rt request env st
      = (Normal {| body := js "Email and at least one category are required";
                   status := 400;
                   content_type := Some (js "text/plain;charset=UTF-8") |},
         st).
Proof.
  intros rt request env st fd Hfd Hbad.
  unfold handleSubscribe. mrun. rewrite Hfd. mrun.
  destruct Hbad as [He | Hc].
  - rewrite He. reflexivity.
  - rewrite Hc. cbn [List.length Nat.eqb]. rewrite orb_true_r. reflexivity.
Qed.

Lemma handleSubscribe_rejects_witness :
  formData form_without_topics = Normal [(js "email", FormString (js "fay@example.com"))]
  /\ form_getAll (js "categories") [(js "email", FormString (js "fay@example.com"))] = []
  /\ handleSubscribe picky_runtime form_without_topics (worker_env healthy_db) store
     = (Normal {| body := js "Email and at least one category are required";
                  status := 400;
                  content_type := Some (js "text/plain;charset=UTF-8") |},
        store).
Proof.
  split; [reflexivity |]. split; [reflexivity |].
  exact (handleSubscribe_rejects_before_touching_the_store
           picky_runtime form_without_topics (worker_env healthy_db) store
           [(js "email", FormString (js "fay@example.com"))]
           eq_refl (or_intror eq_refl)).
Defined.

(** For comparison, a complete form does reach the store: one upsert,
    one new active row, status 200. *)
Lemma complete_form_is_stored :
  let r := handleSubscribe picky_runtime complete_form (worker_env healthy_db) store in
  option_map status (match fst r with Normal x => Some x | Throw _ => None end) = Some 200
  /\ In (D1Statement UPSERT [js "fay@example.com"; js "technology,science";
                             js "technology,science"]) (trace (snd r))
  /\ rows (table (snd r))
     = rows (table store)
       ++ [{| id := 5; email := js "fay@example.com";
              categories := SqlText (js "technology,science");
              created_at := js "2025-09-28 13:00:00"; active := true |}].
Proof. vm_compute. repeat split; left; reflexivity. Qed.

(** An empty address is rejected as well. *)
Lemma empty_email_is_rejected :
  fst (handleSubscribe picky_runtime form_without_email (worker_env healthy_db) store)
    = Normal (text_response (js "Email and at least one category are required") 400)
  /\ snd (handleSubscribe picky_runtime form_without_email (worker_env healthy_db) store)
     = store.
Proof. split; reflexivity. Qed.

(* ================================================================== *)
(** * Further properties of the article source and the fallback *)
(* ================================================================== *)

Lemma fallback_bound (a : NewsArticle) :
  (List.length (createFallbackSummary a) <= 200)%nat
  /\ firstn 197 (createFallbackSummary a)
     = firstn 197 (or_else (description a) (title a)).
Proof.
  unfold createFallbackSummary. set (d := or_else (description a) (title a)).
  change 200 with (N.of_nat 200). rewrite strlen_le.
  destruct (Nat.leb_spec (List.length d) 200) as [H | H]; cbn [negb].
  - split; [exact H | reflexivity].
  - unfold substring0. change (N.to_nat 197) with 197%nat. split.
    + rewrite length_app, length_firstn.
      change (List.length (js "...")) with 3%nat. lia.
    + rewrite firstn_app, firstn_firstn, length_firstn.
      replace (Init.Nat.min 197 197) with 197%nat by reflexivity.
      replace (197 - Init.Nat.min 197 (List.length d))%nat with 0%nat by lia.
      cbn [firstn]. rewrite app_nil_r. reflexivity.
Qed.

(** X1: the fallback summary never exceeds 200 code units, and its
    first 197 are those of the description, or of the title when the
    description is empty. *)
Theorem createFallbackSummary_is_capped :
  forall a : NewsArticle,
    (List.length (createFallbackSummary a) <= 200)%nat
    /\ firstn 197 (createFallbackSummary a)
       = firstn 197 (or_else (description a) (title a)).
Proof. exact fallback_bound. Qed.

Lemma collected_app (rt : Runtime) (apiKey : jsstring) (l1 l2 : list jsstring) :
  forall t : nat,
    collected rt apiKey t (l1 ++ l2)
      = collected rt apiKey t l1 ++ collected rt apiKey (t + List.length l1) l2.
Proof.
  induction l1 as [| c l1 IH]; intros t; cbn [collected app List.length].
  - rewrite Nat.add_0_r. reflexivity.
  - rewrite IH, <- app_assoc. replace (S t + List.length l1)%nat
      with (t + S (List.length l1))%nat by lia. reflexivity.
Qed.




(** One turn of the loop makes one request, whatever comes back. *)
Lemma fetch_category_requests (rt : Runtime) (apiKey : jsstring)
    (acc : list NewsArticle) (c : jsstring) (st : State) :
  exists evs,
    trace (exec (fetch_category rt apiKey acc c) st) = trace st ++ evs
    /\ news_requests evs = [news_url c apiKey]
    /\ Forall news_or_console evs
    /\ tick (exec (fetch_category rt apiKey acc c) st) = S (tick st)
    /\ table (exec (fetch_category rt apiKey acc c) st) = table st.
Proof.
  unfold fetch_category. mrun.
  destruct (fetch_newsapi rt (tick st) (news_url c apiKey)) as [r | e]; mrun.
  2: { eexists. repeat rewrite <- app_assoc. split; [reflexivity |].
       repeat split; repeat constructor. }
  destruct (resp_ok r); mrun.
  2: { destruct (resp_text r); mrun;
         (eexists; repeat rewrite <- app_assoc; split; [reflexivity |];
          repeat split; repeat constructor). }
  destruct (resp_json r) as [d | e]; mrun.
  2: { eexists. repeat rewrite <- app_assoc. split; [reflexivity |].
       repeat split; repeat constructor. }
  destruct (JS.eqb (data_status d) (js "ok")); [destruct (data_articles d) |]; mrun;
    (eexists; repeat rewrite <- app_assoc; split; [reflexivity |];
     repeat split; repeat constructor).
Qed.

Lemma fetch_loop_requests (rt : Runtime) (apiKey : jsstring) (cats : list jsstring) :
  forall (acc : list NewsArticle) (st : State),
  exists evs,
    trace (exec (for_of cats acc (fetch_category rt apiKey)) st) = trace st ++ evs
    /\ news_requests evs = map (fun c => news_url c apiKey) cats
    /\ Forall news_or_console evs
    /\ tick (exec (for_of cats acc (fetch_category rt apiKey)) st)
       = (tick st + List.length cats)%nat
    /\ table (exec (for_of cats acc (fetch_category rt apiKey)) st) = table st.
Proof.
  induction cats as [| c rest IH]; intros acc st.
  - exists []. cbn. rewrite app_nil_r, Nat.add_0_r. repeat split. constructor.
  - cbn [for_of]. unfold exec, bind.
    destruct (fetch_category_requests rt apiKey acc c st) as (evs & E & R & F & T & B).
    destruct (fetch_category_spec rt apiKey acc c st) as (s1 & E1 & _).
    unfold exec in *. rewrite E1 in *. cbn [snd] in *.
    destruct (IH (acc ++ map (tag_category c) (returned rt apiKey (tick st) c)) s1)
      as (evs' & E' & R' & F' & T' & B').
    exists (evs ++ evs'). rewrite E', E, app_assoc. split; [reflexivity |].
    unfold news_requests in *. rewrite flat_map_app, R, R'.
    split; [reflexivity |]. split; [apply Forall_app; split; assumption |].
    rewrite T', T, B', B. cbn [List.length]. split; [lia | reflexivity].
Qed.

Lemma fetchNews_trace (rt : Runtime) (cats : list jsstring) (apiKey : jsstring)
    (st : State) :
  exists (l : list NewsArticle) (evs : list event) (st' : State),
    fetchNewsForCategories rt cats apiKey st = (Normal l, st')
    /\ trace st' = trace st ++ evs
    /\ news_requests evs = map (fun c => news_url c apiKey) cats
    /\ Forall news_or_console evs.
Proof.
  unfold fetchNewsForCategories.
  destruct (fetch_loop_spec rt apiKey cats [] st) as (s1 & E1).
  destruct (fetch_loop_requests rt apiKey cats [] st) as (evs & E & R & F & _).
  unfold exec in *. rewrite E1 in *. cbn [snd] in *.
  unfold bind at 1. rewrite E1. mrun.
  do 3 eexists. split; [reflexivity |]. cbn [trace]. rewrite E, <- app_assoc.
  split; [reflexivity |]. unfold news_requests in *.
  rewrite flat_map_app, R. cbn. rewrite app_nil_r. split; [reflexivity |].
  apply Forall_app. split; [exact F | repeat constructor].
Qed.

(** X3: [fetchNewsForCategories] makes exactly one request per topic,
    in the order of the topics and with the documented URL, whatever
    the earlier requests gave (network errors, HTTP errors, bodies that
    do not parse); it makes no other request and never throws. *)
Theorem one_request_per_topic :
  forall (rt : Runtime) (cats : list jsstring) (apiKey : jsstring) (st : State),
  exists (l : list NewsArticle) (evs : list event) (st' : State),
    fetchNewsForCategories rt cats apiKey st = (Normal l, st')
    /\ trace st' = trace st ++ evs
    /\ news_requests evs = map (fun c => news_url c apiKey) cats
    /\ Forall news_or_console evs.
Proof. exact fetchNews_trace. Qed.

Lemma firstn_app_full {A : Type} (n : nat) (l1 l2 : list A) :
  (n <= List.length l1)%nat -> firstn n (l1 ++ l2) = firstn n l1.
Proof.
  intros H. rewrite firstn_app. replace (n - List.length l1)%nat with 0%nat by lia.
  cbn [firstn]. apply app_nil_r.
Qed.

(** X4: the cap of ten is applied to the topics in order: once the
    earlier topics have supplied ten articles, the later topics add
    nothing to the result. *)
Theorem later_topics_are_starved :
  forall (rt : Runtime) (first later : list jsstring) (apiKey : jsstring) (st : State),
    (10 <= List.length (collected rt apiKey (tick st) first))%nat ->
    fst (fetchNewsForCategories rt (first ++ later) apiKey st)
      = fst (fetchNewsForCategories rt first apiKey st).
Proof.
  intros rt first later apiKey st H. rewrite !fetchNews_result, collected_app.
  rewrite firstn_app_full by exact H. reflexivity.
Qed.

Lemma later_topics_are_starved_witness :
  (10 <= List.length (collected full_page_runtime (js "key") (tick initial_state)
                        [js "technology"; js "business"]))%nat
  /\ fst (fetchNewsForCategories full_page_runtime
            ([js "technology"; js "business"] ++ [js "science"; js "health"])
            (js "key") initial_state)
     = fst (fetchNewsForCategories full_page_runtime
              [js "technology"; js "business"] (js "key") initial_state).
Proof.
  assert (H : (10 <= List.length (collected full_page_runtime (js "key")
                                    (tick initial_state)
                                    [js "technology"; js "business"]))%nat)
    by (vm_compute; lia).
  split; [exact H |].
  exact (later_topics_are_starved full_page_runtime [js "technology"; js "business"]
           [js "science"; js "health"] (js "key") initial_state H).
Defined.

(* ================================================================== *)
(** * Further properties of the digest composer *)
(* ================================================================== *)

Lemma group_from_app (l1 l2 : list SummarizedItem) :
  forall acc : ownprops (list SummarizedItem),
    group_from acc (l1 ++ l2)
      = match group_from acc l1 with
        | Normal o => group_from o l2
        | Throw e => Throw e
        end.
Proof.
  induction l1 as [| i l1 IH]; intros acc; cbn [group_from app]; [reflexivity |].
  destruct (group_step acc i); [apply IH | reflexivity].
Qed.

(** A step on an inherited name finds the inherited value and throws. *)
Lemma group_step_inherited (done : list SummarizedItem) (item : SummarizedItem) :
  Forall (fun i => inherited (item_category i) = false) done ->
  inherited (item_category item) = true ->
  group_step (sections done) item
    = Throw (TypeError "byCategory[item.category].push is not a function").
Proof.
  intros Hdone Hinh. unfold group_step, obj_get.
  assert (A : assoc (item_category item) (sections done) = None).
  { apply assoc_map_notin. intros H. apply (proj1 (first_seen_In _ _)) in H.
    apply in_map_iff in H. destruct H as (i & E & Hi).
    rewrite Forall_forall in Hdone. specialize (Hdone i Hi). congruence. }
  rewrite A, Hinh. cbn iota. rewrite A. reflexivity.
Qed.

(** The items before the first one that names an inherited property. *)
Lemma first_inherited (items : list SummarizedItem) :
  existsb (fun i => inherited (item_category i)) items = true ->
  exists good bad rest,
    items = good ++ bad :: rest
    /\ Forall (fun i => inherited (item_category i) = false) good
    /\ inherited (item_category bad) = true.
Proof.
  induction items as [| i items IH]; cbn [existsb]; [discriminate |].
  destruct (inherited (item_category i)) eqn:E; cbn [orb].
  - intros _. exists [], i, items. repeat split; [constructor | exact E].
  - intros H. destruct (IH H) as (good & bad & rest & -> & Hg & Hb).
    exists (i :: good), bad, rest. repeat split; [constructor; assumption | exact Hb].
Qed.

Lemma existsb_false_Forall (items : list SummarizedItem) :
  existsb (fun i => inherited (item_category i)) items = false ->
  Forall (fun i => inherited (item_category i) = false) items.
Proof.
  induction items as [| i items IH]; cbn [existsb]; [constructor |].
  intros H. apply orb_false_iff in H. destruct H as [Hi H].
  constructor; [exact Hi | exact (IH H)].
Qed.

Lemma group_by_category_outcome (items : list SummarizedItem) :
  group_by_category items
    = if existsb (fun i => inherited (item_category i)) items
      then Throw (TypeError "byCategory[item.category].push is not a function")
      else Normal (sections items).
Proof.
  destruct (existsb (fun i => inherited (item_category i)) items) eqn:E.
  - destruct (first_inherited items E) as (good & bad & rest & -> & Hg & Hb).
    unfold group_by_category. rewrite group_from_app.
    change (group_from [] good) with (group_from (sections []) good).
    rewrite (group_from_sections good [] Hg). cbn [app group_from].
    rewrite (group_step_inherited good bad Hg Hb). reflexivity.
  - apply group_by_category_sections, existsb_false_Forall, E.
Qed.

(** X5: [formatNewsletter] fails exactly when some item's topic is the
    name of a property every object inherits (constructor, toString,
    __proto__, ...): then it throws the TypeError of the failed [push];
    in every other case it returns the digest text. *)
Theorem formatNewsletter_throws_exactly_on_inherited_names :
  forall (rt : Runtime) (to_email : jsstring) (items : list SummarizedItem)
         (st : State),
    fst (formatNewsletter rt to_email items st)
      = if existsb (fun i => inherited (item_category i)) items
        then Throw (TypeError "byCategory[item.category].push is not a function")
        else Normal (newsletter_header (Date_toDateString rt (tick st))
                     ++ render_categories (sections items)
                     ++ newsletter_footer).
Proof.
  intros rt to_email items st. unfold formatNewsletter. mrun.
  rewrite group_by_category_outcome.
  destruct (existsb (fun i => inherited (item_category i)) items); reflexivity.
Qed.

Lemma insert_index_perm (n : N) (k : jsstring) (l : list (N * jsstring)) :
  Permutation (insert_index n k l) ((n, k) :: l).
Proof.
  induction l as [| [m k'] l IH]; cbn [insert_index]; [reflexivity |].
  destruct (n <? m); [reflexivity |].
  rewrite IH. apply perm_swap.
Qed.

Lemma index_keys_perm (ks : list jsstring) :
  Permutation (map snd (index_keys ks)) (filter (fun k => negb (is_name k)) ks).
Proof.
  induction ks as [| k ks IH]; cbn [index_keys filter]; [reflexivity |].
  unfold is_name at 1. destruct (array_index k) as [n |]; cbn [negb].
  - rewrite insert_index_perm. cbn [map snd]. apply perm_skip. exact IH.
  - exact IH.
Qed.

Lemma filter_split_perm {A : Type} (f : A -> bool) (l : list A) :
  Permutation (filter (fun x => negb (f x)) l ++ filter f l) l.
Proof.
  induction l as [| x l IH]; cbn [filter]; [reflexivity |].
  destruct (f x); cbn [negb app].
  - rewrite <- Permutation_middle. apply perm_skip. exact IH.
  - apply perm_skip. exact IH.
Qed.

(** [Object.keys] enumerates every own key once. *)
Lemma Object_keys_perm {V : Type} (o : ownprops V) :
  Permutation (Object_keys o) (map fst o).
Proof.
  unfold Object_keys. rewrite index_keys_perm. apply filter_split_perm.
Qed.

Lemma flat_map_app_perm {A B : Type} (g h : A -> list B) (l : list A) :
  Permutation (flat_map (fun c => g c ++ h c) l) (flat_map g l ++ flat_map h l).
Proof.
  induction l as [| c l IH]; cbn [flat_map]; [reflexivity |].
  rewrite IH. repeat rewrite <- app_assoc. apply Permutation_app_head.
  repeat rewrite app_assoc. apply Permutation_app_tail. apply Permutation_app_comm.
Qed.

Lemma flat_map_one (k : jsstring) (i : SummarizedItem) (keys : list jsstring) :
  NoDup keys -> In k keys ->
  flat_map (fun c => if JS.eqb k c then [i] else []) keys = [i].
Proof.
  induction keys as [| c keys IH]; intros ND Hin; [contradiction |].
  inversion ND as [| ? ? Hc ND']; subst. cbn [flat_map].
  destruct (JS.eqb k c) eqn:E.
  - apply eqb_eq in E. subst c. cbn [app]. f_equal.
    clear IH Hin ND ND'. induction keys as [| c keys IH]; [reflexivity |].
    cbn [flat_map]. destruct (JS.eqb k c) eqn:E.
    + apply eqb_eq in E. subst c. exfalso. apply Hc. left. reflexivity.
    + apply IH. intros H. apply Hc. right. exact H.
  - apply eqb_neq in E. destruct Hin as [H | H]; [congruence |].
    exact (IH ND' H).
Qed.

(** Sections over keys that cover the topics, each once, hold every
    item exactly once. *)
Lemma sections_partition (keys : list jsstring) (items : list SummarizedItem) :
  NoDup keys ->
  (forall i, In i items -> In (item_category i) keys) ->
  Permutation (flat_map (fun c => items_of c items) keys) items.
Proof.
  intros ND. induction items as [| i items IH]; intros Hcover.
  - clear ND Hcover. induction keys as [| c keys IHk]; [reflexivity | exact IHk].
  - assert (E : forall c, items_of c (i :: items)
                         = (if JS.eqb (item_category i) c then [i] else [])
                           ++ items_of c items).
    { intros c. unfold items_of. cbn [filter].
      destruct (JS.eqb (item_category i) c); reflexivity. }
    rewrite (flat_map_ext _ _ E), flat_map_app_perm.
    rewrite flat_map_one; [| exact ND | apply Hcover; left; reflexivity].
    cbn [app]. apply perm_skip. apply IH.
    intros x Hx. apply Hcover. right. exact Hx.
Qed.

Lemma render_categories_by_keys (items : list SummarizedItem) :
  render_categories (sections items)
    = flat_map (fun c => render_category c (items_of c items))
               (Object_keys (sections items)).
Proof.
  unfold render_categories. rewrite !flat_map_concat_map. f_equal.
  apply map_ext_in. intros c Hc.
  assert (K : In c (first_seen (map item_category items))).
  { apply (Permutation_in _ (Object_keys_perm (sections items))) in Hc.
    unfold sections in Hc. rewrite map_map, map_id in Hc. exact Hc. }
  unfold own_value, sections.
  rewrite (assoc_map_in (fun c => items_of c items) _ c K). reflexivity.
Qed.

(** X6: whatever the topics are called, as long as none names an
    inherited property, the digest has one section per distinct topic,
    every item appears in exactly one section, and each section lists
    the items of its topic in arrival order: composition neither drops
    nor repeats an item.  Only the order of the sections may depart
    from the order of first sight. *)
Theorem digest_holds_every_item_once :
  forall (rt : Runtime) (to_email : jsstring) (items : list SummarizedItem)
         (st : State),
    Forall (fun i => inherited (item_category i) = false) items ->
    exists keys : list jsstring,
      Permutation keys (first_seen (map item_category items))
      /\ fst (formatNewsletter rt to_email items st)
         = Normal (newsletter_header (Date_toDateString rt (tick st))
                   ++ flat_map (fun c => render_category c (items_of c items)) keys
                   ++ newsletter_footer)
      /\ Permutation (flat_map (fun c => items_of c items) keys) items.
Proof.
  intros rt to_email items st H.
  exists (Object_keys (sections items)).
  assert (P : Permutation (Object_keys (sections items))
                (first_seen (map item_category items))).
  { rewrite Object_keys_perm. unfold sections. rewrite map_map, map_id.
    reflexivity. }
  split; [exact P |]. split.
  - unfold formatNewsletter. mrun. rewrite (group_by_category_sections items H).
    mrun. rewrite render_categories_by_keys. reflexivity.
  - apply sections_partition.
    + apply (Permutation_NoDup (Permutation_sym P)). apply first_seen_NoDup.
    + intros i Hi. apply (Permutation_in _ (Permutation_sym P)).
      apply first_seen_In. apply in_map. exact Hi.
Qed.

Lemma digest_holds_every_item_once_witness :
  Forall (fun i => inherited (item_category i) = false)
    [tech_item_1; numbered_item; tech_item_2]
  /\ exists keys : list jsstring,
       Permutation keys [js "technology"; js "1"]
       /\ fst (formatNewsletter withdrawn_runtime (js "a@x.com")
                 [tech_item_1; numbered_item; tech_item_2] initial_state)
          = Normal (newsletter_header (js "Sun Sep 28 2025")
                    ++ flat_map (fun c => render_category c
                                   (items_of c [tech_item_1; numbered_item; tech_item_2]))
                                keys
                    ++ newsletter_footer)
       /\ Permutation
            (flat_map (fun c => items_of c [tech_item_1; numbered_item; tech_item_2]) keys)
            [tech_item_1; numbered_item; tech_item_2].
Proof.
  assert (H : Forall (fun i => inherited (item_category i) = false)
                [tech_item_1; numbered_item; tech_item_2])
    by (repeat constructor).
  split; [exact H |].
  exact (digest_holds_every_item_once withdrawn_runtime (js "a@x.com")
           [tech_item_1; numbered_item; tech_item_2] initial_state H).
Defined.

(* ================================================================== *)
(** * From the digest text to the HTML body *)
(* ================================================================== *)

Lemma replace_bold_cons (c : N) (tl : jsstring) :
  replace_bold (c :: tl)
    = match opening c tl with
      | Some (inner, rest) =>
          js "<strong>" ++ inner ++ js "</strong>" ++ replace_bold rest
      | None => c :: replace_bold tl
      end.
Proof.
  unfold replace_bold at 1. cbn [List.length bold]. fold (opening c tl).
  destruct (opening c tl) as [[inner rest] |] eqn:E.
  - do 3 f_equal. apply replace_bold_fuel.
    unfold opening in E. destruct (c =? 42); [| discriminate].
    destruct tl as [| c2 rest0]; [discriminate |].
    destruct (c2 =? 42); [| discriminate].
    apply find_close_shorter in E. cbn [List.length]. lia.
  - reflexivity.
Qed.

Lemma replace_bold_prefix (pre s : jsstring) :
  star_free pre = true -> replace_bold (pre ++ s) = pre ++ replace_bold s.
Proof.
  induction pre as [| c pre IH]; cbn [star_free forallb app]; [reflexivity |].
  intros H. apply andb_true_iff in H. destruct H as [Hc H].
  rewrite replace_bold_cons. unfold opening.
  destruct (c =? 42); [discriminate |]. rewrite (IH H). reflexivity.
Qed.

Lemma find_close_plain (t post : jsstring) :
  star_free t = true -> single_line t = true ->
  find_close (t ++ 42 :: 42 :: post) = Some (t, post).
Proof.
  induction t as [| c t IH]; cbn [star_free single_line forallb app find_close].
  - intros _ _. reflexivity.
  - intros H1 H2. apply andb_true_iff in H1. destruct H1 as [Hc H1].
    apply andb_true_iff in H2. destruct H2 as [Hl H2].
    destruct (c =? 42); [discriminate |].
    destruct (is_line_terminator c); [discriminate |].
    rewrite (IH H1 H2). reflexivity.
Qed.

(** A starred, one-line text becomes a [strong] element, and the
    replacement goes on after it. *)
Lemma replace_bold_marked (t post : jsstring) :
  star_free t = true -> single_line t = true ->
  replace_bold (42 :: 42 :: t ++ 42 :: 42 :: post)
    = js "<strong>" ++ t ++ js "</strong>" ++ replace_bold post.
Proof.
  intros H1 H2. rewrite replace_bold_cons. unfold opening.
  change (42 =? 42) with true. cbv iota.
  rewrite (find_close_plain t post H1 H2). reflexivity.
Qed.

Lemma replace_newlines_app (a b : jsstring) :
  replace_newlines (a ++ b) = replace_newlines a ++ replace_newlines b.
Proof. apply flat_map_app. Qed.

Lemma replace_newlines_single_line (s : jsstring) :
  single_line s = true -> replace_newlines s = s.
Proof.
  induction s as [| c s IH]; cbn [single_line forallb]; [reflexivity |].
  intros H. apply andb_true_iff in H. destruct H as [Hc H].
  unfold replace_newlines. cbn [flat_map]. fold (replace_newlines s).
  unfold is_line_terminator in Hc.
  destruct (c =? 10); [discriminate |]. rewrite (IH H). reflexivity.
Qed.

Lemma replace_newlines_star_free (s : jsstring) :
  star_free s = true -> star_free (replace_newlines s) = true.
Proof.
  induction s as [| c s IH]; cbn [star_free forallb]; [reflexivity |].
  intros H. apply andb_true_iff in H. destruct H as [Hc H].
  unfold replace_newlines. cbn [flat_map]. fold (replace_newlines s).
  unfold star_free in *. rewrite forallb_app, (IH H), andb_true_r.
  destruct (c =? 10); [reflexivity |]. cbn [forallb]. rewrite Hc. reflexivity.
Qed.

Lemma star_free_app (a b : jsstring) :
  star_free (a ++ b) = star_free a && star_free b.
Proof. apply forallb_app. Qed.

Lemma digits_star_free (d : Decimal.uint) :
  star_free (bytes_of_string (NilEmpty.string_of_uint d)) = true.
Proof. induction d; cbn; auto. Qed.

Lemma of_N_star_free (n : N) : star_free (of_N n) = true.
Proof.
  unfold of_N, NilZero.string_of_uint.
  destruct (N.to_uint n) eqn:E; try apply digits_star_free. reflexivity.
Qed.

Lemma of_N_newline_free (n : N) : replace_newlines (of_N n) = of_N n.
Proof.
  apply replace_newlines_single_line.
  unfold of_N, NilZero.string_of_uint.
  assert (D : forall d, single_line (bytes_of_string (NilEmpty.string_of_uint d)) = true)
    by (induction d; cbn; auto).
  destruct (N.to_uint n); try apply D. reflexivity.
Qed.

(** One item of the digest, converted, whatever follows it. *)
Lemma html_of_item (index : nat) (item : SummarizedItem) (post : jsstring) :
  tidy_item item = true ->
  replace_bold (replace_newlines (render_item index item ++ post))
    = html_item index item ++ replace_bold (replace_newlines post).
Proof.
  unfold tidy_item. intros H.
  apply andb_true_iff in H. destruct H as [H Hu].
  apply andb_true_iff in H. destruct H as [H Hsrc].
  apply andb_true_iff in H. destruct H as [H Hs].
  apply andb_true_iff in H. destruct H as [Ht Hl].
  unfold render_item, html_item.
  repeat rewrite <- app_assoc. repeat rewrite replace_newlines_app.
  rewrite of_N_newline_free, (replace_newlines_single_line _ Hl).
  change (replace_newlines (js ". **")) with (js ". " ++ [42; 42]).
  change (replace_newlines (js "**")) with [42; 42].
  change (replace_newlines NL) with (js "<br>").
  change (replace_newlines (js "   ")) with (js "   ").
  change (replace_newlines (js "   Source: ")) with (js "   Source: ").
  change (replace_newlines (js "   Read more: ")) with (js "   Read more: ").
  repeat rewrite <- app_assoc.
  rewrite (replace_bold_prefix (of_N (N.of_nat index + 1))) by apply of_N_star_free.
  rewrite (replace_bold_prefix (js ". ")) by reflexivity.
  cbn [app]. rewrite (replace_bold_marked _ _ Ht Hl).
  rewrite (replace_bold_prefix (js "<br>")) by reflexivity.
  rewrite (replace_bold_prefix (js "   ")) by reflexivity.
  rewrite (replace_bold_prefix (replace_newlines (summary item)))
    by (apply replace_newlines_star_free; assumption).
  rewrite (replace_bold_prefix (js "<br>")) by reflexivity.
  rewrite (replace_bold_prefix (js "   Source: ")) by reflexivity.
  rewrite (replace_bold_prefix (replace_newlines (source_name (article item))))
    by (apply replace_newlines_star_free; assumption).
  rewrite (replace_bold_prefix (js "<br>")) by reflexivity.
  rewrite (replace_bold_prefix (js "   Read more: ")) by reflexivity.
  rewrite (replace_bold_prefix (replace_newlines (url (article item))))
    by (apply replace_newlines_star_free; assumption).
  rewrite (replace_bold_prefix (js "<br>")) by reflexivity.
  rewrite (replace_bold_prefix (js "<br>")) by reflexivity.
  change (js ". <strong>") with (js ". " ++ js "<strong>").
  change (js "</strong><br>   ") with (js "</strong>" ++ js "<br>" ++ js "   ").
  change (js "<br>   Source: ") with (js "<br>" ++ js "   Source: ").
  change (js "<br>   Read more: ") with (js "<br>" ++ js "   Read more: ").
  change (js "<br><br>") with (js "<br>" ++ js "<br>").
  repeat rewrite <- app_assoc. reflexivity.
Qed.

(** The items of a section, converted, whatever follows them. *)
Lemma html_of_items (items : list SummarizedItem) :
  forall (index : nat) (post : jsstring),
    forallb tidy_item items = true ->
    replace_bold (replace_newlines (render_items index items ++ post))
      = html_items index items ++ replace_bold (replace_newlines post).
Proof.
  induction items as [| item rest IH]; intros index post H;
    cbn [render_items html_items forallb app] in *; [reflexivity |].
  apply andb_true_iff in H. destruct H as [Hi H].
  rewrite <- !app_assoc, (html_of_item index item _ Hi), (IH _ _ H).
  reflexivity.
Qed.

(** Uppercasing brings no star into a text: no uppercase form holds
    one. *)
Lemma utf16_units_star_free (cp : N) : cp <> 42 -> star_free (utf16_units cp) = true.
Proof.
  intros H. unfold utf16_units. destruct (cp <? 65536) eqn:E; cbn [star_free forallb].
  - apply N.eqb_neq in H. rewrite H. reflexivity.
  - assert (A : 55296 + N.shiftr (cp - 65536) 10 <> 42) by lia.
    assert (B : 56320 + N.land (cp - 65536) 1023 <> 42) by lia.
    apply N.eqb_neq in A, B. rewrite A, B. reflexivity.
Qed.

Lemma upper_code_point_star_free (cp : N) :
  cp <> 42 -> star_free (flat_map utf16_units (upper_code_point cp)) = true.
Proof.
  intros H. unfold upper_code_point.
  destruct (find (fun e => fst e =? cp) uppercase_expansions) as [[k l] |] eqn:X.
  - apply find_some in X. destruct X as [X _].
    assert (T : forallb (fun e => star_free (flat_map utf16_units (snd e)))
                  uppercase_expansions = true) by (vm_compute; reflexivity).
    rewrite forallb_forall in T. exact (T _ X).
  - destruct (find (in_run cp) uppercase_runs) as [[[[lo hi] step] to] |] eqn:R.
    + apply find_some in R. destruct R as [R _].
      assert (T : forallb (fun r => 42 <? snd r) uppercase_runs = true)
        by (vm_compute; reflexivity).
      rewrite forallb_forall in T. specialize (T _ R). cbn [snd] in T.
      apply N.ltb_lt in T. cbn [flat_map]. rewrite app_nil_r.
      apply utf16_units_star_free. lia.
    + cbn [flat_map]. rewrite app_nil_r. apply utf16_units_star_free. exact H.
Qed.

Lemma code_points_pair (c d : N) (rest : jsstring) :
  code_points (c :: d :: rest)
    = if is_high_surrogate c && is_low_surrogate d
      then (65536 + (c - 55296) * 1024 + (d - 56320)) :: code_points rest
      else c :: code_points (d :: rest).
Proof. reflexivity. Qed.

Lemma code_points_star_free (n : nat) :
  forall s : jsstring,
    (List.length s <= n)%nat -> star_free s = true ->
    Forall (fun cp => cp <> 42) (code_points s).
Proof.
  induction n as [| n IH]; intros s Hn Hs.
  - destruct s; [constructor | cbn in Hn; lia].
  - destruct s as [| c rest]; [constructor |].
    cbn [star_free forallb] in Hs. apply andb_true_iff in Hs. destruct Hs as [Hc Hs].
    apply negb_true_iff, N.eqb_neq in Hc. cbn [List.length] in Hn.
    destruct rest as [| d rest']; [repeat constructor; exact Hc |].
    rewrite code_points_pair.
    + destruct (is_high_surrogate c && is_low_surrogate d).
      * constructor; [lia |]. apply IH; [cbn [List.length] in Hn; lia |].
        cbn [forallb] in Hs. apply andb_true_iff in Hs. exact (proj2 Hs).
      * constructor; [exact Hc |]. apply IH; [lia | exact Hs].
Qed.

Lemma toUpperCase_star_free (s : jsstring) :
  star_free s = true -> star_free (toUpperCase s) = true.
Proof.
  intros H. unfold toUpperCase.
  pose proof (code_points_star_free (List.length s) s (le_n _) H) as F.
  induction F as [| cp l Hcp _ IH]; [reflexivity |].
  cbn [flat_map]. rewrite star_free_app, IH, andb_true_r.
  apply upper_code_point_star_free. exact Hcp.
Qed.

Lemma category_heading_star_free (c : jsstring) :
  star_free c = true -> star_free (category_heading c) = true.
Proof.
  intros H. unfold category_heading.
  rewrite !star_free_app, (toUpperCase_star_free c H). reflexivity.
Qed.

(** One section, converted, whatever follows it. *)
Lemma html_of_section (c : jsstring) (items : list SummarizedItem) (post : jsstring) :
  star_free c = true -> forallb tidy_item items = true ->
  replace_bold (replace_newlines (render_category c items ++ post))
    = (replace_newlines (category_heading c) ++ html_items 0 items)
      ++ replace_bold (replace_newlines post).
Proof.
  intros Hc Hi.
  replace (render_category c items ++ post)
    with (category_heading c ++ render_items 0 items ++ post)
    by (unfold render_category, category_heading; repeat rewrite <- app_assoc;
        reflexivity).
  rewrite replace_newlines_app, replace_bold_prefix
    by (apply replace_newlines_star_free, category_heading_star_free; exact Hc).
  rewrite (html_of_items items 0 post Hi), app_assoc. reflexivity.
Qed.

Lemma html_of_sections (items : list SummarizedItem) (keys : list jsstring)
    (post : jsstring) :
  Forall (fun c => star_free c = true) keys ->
  forallb tidy_item items = true ->
  replace_bold (replace_newlines
                  (flat_map (fun c => render_category c (items_of c items)) keys
                   ++ post))
    = flat_map (fun c => replace_newlines (category_heading c)
                         ++ html_items 0 (items_of c items)) keys
      ++ replace_bold (replace_newlines post).
Proof.
  intros Hk Hi. induction Hk as [| c keys Hc _ IH]; cbn [flat_map app]; [reflexivity |].
  rewrite <- !app_assoc, html_of_section, IH, <- !app_assoc; [reflexivity | exact Hc |].
  unfold items_of. rewrite forallb_forall in *. intros i Hin.
  apply filter_In in Hin. apply Hi. exact (proj1 Hin).
Qed.

(** X7: the bold markers [formatNewsletter] puts around a title are
    what [sendEmailWithResend] turns into a [strong] element.  When no
    topic names an inherited property, no topic, field or date holds a
    star and titles are on one line, the HTML conversion of the whole
    digest (line breaks to [br], starred text to [strong]) is the
    header, then for every section its heading and, item by item, the
    number, the title in [strong], the summary, the source and the
    link, then the footer. *)
Theorem digest_items_convert_to_html :
  forall (rt : Runtime) (to_email : jsstring) (items : list SummarizedItem)
         (st : State),
    Forall (fun i => inherited (item_category i) = false) items ->
    forallb tidy_item items = true ->
    forallb (fun i => star_free (item_category i)) items = true ->
    star_free (Date_toDateString rt (tick st)) = true ->
    exists (keys : list jsstring) (digest : jsstring),
      Permutation keys (first_seen (map item_category items))
      /\ fst (formatNewsletter rt to_email items st) = Normal digest
      /\ replace_bold (replace_newlines digest)
         = html_digest (Date_toDateString rt (tick st)) keys items.
Proof.
  intros rt to_email items st Hinh Htidy Htopics Hdate.
  exists (Object_keys (sections items)).
  assert (P : Permutation (Object_keys (sections items))
                (first_seen (map item_category items))).
  { rewrite Object_keys_perm. unfold sections. rewrite map_map, map_id.
    reflexivity. }
  eexists. split; [exact P |]. split.
  { unfold formatNewsletter. mrun. rewrite (group_by_category_sections items Hinh).
    mrun. rewrite render_categories_by_keys. reflexivity. }
  assert (Hk : Forall (fun c => star_free c = true) (Object_keys (sections items))).
  { apply Forall_forall. intros c Hc.
    apply (Permutation_in _ P), first_seen_In, in_map_iff in Hc.
    destruct Hc as (i & <- & Hi).
    rewrite forallb_forall in Htopics. exact (Htopics i Hi). }
  unfold html_digest.
  rewrite replace_newlines_app, replace_bold_prefix.
  2: { apply replace_newlines_star_free. unfold newsletter_header.
       rewrite !star_free_app, Hdate. reflexivity. }
  rewrite (html_of_sections items _ newsletter_footer Hk Htidy).
  assert (F : replace_bold (replace_newlines newsletter_footer)
              = replace_newlines newsletter_footer) by (vm_compute; reflexivity).
  rewrite F. reflexivity.
Qed.

Lemma digest_items_convert_to_html_witness :
  Forall (fun i => inherited (item_category i) = false) [tech_item_1; tech_item_2]
  /\ forallb tidy_item [tech_item_1; tech_item_2] = true
  /\ forallb (fun i => star_free (item_category i)) [tech_item_1; tech_item_2] = true
  /\ exists (keys : list jsstring) (digest : jsstring),
       Permutation keys [js "technology"]
       /\ fst (formatNewsletter withdrawn_runtime (js "a@x.com")
                 [tech_item_1; tech_item_2] initial_state) = Normal digest
       /\ replace_bold (replace_newlines digest)
          = html_digest (js "Sun Sep 28 2025") keys [tech_item_1; tech_item_2].
Proof.
  assert (H : Forall (fun i => inherited (item_category i) = false)
                [tech_item_1; tech_item_2])
    by (repeat constructor).
  split; [exact H |]. split; [reflexivity |]. split; [reflexivity |].
  exact (digest_items_convert_to_html withdrawn_runtime (js "a@x.com")
           [tech_item_1; tech_item_2] initial_state H eq_refl eq_refl eq_refl).
Defined.

(** A star in a topic is enough to lose this: the heading's pair of
    stars pairs with the first title's, so that the [strong] element
    holds the rule under the heading and the number, and the title
    stays between bare stars. *)
Example starred_topic_takes_the_title_s_stars :
  forallb tidy_item [starred_item] = true
  /\ exists digest : jsstring,
       fst (formatNewsletter withdrawn_runtime (js "a@x.com") [starred_item]
              initial_state) = Normal digest
       /\ replace_bold (replace_newlines digest)
          = replace_newlines (newsletter_header (js "Sun Sep 28 2025"))
            ++ G_NEWS ++ js " AI<strong><br>" ++ repeat_str G_RULE 40
            ++ js "<br><br>1. </strong>Chips get smaller**<br>   "
            ++ js "A foundry starts two nanometre production."
            ++ js "<br>   Source: " ++ source_name (article starred_item)
            ++ js "<br>   Read more: " ++ url (article starred_item)
            ++ js "<br><br>" ++ replace_newlines newsletter_footer.
Proof. split; [reflexivity |]. eexists. split; vm_compute; reflexivity. Qed.

(* ================================================================== *)
(** * What one subscriber and one run may cost *)
(* ================================================================== *)

Lemma count_app (p : event -> bool) (a b : list event) :
  count p (a ++ b) = (count p a + count p b)%nat.
Proof. unfold count. rewrite filter_app, length_app. reflexivity. Qed.

Section AtMost.

Variable p : event -> bool.

(** Events that are all of another kind count for nothing. *)
Lemma at_most_quiet {A : Type} (m : M A) :
  emits (fun e => p e = false) m -> at_most p 0 m.
Proof.
  intros H s. destruct (H s) as (evs & E & F). exists evs. split; [exact E |].
  clear E. unfold count. induction F as [| e l He _ IH]; cbn [filter]; [reflexivity |].
  rewrite He. exact IH.
Qed.

Lemma at_most_weaken {A : Type} (n n' : nat) (m : M A) :
  (n <= n')%nat -> at_most p n m -> at_most p n' m.
Proof.
  intros Hn H s. destruct (H s) as (evs & E & C). exists evs.
  split; [exact E | lia].
Qed.

Lemma at_most_emit (e : event) : at_most p 1 (emit e).
Proof.
  intros s. exists [e]. split; [reflexivity |].
  unfold count. cbn [filter]. destruct (p e); cbn; lia.
Qed.

(** Sequencing adds the bounds; the bound of what follows may rest on
    a fact [Q] about the value passed on. *)
Lemma at_most_bind {A B : Type} (Q : A -> Prop) (n1 n2 : nat) (m : M A)
    (k : A -> M B) :
  at_most p n1 m ->
  (forall s a s', m s = (Normal a, s') -> Q a) ->
  (forall a, Q a -> at_most p n2 (k a)) ->
  at_most p (n1 + n2) (bind m k).
Proof.
  intros Hm HQ Hk s. unfold bind. destruct (Hm s) as (evs & E & C).
  destruct (m s) as [[a | e] s'] eqn:Em; cbn [snd] in *.
  - destruct (Hk a (HQ s a s' Em) s') as (evs' & E' & C').
    exists (evs ++ evs'). rewrite E', E, app_assoc, count_app.
    split; [reflexivity | lia].
  - exists evs. split; [exact E | lia].
Qed.

Lemma at_most_try_catch {A : Type} (n1 n2 : nat) (m : M A) (h : exn -> M A) :
  at_most p n1 m -> (forall e, at_most p n2 (h e)) ->
  at_most p (n1 + n2) (try_catch m h).
Proof.
  intros Hm Hh s. unfold try_catch. destruct (Hm s) as (evs & E & C).
  destruct (m s) as [[a | e] s']; cbn [snd] in *.
  - exists evs. split; [exact E | lia].
  - destruct (Hh e s') as (evs' & E' & C'). exists (evs ++ evs').
    rewrite E', E, app_assoc, count_app. split; [reflexivity | lia].
Qed.

Lemma at_most_for_of {A B : Type} (n : nat) (xs : list A) (body : B -> A -> M B) :
  (forall acc x, at_most p n (body acc x)) ->
  forall acc, at_most p (List.length xs * n) (for_of xs acc body).
Proof.
  intros Hb. induction xs as [| x rest IH]; intros acc; cbn [for_of List.length].
  - intros s. exists []. rewrite app_nil_r. split; [reflexivity | cbn; lia].
  - cbn [Nat.mul].
    apply (at_most_bind (fun _ => True)); [apply Hb | auto | intros acc' _; apply IH].
Qed.

End AtMost.

(** A step without an event of kind [p], before or after a bounded
    one. *)
Lemma at_most_after {A B : Type} (p : event -> bool) (n : nat) (m : M A)
    (k : A -> M B) :
  emits (fun e => p e = false) m -> (forall a, at_most p n (k a)) ->
  at_most p n (bind m k).
Proof.
  intros Hm Hk. apply (at_most_bind p (fun _ => True) 0 n); auto.
  apply at_most_quiet. exact Hm.
Qed.

Lemma at_most_before {A B : Type} (p : event -> bool) (n : nat) (m : M A)
    (k : A -> M B) :
  at_most p n m -> (forall a, emits (fun e => p e = false) (k a)) ->
  at_most p n (bind m k).
Proof.
  intros Hm Hk. apply (at_most_weaken p (n + 0) n); [lia |].
  apply (at_most_bind p (fun _ => True)); auto.
  intros a _. apply at_most_quiet, Hk.
Qed.

Lemma at_most_guarded {A : Type} (p : event -> bool) (n : nat) (m : M A)
    (h : exn -> M A) :
  at_most p n m -> (forall e, emits (fun x => p x = false) (h e)) ->
  at_most p n (try_catch m h).
Proof.
  intros Hm Hh. apply (at_most_weaken p (n + 0) n); [lia |].
  apply at_most_try_catch; [exact Hm |]. intros e. apply at_most_quiet, Hh.
Qed.

(** The events of the parts of [processUserNewsletter], kind by kind. *)
Lemma fetchNews_kinds (p : event -> bool) (rt : Runtime) (cats : list jsstring)
    (apiKey : jsstring) :
  (forall l a, p (Console l a) = false) -> (forall u, p (NewsRequest u) = false) ->
  emits (fun e => p e = false) (fetchNewsForCategories rt cats apiKey).
Proof.
  intros Hc Hn.
  unfold fetchNewsForCategories, fetch_category, console_log, console_error.
  repeat first
    [ apply emits_ret | apply emits_throw | apply emits_lift | apply emits_ask
    | apply emits_emit; first [apply Hc | apply Hn]
    | apply emits_bind; [| intros ?]
    | apply emits_try_catch; [| intros ?]
    | apply emits_for_of; intros ? ?
    | match goal with
      | |- emits _ (if ?b then _ else _) => destruct b
      | |- emits _ (match ?x with _ => _ end) => destruct x
      end ].
Qed.

Lemma summarize_kinds (p : event -> bool) (a : NewsArticle) (ai : Ai) :
  (forall l x, p (Console l x) = false) -> (forall m i, p (AiRun m i) = false) ->
  emits (fun e => p e = false) (summarizeArticleWithLlama a ai).
Proof.
  intros Hc Ha. unfold summarizeArticleWithLlama, console_log, console_error.
  repeat first
    [ apply emits_ret | apply emits_throw | apply emits_lift | apply emits_ask
    | apply emits_emit; first [apply Hc | apply Ha]
    | apply emits_bind; [| intros ?]
    | apply emits_try_catch; [| intros ?]
    | match goal with
      | |- emits _ (if ?b then _ else _) => destruct b
      end ].
Qed.

Lemma format_kinds (p : event -> bool) (rt : Runtime) (to_email : jsstring)
    (items : list SummarizedItem) :
  emits (fun e => p e = false) (formatNewsletter rt to_email items).
Proof.
  unfold formatNewsletter.
  apply emits_bind; [apply emits_ask | intros date].
  apply emits_bind; [apply emits_lift | intros o; apply emits_ret].
Qed.

Lemma send_kinds (p : event -> bool) (rt : Runtime) (to_email subj body_text : jsstring)
    (env : Env) (fromEmail fromName : jsstring) :
  (forall l x, p (Console l x) = false) -> (forall a y, p (ResendRequest a y) = false) ->
  emits (fun e => p e = false)
    (sendEmailWithResend rt to_email subj body_text env fromEmail fromName).
Proof.
  intros Hc Hr. unfold sendEmailWithResend, console_log, console_error.
  repeat first
    [ apply emits_ret | apply emits_throw | apply emits_lift | apply emits_ask
    | apply emits_emit; first [apply Hc | apply Hr]
    | apply emits_bind; [| intros ?]
    | apply emits_try_catch; [| intros ?]
    | match goal with
      | |- emits _ (if ?b then _ else _) => destruct b
      | |- emits _ (match ?x with _ => _ end) => destruct x
      end ].
Qed.

(** One call of the summarizer is one call of the model. *)
Lemma summarize_one_call (a : NewsArticle) (ai : Ai) :
  at_most is_model_call 1 (summarizeArticleWithLlama a ai).
Proof.
  unfold summarizeArticleWithLlama, console_log, console_error.
  apply at_most_guarded.
  2: { intros e. apply emits_bind; [apply emits_emit; reflexivity |].
       intros _. apply emits_ret. }
  apply at_most_after; [apply emits_emit; reflexivity | intros _].
  apply at_most_before; [apply at_most_emit | intros _].
  apply emits_bind; [apply emits_ask | intros answer].
  apply emits_bind; [apply emits_lift | intros response].
  destruct (value_truthy response && value_truthy (get_prop response (js "response"))).
  - apply emits_bind; [apply emits_lift | intros s].
    apply emits_bind; [apply emits_emit; reflexivity | intros _; apply emits_ret].
  - apply emits_bind; [apply emits_emit; reflexivity | intros _; apply emits_ret].
Qed.

(** One call of the delivery adapter is at most one request. *)
Lemma send_one_request (rt : Runtime) (to_email subj body_text : jsstring) (env : Env)
    (fromEmail fromName : jsstring) :
  at_most is_resend_request 1
    (sendEmailWithResend rt to_email subj body_text env fromEmail fromName).
Proof.
  unfold sendEmailWithResend, console_log, console_error.
  apply at_most_guarded.
  2: { intros e. apply emits_bind; [apply emits_emit; reflexivity |].
       intros _. apply emits_ret. }
  do 3 (apply at_most_after; [apply emits_emit; reflexivity | intros _]).
  destruct (usable_key (RESEND_API_KEY env)) as [key |].
  - apply at_most_before; [apply at_most_emit | intros _].
    apply emits_bind; [apply emits_ask | intros answer].
    apply emits_bind; [apply emits_lift | intros r].
    destruct (negb (resp_ok r)).
    + apply emits_bind; [apply emits_lift | intros t].
      apply emits_bind; [apply emits_emit; reflexivity | intros _; apply emits_ret].
    + apply emits_bind; [apply emits_lift | intros v].
      apply emits_bind; [apply emits_emit; reflexivity | intros _].
      apply emits_bind; [apply emits_emit; reflexivity | intros _; apply emits_ret].
  - apply (at_most_weaken _ 0); [lia |]. apply at_most_quiet.
    apply emits_bind; [apply emits_emit; reflexivity | intros _; apply emits_ret].
Qed.

Lemma fetchNews_length (rt : Runtime) (cats : list jsstring) (apiKey : jsstring)
    (s : State) (l : list NewsArticle) (s' : State) :
  fetchNewsForCategories rt cats apiKey s = (Normal l, s') ->
  (List.length l <= 10)%nat.
Proof.
  intros E. pose proof (fetchNews_result rt cats apiKey s) as R.
  rewrite E in R. cbn [fst] in R. apply Normal_inj in R. subst l.
  apply firstn_le_length.
Qed.

(** The model is called at most ten times for one subscriber. *)
Lemma processUser_model_calls (rt : Runtime) (user : UserRow) (env : Env) :
  at_most is_model_call 10 (processUserNewsletter rt user env).
Proof.
  unfold processUserNewsletter, summarize_into, console_log, console_error.
  apply at_most_guarded; [| intros e; apply emits_emit; reflexivity].
  apply at_most_after; [apply emits_lift | intros categoryList].
  apply at_most_after; [apply emits_emit; reflexivity | intros _].
  apply (at_most_weaken _ (0 + 10)); [lia |].
  apply (at_most_bind _ (fun l => (List.length l <= 10)%nat)).
  - apply at_most_quiet. apply fetchNews_kinds; reflexivity.
  - apply fetchNews_length.
  - intros articles Hlen. destruct articles as [| a rest].
    + apply (at_most_weaken _ 0); [lia |]. apply at_most_quiet.
      apply emits_emit. reflexivity.
    + apply at_most_before.
      * apply (at_most_weaken _ (List.length (a :: rest) * 1)); [lia |].
        apply at_most_for_of. intros acc x.
        apply at_most_before; [apply summarize_one_call | intros s; apply emits_ret].
      * intros summaries.
        apply emits_bind; [apply format_kinds | intros newsletter].
        apply emits_bind; [apply emits_ask | intros date].
        apply emits_bind; [apply send_kinds; reflexivity | intros sent].
        destruct sent; apply emits_emit; reflexivity.
Qed.

(** At most one message is sent for one subscriber. *)
Lemma processUser_deliveries (rt : Runtime) (user : UserRow) (env : Env) :
  at_most is_resend_request 1 (processUserNewsletter rt user env).
Proof.
  unfold processUserNewsletter, summarize_into, console_log, console_error.
  apply at_most_guarded; [| intros e; apply emits_emit; reflexivity].
  apply at_most_after; [apply emits_lift | intros categoryList].
  apply at_most_after; [apply emits_emit; reflexivity | intros _].
  apply at_most_after; [apply fetchNews_kinds; reflexivity | intros articles].
  destruct articles as [| a rest].
  - apply (at_most_weaken _ 0); [lia |]. apply at_most_quiet.
    apply emits_emit. reflexivity.
  - apply at_most_after.
    { apply emits_for_of. intros acc x.
      apply emits_bind; [apply summarize_kinds; reflexivity | intros s; apply emits_ret]. }
    intros summaries.
    apply at_most_after; [apply format_kinds | intros newsletter].
    apply at_most_after; [apply emits_ask | intros date].
    apply at_most_before; [apply send_one_request | intros sent].
    destruct sent; apply emits_emit; reflexivity.
Qed.

(** No statement is sent to the database for one subscriber. *)
Lemma processUser_statements (rt : Runtime) (user : UserRow) (env : Env) :
  at_most is_statement 0 (processUserNewsletter rt user env).
Proof.
  apply at_most_quiet.
  unfold processUserNewsletter, summarize_into, console_log, console_error.
  apply emits_try_catch; [| intros e; apply emits_emit; reflexivity].
  apply emits_bind; [apply emits_lift | intros categoryList].
  apply emits_bind; [apply emits_emit; reflexivity | intros _].
  apply emits_bind; [apply fetchNews_kinds; reflexivity | intros articles].
  destruct articles as [| a rest]; [apply emits_emit; reflexivity |].
  apply emits_bind.
  { apply emits_for_of. intros acc x.
    apply emits_bind; [apply summarize_kinds; reflexivity | intros s; apply emits_ret]. }
  intros summaries.
  apply emits_bind; [apply format_kinds | intros newsletter].
  apply emits_bind; [apply emits_ask | intros date].
  apply emits_bind; [apply send_kinds; reflexivity | intros sent].
  destruct sent; apply emits_emit; reflexivity.
Qed.

(** X8: processing one subscriber costs at most ten calls of the
    model and at most one request to the delivery backend, whatever the
    number of topics and whatever the services answer, and sends no
    statement to the database. *)
Theorem one_subscriber_costs_ten_summaries_and_one_message :
  forall (rt : Runtime) (user : UserRow) (env : Env) (st : State),
  exists evs : list event,
    trace (exec (processUserNewsletter rt user env) st) = trace st ++ evs
    /\ (count is_model_call evs <= 10)%nat
    /\ (count is_resend_request evs <= 1)%nat
    /\ count is_statement evs = 0%nat.
Proof.
  intros rt user env st. unfold exec.
  destruct (processUser_model_calls rt user env st) as (evs & E & C1).
  destruct (processUser_deliveries rt user env st) as (evs2 & E2 & C2).
  destruct (processUser_statements rt user env st) as (evs3 & E3 & C3).
  rewrite E in E2, E3. apply app_inv_head in E2, E3. subst evs2 evs3.
  exists evs. repeat split; [exact E | exact C1 | exact C2 | lia].
Qed.

Lemma process_all_costs (rt : Runtime) (env : Env) (us : list UserRow) :
  forall s : State,
  exists evs : list event,
    trace (process_all rt env us s) = trace s ++ evs
    /\ (count is_model_call evs <= 10 * List.length us)%nat
    /\ (count is_resend_request evs <= List.length us)%nat
    /\ count is_statement evs = 0%nat.
Proof.
  induction us as [| u rest IH]; intros s.
  - exists []. rewrite app_nil_r. repeat split; cbn; lia.
  - rewrite process_all_cons.
    destruct (processUser_model_calls rt u env s) as (evs & E & C1).
    destruct (processUser_deliveries rt u env s) as (evs2 & E2 & C2).
    destruct (processUser_statements rt u env s) as (evs3 & E3 & C3).
    rewrite E in E2, E3. apply app_inv_head in E2, E3. subst evs2 evs3.
    destruct (IH (exec (processUserNewsletter rt u env) s)) as (evs' & E' & D1 & D2 & D3).
    exists (evs ++ evs'). unfold exec in *. rewrite E', E, app_assoc, !count_app.
    cbn [List.length]. repeat split; lia.
Qed.

Lemma process_all_table (rt : Runtime) (env : Env) (us : list UserRow) (s : State) :
  table (process_all rt env us s) = table s.
Proof.
  assert (E : s = with_table (table s) s) by (destruct s; reflexivity).
  rewrite E at 1. rewrite blind_process_all. reflexivity.
Qed.

(** What a run leaves behind, the store answering or not. *)
Lemma scheduled_outcome (rt : Runtime) (env : Env) (st : State) :
  scheduled rt env st
    = (Normal tt,
       match d1_fault (DB env) (S (tick st)) with
       | Some e => run_failed rt st e
       | None =>
           match select_active (table st) with
           | [] => say (js "No active subscribers found") (queried rt st)
           | (_ :: _) as us =>
               say (G_CHECK ++ js " Cron job completed successfully")
                 (process_all rt env us
                    (say (announce (List.length us)) (queried rt st)))
           end
       end).
Proof.
  destruct (d1_fault (DB env) (S (tick st))) as [e |] eqn:Hdb.
  - unfold scheduled, d1_all_active, d1_exec, read_table, run_failed, queried,
      trigger_line. mrun. rewrite Hdb. mrun. repeat rewrite <- app_assoc. reflexivity.
  - apply scheduled_when_store_answers. exact Hdb.
Qed.

(** X9: a run never throws, never changes the table, and sends exactly
    one statement to the database, the query for the active
    subscribers.  It sends at most one message per active subscriber
    and calls the model at most ten times per active subscriber. *)
Theorem a_run_is_bounded_by_the_active_subscribers :
  forall (rt : Runtime) (env : Env) (st : State),
  exists (evs : list event) (st' : State),
    scheduled rt env st = (Normal tt, st')
    /\ table st' = table st
    /\ trace st' = trace st ++ evs
    /\ count is_statement evs = 1%nat
    /\ (count is_resend_request evs <= List.length (select_active (table st)))%nat
    /\ (count is_model_call evs <= 10 * List.length (select_active (table st)))%nat.
Proof.
  intros rt env st. rewrite scheduled_outcome.
  destruct (d1_fault (DB env) (S (tick st))) as [e |].
  - do 2 eexists. split; [reflexivity |]. unfold run_failed, queried. mrun.
    rewrite <- app_assoc. repeat split; cbn; lia.
  - destruct (select_active (table st)) as [| u rest].
    + do 2 eexists. split; [reflexivity |]. unfold say, queried. mrun.
      rewrite <- app_assoc. repeat split; cbn; lia.
    + destruct (process_all_costs rt env (u :: rest)
                  (say (announce (List.length (u :: rest))) (queried rt st)))
        as (evs & E & C1 & C2 & C3).
      do 2 eexists. split; [reflexivity |].
      split.
      { unfold say at 1. mrun. rewrite process_all_table. reflexivity. }
      unfold say at 1. mrun. rewrite E. unfold say, queried. mrun.
      repeat rewrite <- app_assoc. split; [reflexivity |].
      change (?a :: ?b :: ?c :: evs ++ ?d) with ([a; b; c] ++ evs ++ d).
      rewrite !count_app. repeat split; cbn in *; lia.
Qed.

(** X10: when the source has nothing for any topic of a subscriber,
    the subscriber is skipped: one request per topic was made, the
    console says that no article was found, and neither the model nor
    the delivery backend is called. *)
Theorem subscriber_without_articles_is_skipped :
  forall (rt : Runtime) (user : UserRow) (env : Env) (st : State)
         (topics : list jsstring),
    category_list (categories user) = Normal topics ->
    collected rt (NEWS_API_KEY env) (tick st) topics = [] ->
    exists (evs : list event) (st' : State),
      processUserNewsletter rt user env st = (Normal tt, st')
      /\ trace st'
         = trace st
           ++ Console LOG [AStr (js "Processing newsletter for " ++ email user
                                 ++ js " with categories: " ++ join (js ", ") topics)]
              :: evs
           ++ [Console LOG [AStr (js "No articles found for " ++ email user)]]
      /\ news_requests evs = map (fun c => news_url c (NEWS_API_KEY env)) topics
      /\ Forall news_or_console evs.
Proof.
  intros rt user env st topics Hcat Hnone.
  unfold processUserNewsletter. rewrite Hcat. cbn [lift]. rewrite bind_ret.
  unfold try_catch, bind at 1, console_log at 1, emit at 1.
  set (s1 := {| tick := tick st;
                trace := trace st ++ [Console LOG [AStr (js "Processing newsletter for "
                           ++ email user ++ js " with categories: "
                           ++ join (js ", ") topics)]];
                table := table st |}).
  destruct (fetchNews_trace rt topics (NEWS_API_KEY env) s1) as (l & evs & s2 & E & T & R & F).
  pose proof (fetchNews_result rt topics (NEWS_API_KEY env) s1) as V.
  rewrite E in V. cbn [fst] in V. apply Normal_inj in V.
  change (tick s1) with (tick st) in V. rewrite Hnone in V. cbn in V. subst l.
  unfold bind at 1. rewrite E. mrun.
  exists evs. eexists. split; [reflexivity |]. cbn [trace]. rewrite T. subst s1.
  cbn [trace]. repeat rewrite <- app_assoc. repeat split; assumption.
Qed.

Lemma subscriber_without_articles_witness :
  category_list (categories bob) = Normal [js "technology"]
  /\ collected silent_runtime (NEWS_API_KEY (worker_env healthy_db))
       (tick initial_state) [js "technology"] = []
  /\ exists (evs : list event) (st' : State),
       processUserNewsletter silent_runtime bob (worker_env healthy_db) initial_state
         = (Normal tt, st')
       /\ trace st'
          = trace initial_state
            ++ Console LOG [AStr (js "Processing newsletter for " ++ email bob
                                  ++ js " with categories: "
                                  ++ join (js ", ") [js "technology"])]
               :: evs
            ++ [Console LOG [AStr (js "No articles found for " ++ email bob)]]
       /\ news_requests evs
          = map (fun c => news_url c (NEWS_API_KEY (worker_env healthy_db)))
                [js "technology"]
       /\ Forall news_or_console evs.
Proof.
  split; [reflexivity |]. split; [reflexivity |].
  exact (subscriber_without_articles_is_skipped silent_runtime bob
           (worker_env healthy_db) initial_state [js "technology"] eq_refl eq_refl).
Defined.

(* ================================================================== *)
(** * Further properties of the subscription intake *)
(* ================================================================== *)

Lemma update_row_none (e c : jsstring) (rs : list UserRow) :
  update_row e c rs = None <-> ~ In e (map email rs).
Proof.
  induction rs as [| r rs IH]; cbn [update_row map In]; [tauto |].
  destruct (JS.eqb (email r) e) eqn:E.
  - apply eqb_eq in E. split; [discriminate | intros H; exfalso; apply H; left; exact E].
  - apply eqb_neq in E. destruct (update_row e c rs) as [rs' |].
    + split; [discriminate |]. intros H. exfalso.
      assert (K : ~ In e (map email rs)) by tauto.
      apply IH in K. discriminate.
    + split; [| reflexivity]. intros _ [H | H]; [congruence |].
      apply (proj1 IH); [reflexivity | exact H].
Qed.

(** An update changes the first row of that email and nothing else. *)
Lemma update_row_some (e c : jsstring) (rs rs' : list UserRow) :
  update_row e c rs = Some rs' ->
  exists pre r post,
    rs = pre ++ r :: post /\ email r = e
    /\ ~ In e (map email pre)
    /\ rs' = pre ++ resubscribed r c :: post.
Proof.
  revert rs'. induction rs as [| r rs IH]; intros rs'; cbn [update_row];
    [discriminate |].
  destruct (JS.eqb (email r) e) eqn:E.
  - apply eqb_eq in E. intros H. injection H as <-.
    exists [], r, rs. repeat split; [exact E | intros []].
  - apply eqb_neq in E. destruct (update_row e c rs) as [rs0 |]; [| discriminate].
    intros H. injection H as <-.
    destruct (IH rs0 eq_refl) as (pre & r0 & post & -> & He & Hpre & ->).
    exists (r :: pre), r0, post. repeat split; [exact He |].
    intros [H | H]; [congruence | exact (Hpre H)].
Qed.

(** The emails of the table after an upsert. *)
Lemma upsert_emails (e c now : jsstring) (t : Table) :
  map email (rows (upsert e c now t))
    = if existsb (JS.eqb e) (map email (rows t))
      then map email (rows t)
      else map email (rows t) ++ [e].
Proof.
  unfold upsert. destruct (update_row e c (rows t)) as [rs' |] eqn:U.
  - destruct (update_row_some e c _ _ U) as (pre & r & post & E & He & Hpre & ->).
    assert (In e (map email (rows t))).
    { rewrite E, map_app, in_app_iff. right. left. exact He. }
    apply existsb_eqb_In in H. rewrite H. cbn [rows].
    rewrite E, !map_app. reflexivity.
  - apply update_row_none in U.
    destruct (existsb (JS.eqb e) (map email (rows t))) eqn:X.
    + apply existsb_eqb_In in X. contradiction.
    + cbn [rows]. rewrite map_app. reflexivity.
Qed.

Lemma upsert_NoDup (e c now : jsstring) (t : Table) :
  NoDup (map email (rows t)) -> NoDup (map email (rows (upsert e c now t))).
Proof.
  intros H. rewrite upsert_emails.
  destruct (existsb (JS.eqb e) (map email (rows t))) eqn:X; [exact H |].
  assert (K : ~ In e (map email (rows t))).
  { intros K. apply existsb_eqb_In in K. congruence. }
  clear X. induction (map email (rows t)) as [| a l IH]; cbn [app].
  - constructor; [intros [] | constructor].
  - inversion H as [| ? ? Ha ND]; subst. constructor.
    + rewrite in_app_iff. intros [X | [X | []]]; [contradiction |].
      subst. apply K. left. reflexivity.
    + apply IH; [exact ND |]. intros X. apply K. right. exact X.
Qed.

(** What [handleSubscribe] does with a form that passes its check. *)
Lemma handleSubscribe_valid (rt : Runtime) (request : Request) (env : Env) (st : State)
    (fd : FormData) (e : jsstring) (cats : list FormDataEntryValue) :
  formData request = Normal fd ->
  valid_form fd e cats ->
  handleSubscribe rt request env st
    = match d1_fault (DB env) (tick st) with
      | None =>
          (Normal {| body := subscription_page e (map entry_string cats);
                     status := 200;
                     content_type := Some (js "text/html") |},
           {| tick := S (S (tick st));
              trace := trace st
                       ++ [D1Statement UPSERT [e; stored_categories cats;
                                               stored_categories cats];
                           Console LOG
                             [AStr (js "Subscription processed for " ++ e
                                    ++ js " with categories: "
                                    ++ stored_categories cats)]];
              table := upsert e (stored_categories cats)
                         (CURRENT_TIMESTAMP rt (S (tick st))) (table st) |})
      | Some err =>
          (Normal (text_response (js "Database error occurred") 500),
           {| tick := S (tick st);
              trace := trace st
                       ++ [D1Statement UPSERT [e; stored_categories cats;
                                               stored_categories cats];
                           Console ERROR [AStr (js "Database error:"); AErr err]];
              table := table st |})
      end.
Proof.
  intros Hfd (Hget & He & Hall & Hne).
  unfold handleSubscribe, d1_run_upsert, d1_exec, read_table, write_table,
    stored_categories. mrun.
  rewrite Hfd. mrun. rewrite Hget, Hall. cbn [entry_truthy]. rewrite He.
  destruct cats as [| c0 cats]; [congruence |].
  cbn [List.length Nat.eqb negb orb]. mrun.
  destruct (d1_fault (DB env) (tick st)) as [err |]; mrun;
    repeat rewrite <- app_assoc; reflexivity.
Qed.

(** Every path of [handleSubscribe] ends in a response; the table
    changes on the successful one only. *)
Lemma handleSubscribe_paths (rt : Runtime) (request : Request) (env : Env) (st : State) :
  exists (resp : HttpResponse) (st' : State),
    handleSubscribe rt request env st = (Normal resp, st')
    /\ ((status resp = 200
         /\ exists e c now, table st' = upsert e c now (table st))
        \/ ((status resp = 400 \/ status resp = 500) /\ table st' = table st)).
Proof.
  unfold handleSubscribe, d1_run_upsert, d1_exec, read_table, write_table. mrun.
  destruct (formData request) as [fd | err]; mrun.
  2: { do 2 eexists. split; [reflexivity |]. right. split; [right |]; reflexivity. }
  destruct (negb (entry_truthy (form_get (js "email") fd))
            || (List.length (form_getAll (js "categories") fd) =? 0)%nat) eqn:C; mrun.
  { do 2 eexists. split; [reflexivity |]. right. split; [left |]; reflexivity. }
  destruct (form_get (js "email") fd) as [[e | f] |]; mrun.
  - destruct (d1_fault (DB env) (tick st)) as [err |]; mrun.
    + do 2 eexists. split; [reflexivity |]. right. split; [right |]; reflexivity.
    + do 2 eexists. split; [reflexivity |]. left. split; [reflexivity |].
      do 3 eexists. reflexivity.
  - do 2 eexists. split; [reflexivity |]. right. split; [right |]; reflexivity.
  - do 2 eexists. split; [reflexivity |]. right. split; [right |]; reflexivity.
Qed.

(** X11: [handleSubscribe] never throws: every request is answered,
    with status 200, 400 or 500, and unless the status is 200 the table
    is exactly what it was. *)
Theorem handleSubscribe_always_answers :
  forall (rt : Runtime) (request : Request) (env : Env) (st : State),
  exists (resp : HttpResponse) (st' : State),
    handleSubscribe rt request env st = (Normal resp, st')
    /\ (status resp = 200 \/ status resp = 400 \/ status resp = 500)
    /\ (status resp <> 200 -> table st' = table st).
Proof.
  intros rt request env st.
  destruct (handleSubscribe_paths rt request env st) as (resp & st' & E & H).
  exists resp, st'. split; [exact E |].
  destruct H as [[H200 _] | [H T]].
  - split; [left; exact H200 | congruence].
  - split; [right; exact H | intros _; exact T].
Qed.

(** X12: the email column stays a key: if the emails of the table are
    pairwise distinct before a request, they are after it, whatever the
    request and whether it succeeds or not. *)
Theorem handleSubscribe_keeps_emails_unique :
  forall (rt : Runtime) (request : Request) (env : Env) (st : State),
    NoDup (map email (rows (table st))) ->
    NoDup (map email (rows (table (exec (handleSubscribe rt request env) st)))).
Proof.
  intros rt request env st H. unfold exec.
  destruct (handleSubscribe_paths rt request env st) as (resp & st' & E & K).
  rewrite E. cbn [snd].
  destruct K as [[_ (e & c & now & T)] | [_ T]]; rewrite T;
    [apply upsert_NoDup |]; exact H.
Qed.

Lemma handleSubscribe_keeps_emails_unique_witness :
  NoDup (map email (rows (table store)))
  /\ NoDup (map email (rows (table (exec (handleSubscribe picky_runtime complete_form
                                             (worker_env healthy_db)) store)))).
Proof.
  assert (H : NoDup (map email (rows (table store)))).
  { repeat constructor; cbn; intros K;
      repeat (destruct K as [K | K]; [discriminate K |]); exact K. }
  split; [exact H |].
  exact (handleSubscribe_keeps_emails_unique picky_runtime complete_form
           (worker_env healthy_db) store H).
Defined.

Lemma update_row_at (e c : jsstring) (pre post : list UserRow) (r : UserRow) :
  email r = e -> ~ In e (map email pre) ->
  update_row e c (pre ++ r :: post) = Some (pre ++ resubscribed r c :: post).
Proof.
  intros <-. induction pre as [| x pre IH]; intros Hpre; cbn [app update_row].
  - rewrite eqb_refl. reflexivity.
  - destruct (JS.eqb (email x) (email r)) eqn:E.
    + apply eqb_eq in E. exfalso. apply Hpre. left. exact E.
    + rewrite IH; [reflexivity |]. intros H. apply Hpre. right. exact H.
Qed.

(** After an upsert the table holds an active row of that email with
    the new categories, and the rows of other emails are the ones it
    held before. *)
Lemma upsert_row (e c now : jsstring) (t : Table) :
  (exists r, In r (rows (upsert e c now t))
             /\ email r = e /\ active r = true /\ categories r = SqlText c)
  /\ forall r, email r <> e -> (In r (rows (upsert e c now t)) <-> In r (rows t)).
Proof.
  unfold upsert. destruct (update_row e c (rows t)) as [rs' |] eqn:U.
  - destruct (update_row_some e c _ _ U) as (pre & r0 & post & E & He & Hpre & ->).
    cbn [rows]. split.
    + exists (resubscribed r0 c). rewrite in_app_iff. cbn.
      repeat split; [right; left; reflexivity | exact He].
    + intros r Hr. rewrite E, !in_app_iff. cbn [In].
      split; (intros [H | [H | H]]; [left; exact H | | right; right; exact H]).
      * subst r. cbn in Hr. congruence.
      * subst r. congruence.
  - cbn [rows]. split.
    + eexists. rewrite in_app_iff. split; [right; left; reflexivity |].
      repeat split.
    + intros r Hr. rewrite in_app_iff. cbn [In].
      split; [intros [H | [H | []]]; [exact H | subst r; cbn in Hr; congruence]
             | intros H; left; exact H].
Qed.

(** X13: a form with an email and at least one topic, sent while the
    database answers, is stored: the answer has status 200 and is the
    HTML page, exactly one statement was sent, and the table then holds
    an active row of that email whose categories are the chosen topics
    joined by commas; the rows of every other email are untouched. *)
Theorem accepted_subscription_is_stored :
  forall (rt : Runtime) (request : Request) (env : Env) (st : State)
         (fd : FormData) (e : jsstring) (cats : list FormDataEntryValue),
    formData request = Normal fd ->
    valid_form fd e cats ->
    d1_fault (DB env) (tick st) = None ->
    exists (resp : HttpResponse) (st' : State),
      handleSubscribe rt request env st = (Normal resp, st')
      /\ status resp = 200
      /\ content_type resp = Some (js "text/html")
      /\ count is_statement (skipn (List.length (trace st)) (trace st')) = 1%nat
      /\ (exists r, In r (select_active (table st'))
                    /\ email r = e
                    /\ categories r = SqlText (stored_categories cats))
      /\ forall r, email r <> e ->
           (In r (rows (table st')) <-> In r (rows (table st))).
Proof.
  intros rt request env st fd e cats Hfd Hvalid Hdb.
  rewrite (handleSubscribe_valid rt request env st fd e cats Hfd Hvalid), Hdb.
  do 2 eexists. split; [reflexivity |]. cbn [status content_type trace table].
  split; [reflexivity |]. split; [reflexivity |]. split.
  { rewrite skipn_app, skipn_all, Nat.sub_diag. reflexivity. }
  destruct (upsert_row e (stored_categories cats)
              (CURRENT_TIMESTAMP rt (S (tick st))) (table st))
    as ((r & Hin & He & Ha & Hc) & Hothers).
  split; [| exact Hothers].
  exists r. unfold select_active. rewrite filter_In. repeat split; assumption.
Qed.

Lemma accepted_subscription_witness :
  formData complete_form
    = Normal [(js "email", FormString (js "fay@example.com"));
              (js "categories", FormString (js "technology"));
              (js "categories", FormString (js "science"))]
  /\ valid_form [(js "email", FormString (js "fay@example.com"));
                 (js "categories", FormString (js "technology"));
                 (js "categories", FormString (js "science"))]
       (js "fay@example.com")
       [FormString (js "technology"); FormString (js "science")]
  /\ d1_fault (DB (worker_env healthy_db)) (tick store) = None
  /\ exists (resp : HttpResponse) (st' : State),
       handleSubscribe picky_runtime complete_form (worker_env healthy_db) store
         = (Normal resp, st')
       /\ status resp = 200
       /\ content_type resp = Some (js "text/html")
       /\ count is_statement (skipn (List.length (trace store)) (trace st')) = 1%nat
       /\ (exists r, In r (select_active (table st'))
                     /\ email r = js "fay@example.com"
                     /\ categories r
                        = SqlText (stored_categories
                                     [FormString (js "technology");
                                      FormString (js "science")]))
       /\ forall r, email r <> js "fay@example.com" ->
            (In r (rows (table st')) <-> In r (rows (table store))).
Proof.
  assert (V : valid_form [(js "email", FormString (js "fay@example.com"));
                          (js "categories", FormString (js "technology"));
                          (js "categories", FormString (js "science"))]
                (js "fay@example.com")
                [FormString (js "technology"); FormString (js "science")]).
  { repeat split. discriminate. }
  split; [reflexivity |]. split; [exact V |]. split; [reflexivity |].
  exact (accepted_subscription_is_stored picky_runtime complete_form
           (worker_env healthy_db) store _ _ _ eq_refl V eq_refl).
Defined.

(** X14: subscribing again with an email the table already holds adds
    no row: the row of that email keeps its place, its id and its
    creation time, takes the new topics and becomes active again, also
    when it had been deactivated.  The attempted insert still uses up
    an id: the next new subscriber gets the id after the one that
    would have been next. *)
Theorem resubscription_replaces_topics_and_reactivates :
  forall (rt : Runtime) (request : Request) (env : Env) (st : State)
         (fd : FormData) (e : jsstring) (cats : list FormDataEntryValue)
         (pre post : list UserRow) (r : UserRow),
    formData request = Normal fd ->
    valid_form fd e cats ->
    d1_fault (DB env) (tick st) = None ->
    rows (table st) = pre ++ r :: post ->
    email r = e ->
    ~ In e (map email pre) ->
    table (exec (handleSubscribe rt request env) st)
      = {| rows := pre ++ {| id := id r; email := e;
                             categories := SqlText (stored_categories cats);
                             created_at := created_at r; active := true |} :: post;
           next_id := next_id (table st) + 1 |}.
Proof.
  intros rt request env st fd e cats pre post r Hfd Hvalid Hdb Hrows He Hpre.
  unfold exec. rewrite (handleSubscribe_valid rt request env st fd e cats Hfd Hvalid), Hdb.
  cbn [snd table]. unfold upsert.
  rewrite Hrows, (update_row_at e _ pre post r He Hpre).
  unfold resubscribed. rewrite He. reflexivity.
Qed.

Lemma resubscription_witness :
  active dan = false
  /\ table (exec (handleSubscribe picky_runtime returning_form
                    (worker_env healthy_db)) store)
     = {| rows := [ann; bob]
                  ++ {| id := id dan; email := js "dan@example.com";
                        categories := SqlText (stored_categories
                                                 [FormString (js "health")]);
                        created_at := created_at dan; active := true |} :: [eve];
          next_id := next_id (table store) + 1 |}.
Proof.
  split; [reflexivity |].
  refine (resubscription_replaces_topics_and_reactivates picky_runtime returning_form
            (worker_env healthy_db) store
            [(js "email", FormString (js "dan@example.com"));
             (js "categories", FormString (js "health"))]
            (js "dan@example.com") [FormString (js "health")]
            [ann; bob] [eve] dan eq_refl _ eq_refl eq_refl eq_refl _).
  - repeat split. discriminate.
  - cbn. intros [H | [H | []]]; discriminate H.
Defined.

(** X15: when the database fails on the upsert of a valid form, the
    answer is status 500 with the text of the inner handler, the error
    is logged after the one statement that was tried, and the table is
    what it was. *)
Theorem failed_upsert_answers_500 :
  forall (rt : Runtime) (request : Request) (env : Env) (st : State)
         (fd : FormData) (e : jsstring) (cats : list FormDataEntryValue) (err : exn),
    formData request = Normal fd ->
    valid_form fd e cats ->
    d1_fault (DB env) (tick st) = Some err ->
    exists st' : State,
      handleSubscribe rt request env st
        = (Normal (text_response (js "Database error occurred") 500), st')
      /\ table st' = table st
      /\ trace st'
         = trace st
           ++ [D1Statement UPSERT [e; stored_categories cats; stored_categories cats];
               Console ERROR [AStr (js "Database error:"); AErr err]].
Proof.
  intros rt request env st fd e cats err Hfd Hvalid Hdb.
  rewrite (handleSubscribe_valid rt request env st fd e cats Hfd Hvalid), Hdb.
  eexists. repeat split.
Qed.

Lemma failed_upsert_witness :
  d1_fault (DB (worker_env broken_db)) (tick store)
    = Some (JsError "Error" (js "D1_ERROR: no such table: users"))
  /\ exists st' : State,
       handleSubscribe picky_runtime returning_form (worker_env broken_db) store
         = (Normal (text_response (js "Database error occurred") 500), st')
       /\ table st' = table store
       /\ trace st'
          = trace store
            ++ [D1Statement UPSERT [js "dan@example.com";
                                    stored_categories [FormString (js "health")];
                                    stored_categories [FormString (js "health")]];
                Console ERROR
                  [AStr (js "Database error:");
                   AErr (JsError "Error" (js "D1_ERROR: no such table: users"))]].
Proof.
  split; [reflexivity |].
  refine (failed_upsert_answers_500 picky_runtime returning_form
            (worker_env broken_db) store
            [(js "email", FormString (js "dan@example.com"));
             (js "categories", FormString (js "health"))]
            (js "dan@example.com") [FormString (js "health")] _ eq_refl _ eq_refl).
  repeat split. discriminate.
Defined.

(** Splitting at commas undoes joining with commas. *)
Lemma split_on_comma_free (p : jsstring) :
  comma_free p = true -> split_on COMMA p = [p].
Proof.
  induction p as [| c p IH]; cbn [comma_free forallb split_on]; [reflexivity |].
  intros H. apply andb_true_iff in H. destruct H as [Hc H].
  destruct (c =? COMMA); [discriminate |]. rewrite (IH H). reflexivity.
Qed.

Lemma split_on_joint (p rest : jsstring) :
  comma_free p = true ->
  split_on COMMA (p ++ COMMA :: rest) = p :: split_on COMMA rest.
Proof.
  induction p as [| c p IH]; cbn [comma_free forallb split_on app].
  - intros _. rewrite N.eqb_refl. reflexivity.
  - intros H. apply andb_true_iff in H. destruct H as [Hc H].
    destruct (c =? COMMA); [discriminate |]. rewrite (IH H). reflexivity.
Qed.

Lemma split_join (cs : list jsstring) :
  cs <> [] -> forallb comma_free cs = true ->
  split_on COMMA (join (js ",") cs) = cs.
Proof.
  induction cs as [| c cs IH]; [congruence |].
  intros _ H. cbn [forallb] in H. apply andb_true_iff in H. destruct H as [Hc H].
  destruct cs as [| c' cs].
  - cbn [join]. apply split_on_comma_free. exact Hc.
  - change (join (js ",") (c :: c' :: cs))
      with (c ++ COMMA :: join (js ",") (c' :: cs)).
    rewrite (split_on_joint c _ Hc), IH; [reflexivity | discriminate | exact H].
Qed.

Lemma stored_topics_decode (cs : list jsstring) :
  cs <> [] ->
  forallb comma_free cs = true ->
  category_list (SqlText (stored_categories (map FormString cs)))
    = Normal (map trim cs).
Proof.
  intros Hne Hc. unfold category_list, stored_categories.
  rewrite map_map. cbn [entry_string]. rewrite map_id, (split_join cs Hne Hc).
  reflexivity.
Qed.

(** X16: what [handleSubscribe] stores, [processUserNewsletter] reads
    back: for topics none of which contains a comma, at least one, the
    stored column decodes to the chosen topics, each trimmed. *)
Theorem stored_topics_are_read_back :
  forall cs : list jsstring,
    cs <> [] ->
    forallb comma_free cs = true ->
    category_list (SqlText (stored_categories (map FormString cs)))
      = Normal (map trim cs).
Proof. exact stored_topics_decode. Qed.

Lemma stored_topics_witness :
  [js "technology"; js "science"] <> []
  /\ forallb comma_free [js "technology"; js "science"] = true
  /\ category_list (SqlText (stored_categories
                               (map FormString [js "technology"; js "science"])))
     = Normal (map trim [js "technology"; js "science"]).
Proof.
  split; [discriminate |]. split; [reflexivity |].
  apply stored_topics_are_read_back; [discriminate | reflexivity].
Defined.

(* ================================================================== *)
(** * The router *)
(* ================================================================== *)

(** X17: the [fetch] handler never throws: every request is answered,
    with status 200, 400, 404 or 500, and an answer other than 200
    leaves the table as it was. *)
Theorem fetch_always_answers :
  forall (rt : Runtime) (request : Incoming) (env : Env) (st : State),
  exists (resp : HttpResponse) (st' : State),
    fetch rt request env st = (Normal resp, st')
    /\ (status resp = 200 \/ status resp = 400
        \/ status resp = 404 \/ status resp = 500)
    /\ (status resp <> 200 -> table st' = table st).
Proof.
  intros rt request env st. unfold fetch. mrun.
  destruct (is_api_route (pathname request)); mrun.
  - destruct (is_subscribe_call request); mrun.
    + match goal with
      | |- context [handleSubscribe rt (payload request) env ?s] =>
          destruct (handleSubscribe_paths rt (payload request) env s)
            as (resp & st' & E & H); rewrite E
      end.
      exists resp, st'. split; [reflexivity |].
      destruct H as [[H200 _] | [[H | H] T]].
      * split; [left; exact H200 | congruence].
      * split; [right; left; exact H | intros _; exact T].
      * split; [right; right; right; exact H | intros _; exact T].
    + do 2 eexists. split; [reflexivity |].
      split; [right; right; left; reflexivity | reflexivity].
  - destruct (JS.eqb (pathname request) (js "/")); mrun.
    + do 2 eexists. split; [reflexivity |].
      split; [left; reflexivity | reflexivity].
    + do 2 eexists. split; [reflexivity |].
      split; [right; right; left; reflexivity | reflexivity].
Qed.

(** X18: only a [POST] to [/api/subscribe] reaches the database.  Any
    other request is answered from the worker alone: the table and the
    clock of the outside world are untouched, only console lines are
    written, and the answer is the subscription page when the path is
    exactly [/] and a 404 otherwise. *)
Theorem only_the_subscribe_call_reaches_the_store :
  forall (rt : Runtime) (request : Incoming) (env : Env) (st : State),
    is_subscribe_call request = false ->
    exists (resp : HttpResponse) (st' : State) (evs : list event),
      fetch rt request env st = (Normal resp, st')
      /\ table st' = table st
      /\ tick st' = tick st
      /\ trace st' = trace st ++ evs
      /\ Forall console_line evs
      /\ (pathname request = js "/" -> resp = page_response)
      /\ (pathname request <> js "/" -> status resp = 404).
Proof.
  intros rt request env st Hcall. unfold fetch. mrun. rewrite Hcall.
  destruct (is_api_route (pathname request)) eqn:Api; mrun.
  - do 3 eexists. split; [reflexivity |]. cbn [table tick trace].
    split; [reflexivity |]. split; [reflexivity |].
    split; [rewrite <- app_assoc; reflexivity |].
    split; [repeat constructor |].
    split; [| reflexivity].
    intros Hroot. rewrite Hroot in Api. discriminate Api.
  - destruct (JS.eqb (pathname request) (js "/")) eqn:Root; mrun.
    + do 3 eexists. split; [reflexivity |]. cbn [table tick trace].
      split; [reflexivity |]. split; [reflexivity |].
      split; [rewrite <- app_assoc; reflexivity |].
      split; [repeat constructor |].
      split; [reflexivity |].
      intros Hother. apply eqb_eq in Root. contradiction.
    + do 3 eexists. split; [reflexivity |]. cbn [table tick trace].
      split; [reflexivity |]. split; [reflexivity |].
      split; [rewrite <- app_assoc; reflexivity |].
      split; [repeat constructor |].
      split; [| reflexivity].
      intros Hroot. apply eqb_neq in Root. contradiction.
Qed.

Lemma only_the_subscribe_call_witness :
  is_subscribe_call get_subscribe = false
  /\ exists (resp : HttpResponse) (st' : State) (evs : list event),
       fetch picky_runtime get_subscribe (worker_env healthy_db) store
         = (Normal resp, st')
       /\ table st' = table store
       /\ tick st' = tick store
       /\ trace st' = trace store ++ evs
       /\ Forall console_line evs
       /\ (pathname get_subscribe = js "/" -> resp = page_response)
       /\ (pathname get_subscribe <> js "/" -> status resp = 404).
Proof.
  split; [reflexivity |].
  exact (only_the_subscribe_call_reaches_the_store picky_runtime get_subscribe
           (worker_env healthy_db) store eq_refl).
Defined.

(* ================================================================== *)
(** * What a run asks of the news source *)
(* ================================================================== *)

Lemma news_requests_app (a b : list event) :
  news_requests (a ++ b) = news_requests a ++ news_requests b.
Proof. unfold news_requests. apply flat_map_app. Qed.

Lemma asks_quiet {A : Type} (m : M A) :
  emits (fun e => is_news_request e = false) m -> asks [] m.
Proof.
  intros H s. destruct (H s) as (evs & E & F). exists evs. split; [exact E |].
  clear E. induction F as [| x l Hx _ IH]; [reflexivity |].
  destruct x; cbn in *; try exact IH. discriminate Hx.
Qed.

Lemma asks_bind {A B : Type} (u1 u2 : list jsstring) (m : M A) (k : A -> M B) :
  total m -> asks u1 m -> (forall a, asks u2 (k a)) -> asks (u1 ++ u2) (bind m k).
Proof.
  intros Tm Hm Hk s. unfold bind. destruct (Hm s) as (evs & E & R).
  destruct (Tm s) as (a & s' & Em). rewrite Em in *. cbn [snd] in E.
  destruct (Hk a s') as (evs' & E' & R').
  exists (evs ++ evs'). rewrite E', E, app_assoc, news_requests_app, R, R'.
  split; reflexivity.
Qed.

Lemma asks_then_quiet {A B : Type} (u : list jsstring) (m : M A) (k : A -> M B) :
  total m -> asks u m -> (forall a, asks [] (k a)) -> asks u (bind m k).
Proof.
  intros Tm Hm Hk. rewrite <- (app_nil_r u). apply asks_bind; assumption.
Qed.

Lemma asks_try_catch {A : Type} (u : list jsstring) (m : M A) (h : exn -> M A) :
  asks u m -> (forall e, asks [] (h e)) -> asks u (try_catch m h).
Proof.
  intros Hm Hh s. unfold try_catch. destruct (Hm s) as (evs & E & R).
  destruct (m s) as [[a | e] s']; cbn [snd] in *.
  - exists evs. split; assumption.
  - destruct (Hh e s') as (evs' & E' & R').
    exists (evs ++ evs'). rewrite E', E, app_assoc, news_requests_app, R, R', app_nil_r.
    split; reflexivity.
Qed.

Lemma fetchNews_asks (rt : Runtime) (cats : list jsstring) (apiKey : jsstring) :
  asks (map (fun c => news_url c apiKey) cats) (fetchNewsForCategories rt cats apiKey).
Proof.
  intros s. destruct (fetchNews_trace rt cats apiKey s) as (l & evs & s' & E & T & R & _).
  exists evs. rewrite E. split; assumption.
Qed.

(** One subscriber: a request per stored topic, and no other. *)
Lemma processUser_asks (rt : Runtime) (user : UserRow) (env : Env) :
  asks (wanted_urls (NEWS_API_KEY env) user) (processUserNewsletter rt user env).
Proof.
  unfold wanted_urls, processUserNewsletter.
  destruct (category_list (categories user)) as [topics | err]; cbn [lift].
  - rewrite bind_ret.
    apply asks_try_catch;
      [| intros e; apply asks_quiet; unfold console_error; apply emits_emit; reflexivity].
    apply (asks_bind [] (map (fun c => news_url c (NEWS_API_KEY env)) topics)).
    { intros s. do 2 eexists. reflexivity. }
    { apply asks_quiet. unfold console_log. apply emits_emit. reflexivity. }
    intros _.
    apply asks_then_quiet; [apply fetch_total | apply fetchNews_asks |].
    intros articles. apply asks_quiet. unfold summarize_into, console_log.
    destruct articles as [| a rest]; [apply emits_emit; reflexivity |].
    apply emits_bind.
    { apply emits_for_of. intros acc x.
      apply emits_bind; [apply summarize_kinds; reflexivity | intros s; apply emits_ret]. }
    intros summaries.
    apply emits_bind; [apply format_kinds | intros newsletter].
    apply emits_bind; [apply emits_ask | intros date].
    apply emits_bind; [apply send_kinds; reflexivity | intros sent].
    destruct sent; apply emits_emit; reflexivity.
  - rewrite bind_throw.
    apply asks_try_catch; [apply asks_quiet, emits_throw |].
    intros e. apply asks_quiet. unfold console_error. apply emits_emit. reflexivity.
Qed.

Lemma process_all_asks (rt : Runtime) (env : Env) (us : list UserRow) :
  forall s : State,
  exists evs : list event,
    trace (process_all rt env us s) = trace s ++ evs
    /\ news_requests evs = flat_map (wanted_urls (NEWS_API_KEY env)) us.
Proof.
  induction us as [| u rest IH]; intros s.
  - exists []. rewrite app_nil_r. split; reflexivity.
  - rewrite process_all_cons.
    destruct (processUser_asks rt u env s) as (evs & E & R).
    destruct (IH (exec (processUserNewsletter rt u env) s)) as (evs' & E' & R').
    exists (evs ++ evs'). unfold exec in *.
    rewrite E', E, app_assoc, news_requests_app, R, R'. split; reflexivity.
Qed.

Lemma scheduled_asks (rt : Runtime) (env : Env) (st : State) :
  exists (evs : list event) (st' : State),
    scheduled rt env st = (Normal tt, st')
    /\ trace st' = trace st ++ evs
    /\ news_requests evs
       = match d1_fault (DB env) (S (tick st)) with
         | Some _ => []
         | None => flat_map (wanted_urls (NEWS_API_KEY env)) (select_active (table st))
         end.
Proof.
  rewrite scheduled_outcome.
  destruct (d1_fault (DB env) (S (tick st))) as [e |].
  - do 2 eexists. split; [reflexivity |]. unfold run_failed, queried. mrun.
    rewrite <- app_assoc. split; reflexivity.
  - destruct (select_active (table st)) as [| u rest].
    + do 2 eexists. split; [reflexivity |]. unfold say, queried. mrun.
      rewrite <- app_assoc. split; reflexivity.
    + destruct (process_all_asks rt env (u :: rest)
                  (say (announce (List.length (u :: rest))) (queried rt st)))
        as (evs & E & R).
      do 2 eexists. split; [reflexivity |].
      unfold say at 1. mrun. rewrite E. unfold say, queried. mrun.
      repeat rewrite <- app_assoc. split; [reflexivity |].
      change (?a :: ?b :: ?c :: evs ++ ?d) with ([a; b; c] ++ evs ++ d).
      rewrite !news_requests_app, R. unfold trigger_line.
      cbn [news_requests flat_map app]. rewrite app_nil_r. reflexivity.
Qed.

(** X19: the requests a run makes to the news source are exactly the
    stored topics of the active subscribers, subscriber by subscriber
    in the order of the query and topic by topic in the stored order; a
    subscriber whose column is not text adds none, and a run whose
    query fails makes none. *)
Theorem a_run_requests_the_topics_of_the_active_subscribers :
  forall (rt : Runtime) (env : Env) (st : State),
  exists (evs : list event) (st' : State),
    scheduled rt env st = (Normal tt, st')
    /\ trace st' = trace st ++ evs
    /\ news_requests evs
       = match d1_fault (DB env) (S (tick st)) with
         | Some _ => []
         | None => flat_map (wanted_urls (NEWS_API_KEY env)) (select_active (table st))
         end.
Proof. exact scheduled_asks. Qed.

Lemma filter_inactive (l : list UserRow) :
  (forall r, In r l -> active r = false) -> filter active l = [].
Proof.
  induction l as [| x l IH]; intros H; cbn [filter]; [reflexivity |].
  rewrite (H x (or_introl eq_refl)). apply IH. intros r Hr. apply H. right. exact Hr.
Qed.

(** With no other active subscriber, the query after an upsert gives
    the one row of that email. *)
Lemma select_active_upsert (e c now : jsstring) (t : Table) :
  NoDup (map email (rows t)) ->
  (forall r, In r (rows t) -> email r <> e -> active r = false) ->
  exists r, select_active (upsert e c now t) = [r]
            /\ email r = e /\ categories r = SqlText c.
Proof.
  intros ND Hothers. unfold upsert, select_active.
  destruct (update_row e c (rows t)) as [rs' |] eqn:U.
  - destruct (update_row_some e c _ _ U) as (pre & r0 & post & E & He & Hpre & ->).
    rewrite E, map_app in ND. cbn [map] in ND.
    apply NoDup_remove_2 in ND. rewrite in_app_iff in ND.
    exists (resubscribed r0 c). cbn [rows].
    rewrite filter_app. cbn [filter resubscribed active].
    rewrite !filter_inactive; [repeat split; exact He | |].
    + intros r Hr. apply Hothers; [rewrite E, in_app_iff; right; right; exact Hr |].
      intros K. apply ND. right. rewrite He, <- K. apply in_map. exact Hr.
    + intros r Hr. apply Hothers; [rewrite E, in_app_iff; left; exact Hr |].
      intros K. apply Hpre. rewrite <- K. apply in_map. exact Hr.
  - apply update_row_none in U. eexists. cbn [rows].
    rewrite filter_app. cbn [filter active].
    rewrite filter_inactive; [repeat split |].
    intros r Hr. apply Hothers; [exact Hr |].
    intros K. apply U. rewrite <- K. apply in_map. exact Hr.
Qed.

(** X20: the form and the schedule fit together.  When a form with
    comma-free topics is accepted and nobody else is active, the next
    run asks the news source for exactly the chosen topics, each
    trimmed, in the order of the form. *)
Theorem the_next_run_asks_for_the_chosen_topics :
  forall (rt : Runtime) (request : Request) (env : Env) (st : State)
         (fd : FormData) (e : jsstring) (cs : list jsstring),
    formData request = Normal fd ->
    valid_form fd e (map FormString cs) ->
    forallb comma_free cs = true ->
    NoDup (map email (rows (table st))) ->
    (forall r, In r (rows (table st)) -> email r <> e -> active r = false) ->
    (forall t, d1_fault (DB env) t = None) ->
    exists evs : list event,
      trace (exec (scheduled rt env) (exec (handleSubscribe rt request env) st))
        = trace (exec (handleSubscribe rt request env) st) ++ evs
      /\ news_requests evs
         = map (fun c => news_url (trim c) (NEWS_API_KEY env)) cs.
Proof.
  intros rt request env st fd e cs Hfd Hvalid Hc ND Hothers Hdb.
  assert (Hne : cs <> []).
  { destruct Hvalid as (_ & _ & _ & H). intros ->. apply H. reflexivity. }
  unfold exec at 2 3.
  rewrite (handleSubscribe_valid rt request env st fd e _ Hfd Hvalid), Hdb. cbn [snd].
  match goal with
  | |- context [exec (scheduled rt env) ?s] =>
      destruct (scheduled_asks rt env s) as (evs & st' & E & T & R);
      unfold exec; rewrite E; cbn [snd]
  end.
  exists evs. split; [exact T |].
  rewrite R, Hdb. cbn [table].
  destruct (select_active_upsert e (stored_categories (map FormString cs))
              (CURRENT_TIMESTAMP rt (S (tick st))) (table st) ND Hothers)
    as (r & -> & _ & Hcat).
  cbn [flat_map]. rewrite app_nil_r. unfold wanted_urls.
  rewrite Hcat, (stored_topics_decode cs Hne Hc), map_map. reflexivity.
Qed.

Lemma the_next_run_witness :
  formData complete_form
    = Normal [(js "email", FormString (js "fay@example.com"));
              (js "categories", FormString (js "technology"));
              (js "categories", FormString (js "science"))]
  /\ forallb comma_free [js "technology"; js "science"] = true
  /\ NoDup (map email (rows (table initial_state)))
  /\ exists evs : list event,
       trace (exec (scheduled picky_runtime (worker_env healthy_db))
                (exec (handleSubscribe picky_runtime complete_form
                         (worker_env healthy_db)) initial_state))
         = trace (exec (handleSubscribe picky_runtime complete_form
                          (worker_env healthy_db)) initial_state) ++ evs
       /\ news_requests evs
          = map (fun c => news_url (trim c) (NEWS_API_KEY (worker_env healthy_db)))
                [js "technology"; js "science"].
Proof.
  split; [reflexivity |]. split; [reflexivity |]. split; [constructor |].
  refine (the_next_run_asks_for_the_chosen_topics picky_runtime complete_form
            (worker_env healthy_db) initial_state
            [(js "email", FormString (js "fay@example.com"));
             (js "categories", FormString (js "technology"));
             (js "categories", FormString (js "science"))]
            (js "fay@example.com") [js "technology"; js "science"]
            eq_refl _ eq_refl _ _ _).
  - repeat split. discriminate.
  - constructor.
  - intros r [].
  - intros t. reflexivity.
Defined.
